(** * The S3 output's file manager (libbeat/outputs/s3/file_manager.go)

    A shallow embedding of the rotating file manager: the generation namer
    [filePath], the rotation policy [shouldRotate], the ring rotator
    [rotate], the key namer [s3KeyName], the upload step [s3Upload] and the
    append entry point [writeLine], over an explicit model of the operating
    system calls the Go code makes (stat, remove, rename, create, open,
    close, write), of the clock, of the host identity and of the blob store.
    [createDirectory], which only prepares the directory when the output
    starts, is modelled apart, over the one path it deals with.

    Conventions.
    - Go's [int], [int64] are [Z]; [uint64] is [Z] with its wrap-around
      written out; [[]byte] is [list byte]; [string] is [string].
    - A Go pointer or interface value that may be nil is an [option]; using a
      nil one where Go dereferences it is the outcome [Panic].
    - A Go call returning [(v, err)] returns a pair of options.
    - A computation is a state transformer over the manager and the world;
      its outcome is a value, a returned [error], or a panic. The state is
      kept in every case, as the Go code mutates in place. *)

From Stdlib Require Import ZArith Lia String Ascii List.
From Stdlib.Strings Require Import Byte.
From stdpp Require Import base option gmap strings list.

Local Open Scope string_scope.
Local Open Scope Z_scope.

(** ** Go integers and formatting *)

Definition uint64_wrap (n : Z) : Z := n mod 2 ^ 64.

Definition int64_min : Z := - 2 ^ 63.
Definition int64_max : Z := 2 ^ 63 - 1.

(** [time.Time.Sub] saturates at the bounds of [Duration] (an int64). *)
Definition sat_int64 (n : Z) : Z := Z.max int64_min (Z.min int64_max n).

Definition digit_char (d : Z) : ascii :=
  match d with
  | 0 => "0" | 1 => "1" | 2 => "2" | 3 => "3" | 4 => "4"
  | 5 => "5" | 6 => "6" | 7 => "7" | 8 => "8" | 9 => "9"
  | _ => "?"
  end%char.

(** The [w] low decimal digits of [n], most significant first. *)
Fixpoint digits (w : nat) (n : Z) : string :=
  match w with
  | O => ""
  | S w' => String (digit_char (n / 10 ^ Z.of_nat w')) (digits w' (n mod 10 ^ Z.of_nat w'))
  end.

Fixpoint ndigits_aux (fuel : nat) (n : Z) : nat :=
  match fuel with
  | O => 1%nat
  | S f => if n <? 10 then 1%nat else S (ndigits_aux f (n / 10))
  end.

(** Number of decimal digits of [n >= 0] (1 for 0). *)
Definition ndigits (n : Z) : nat := ndigits_aux (Z.to_nat (Z.log2 n)) n.

(** [strconv.Itoa], and [%d] of [fmt.Sprintf]. *)
Definition fmt_d (n : Z) : string :=
  if n <? 0 then String "-" (digits (ndigits (- n)) (- n))
  else digits (ndigits n) n.

(** [%0wd] of [fmt.Sprintf]: zero padding to width [w], sign included. *)
Definition fmt_0d (w : nat) (n : Z) : string :=
  if n <? 0 then String "-" (digits (Nat.max (w - 1) (ndigits (- n))) (- n))
  else digits (Nat.max w (ndigits n)) n.

Definition strconv_Itoa (n : Z) : string := fmt_d n.

(** [strings.Join] of a two-element slice. *)
Definition strings_Join2 (a b sep : string) : string := a +:+ sep +:+ b.

(** [filepath.Join] of two elements: empty elements are ignored, the others
    are separated by the separator. The lexical cleaning that Join applies
    to its result (removal of [.], [..] and doubled separators) is not
    modelled: paths are taken as already clean. *)
Definition filepath_Join (dir name : string) : string :=
  if String.eqb dir "" then name
  else if String.eqb name "" then dir
  else dir +:+ "/" +:+ name.

(** ** Errors *)

Inductive errno := ENOENT | EEXIST | EACCES | EIO | ENOSPC | EINVAL | EBADF.

Inductive error :=
| OsError (e : errno)          (* an error of package os *)
| Errorf (msg : string)        (* fmt.Errorf *)
| AwsError (code : string).    (* an error of the AWS SDK *)

#[global] Instance errno_eq_dec : EqDecision errno.
Proof. solve_decision. Defined.

#[global] Instance error_eq_dec : EqDecision error.
Proof. solve_decision. Defined.

(** [os.IsNotExist]. *)
Definition os_IsNotExist (err : option error) : bool :=
  match err with
  | Some (OsError ENOENT) => true
  | _ => false
  end.

(** ** Time *)

(** A [time.Time] in UTC, by what its calendar accessors [Year], [Month],
    [Day], [Hour], [Minute], [Second] and [Nanosecond] return. *)
Record Time := mkTime {
  t_Year : Z; t_Month : Z; t_Day : Z;
  t_Hour : Z; t_Minute : Z; t_Second : Z; t_Nanosecond : Z
}.

(** Days from 1970-01-01 to a date of the proleptic Gregorian calendar. *)
Definition days_from_civil (y m d : Z) : Z :=
  let y' := if m <=? 2 then y - 1 else y in
  let era := y' / 400 in
  let yoe := y' - era * 400 in
  let doy := (153 * (if 2 <? m then m - 3 else m + 9) + 2) / 5 + d - 1 in
  let doe := yoe * 365 + yoe / 4 - yoe / 100 + doy in
  era * 146097 + doe - 719468.

(** The ranges the accessors of [time.Time] guarantee. *)
Definition valid_time (t : Time) : Prop :=
  1 <= t_Month t <= 12 /\ 1 <= t_Day t <= 31 /\
  0 <= t_Hour t < 24 /\ 0 <= t_Minute t < 60 /\ 0 <= t_Second t < 60 /\
  0 <= t_Nanosecond t < 1000000000.

Definition same_day (t u : Time) : Prop :=
  t_Year t = t_Year u /\ t_Month t = t_Month u /\ t_Day t = t_Day u.

(** Nanoseconds since midnight. *)
Definition time_of_day (t : Time) : Z :=
  ((t_Hour t * 60 + t_Minute t) * 60 + t_Second t) * 1000000000 + t_Nanosecond t.

(** The instant, in nanoseconds since the epoch. *)
Definition unix_nano (t : Time) : Z :=
  days_from_civil (t_Year t) (t_Month t) (t_Day t) * 86400000000000 + time_of_day t.

(** [t.Sub(u)], a [Duration] in nanoseconds. *)
Definition time_Sub (t u : Time) : Z := sat_int64 (unix_nano t - unix_nano u).

(** ** The file system, the host and the blob store *)

Record File := mkFile { f_data : list byte; f_mtime : Time }.

(** [os.FileInfo], as far as the manager looks at it. *)
Record FileInfo := mkFileInfo { fi_Size : Z; fi_ModTime : Time }.

Inductive syscall :=
| SysStat (p : string)
| SysLstat (p : string)
| SysRemove (p : string)
| SysRename (src dst : string)
| SysCreate (p : string)
| SysOpen (p : string)
| SysClose (fd : nat)
| SysWrite (fd : nat) (data : list byte).

(** One entry of [net.InterfaceAddrs]. *)
Record Addr := mkAddr {
  a_isIPNet : bool;       (* the type assertion to net.IPNet succeeds *)
  a_isLoopback : bool;
  a_isIPv4 : bool;        (* To4() is not nil *)
  a_String : string
}.

Record UploadOutput := mkUploadOutput { Location : string }.

Inductive event :=
| EvSys (c : syscall) (failure : option errno)
| EvLog (format : string)
| EvUpload (bucket key : string) (src : option nat) (err : option error).

(** Mutable part: directory entries, inodes, open descriptors. *)
Record FS := mkFS {
  dir : gmap string nat;
  inodes : gmap nat File;
  fds : gmap nat nat
}.

(** What the environment decides. [fault] makes a system call fail with the
    given errno whatever the state of the disk; [s3_Upload] is the reply of
    [uploader.Upload] for a key. *)
Record Env := mkEnv {
  fault : syscall -> option errno;
  now : Time;
  os_Hostname : string * option error;
  net_InterfaceAddrs : list Addr * option error;
  session_NewSession : option error;
  s3_Upload : string -> option UploadOutput * option error
}.

(** The trace has the newest event first. *)
Record World := mkWorld { fs : FS; env : Env; trace : list event }.

(** ** The manager *)

Definition managerMaxFiles : Z := 1024.
Definition defaultKeepFiles : Z := 7.
Definition defaultUploadEveryBytes : Z := 10 * 1024 * 1024.
Definition defaultUploadEverySeconds : Z := 0.

Record fileManager := mkFileManager {
  Path : string;
  Name : string;
  Region : string;
  Bucket : string;
  UploadEveryBytes : option Z;
  UploadEverySeconds : option Z;
  KeepFiles : option Z;
  current : option nat;
  current_size : Z;
  last : string
}.

Record State := mkState { mgr : fileManager; world : World }.

Inductive outcome (A : Type) :=
| Ok (a : A)
| Err (e : error)
| Panic.
Arguments Ok {A} a.
Arguments Err {A} e.
Arguments Panic {A}.

Definition M (A : Type) : Type := State -> outcome A * State.

Definition ret {A} (a : A) : M A := fun s => (Ok a, s).

Definition bind {A B} (c : M A) (k : A -> M B) : M B :=
  fun s =>
    match c s with
    | (Ok a, s') => k a s'
    | (Err e, s') => (Err e, s')
    | (Panic, s') => (Panic, s')
    end.

Notation "'let*' x ':=' c 'in' k" := (bind c (fun x => k))
  (at level 10, x name, c at level 100, k at level 200, only parsing).

(** [return err] *)
Definition fail {A} (e : error) : M A := fun s => (Err e, s).

Definition panic {A} : M A := fun s => (Panic, s).

(** Dereference of a pointer, or a method call through an interface. *)
Definition deref {A} (p : option A) : M A :=
  match p with
  | Some a => ret a
  | None => panic
  end.

(** [if err != nil { return err }] *)
Definition check (err : option error) : M unit :=
  match err with
  | Some e => fail e
  | None => ret tt
  end.

(** A call whose returned error the caller drops. *)
Definition ignore_error {A} (c : M A) : M unit :=
  fun s =>
    match c s with
    | (Ok _, s') => (Ok tt, s')
    | (Err _, s') => (Ok tt, s')
    | (Panic, s') => (Panic, s')
    end.

Definition get_mgr : M fileManager := fun s => (Ok (mgr s), s).
Definition get_world : M World := fun s => (Ok (world s), s).
Definition put_mgr (m : fileManager) : M unit :=
  fun s => (Ok tt, mkState m (world s)).

Definition set_current (c : option nat) (m : fileManager) : fileManager :=
  mkFileManager (Path m) (Name m) (Region m) (Bucket m) (UploadEveryBytes m)
    (UploadEverySeconds m) (KeepFiles m) c (current_size m) (last m).
Definition set_current_size (n : Z) (m : fileManager) : fileManager :=
  mkFileManager (Path m) (Name m) (Region m) (Bucket m) (UploadEveryBytes m)
    (UploadEverySeconds m) (KeepFiles m) (current m) n (last m).
Definition set_last (p : string) (m : fileManager) : fileManager :=
  mkFileManager (Path m) (Name m) (Region m) (Bucket m) (UploadEveryBytes m)
    (UploadEverySeconds m) (KeepFiles m) (current m) (current_size m) p.

Definition record (e : event) (w : World) : World :=
  mkWorld (fs w) (env w) (e :: trace w).
Definition with_fs (f : FS) (w : World) : World :=
  mkWorld f (env w) (trace w).

(** [logp.Info]: the format string is recorded, its arguments are not. *)
Definition logp_Info (format : string) : M unit :=
  fun s => (Ok tt, mkState (mgr s) (record (EvLog format) (world s))).

(** ** System calls *)

(** The effect of a system call on the file system: an errno, or a value
    and the new file system. *)
Definition stat_fs (p : string) (f : FS) : errno + FileInfo :=
  match dir f !! p with
  | None => inl ENOENT
  | Some i =>
    match inodes f !! i with
    | None => inl EIO
    | Some x => inr (mkFileInfo (Z.of_nat (length (f_data x))) (f_mtime x))
    end
  end.

Definition remove_fs (p : string) (f : FS) : errno + FS :=
  match dir f !! p with
  | None => inl ENOENT
  | Some _ => inr (mkFS (delete p (dir f)) (inodes f) (fds f))
  end.

Definition rename_fs (src dst : string) (f : FS) : errno + FS :=
  match dir f !! src with
  | None => inl ENOENT
  | Some i => inr (mkFS (<[dst := i]> (delete src (dir f))) (inodes f) (fds f))
  end.

(** [os.Create]: open for writing, creating the file or truncating it. *)
Definition create_fs (t : Time) (p : string) (f : FS) : nat * FS :=
  let i := match dir f !! p with
           | Some i => i
           | None => fresh (dom (inodes f))
           end in
  let fd := fresh (dom (fds f)) in
  (fd, mkFS (<[p := i]> (dir f)) (<[i := mkFile [] t]> (inodes f)) (<[fd := i]> (fds f))).

Definition open_fs (p : string) (f : FS) : errno + (nat * FS) :=
  match dir f !! p with
  | None => inl ENOENT
  | Some i =>
    let fd := fresh (dom (fds f)) in
    inr (fd, mkFS (dir f) (inodes f) (<[fd := i]> (fds f)))
  end.

Definition close_fs (fd : nat) (f : FS) : errno + FS :=
  match fds f !! fd with
  | None => inl EBADF
  | Some _ => inr (mkFS (dir f) (inodes f) (delete fd (fds f)))
  end.

Definition write_fs (t : Time) (fd : nat) (data : list byte) (f : FS) : errno + FS :=
  match fds f !! fd with
  | None => inl EBADF
  | Some i =>
    match inodes f !! i with
    | None => inl EIO
    | Some x =>
      inr (mkFS (dir f) (<[i := mkFile (f_data x ++ data)%list t]> (inodes f)) (fds f))
    end
  end.

(** A system call: the environment may make it fail; otherwise the file
    system decides. Either way the call is recorded. *)
Definition syscall_run {A} (c : syscall) (eff : FS -> errno + (A * FS)) : M (option A * option error) :=
  fun s =>
    let w := world s in
    match fault (env w) c with
    | Some e => (Ok (None, Some (OsError e)), mkState (mgr s) (record (EvSys c (Some e)) w))
    | None =>
      match eff (fs w) with
      | inl e => (Ok (None, Some (OsError e)), mkState (mgr s) (record (EvSys c (Some e)) w))
      | inr (a, f') => (Ok (Some a, None), mkState (mgr s) (record (EvSys c None) (with_fs f' w)))
      end
    end.

Definition lift_fs (r : errno + FS) : errno + (unit * FS) :=
  match r with
  | inl e => inl e
  | inr f => inr (tt, f)
  end.

Definition lift_ro {A} (f : FS) (r : errno + A) : errno + (A * FS) :=
  match r with
  | inl e => inl e
  | inr a => inr (a, f)
  end.

Definition os_Stat (p : string) : M (option FileInfo * option error) :=
  syscall_run (SysStat p) (fun f => lift_ro f (stat_fs p f)).

Definition os_Lstat (p : string) : M (option FileInfo * option error) :=
  syscall_run (SysLstat p) (fun f => lift_ro f (stat_fs p f)).

Definition os_Remove (p : string) : M (option error) :=
  let* r := syscall_run (SysRemove p) (fun f => lift_fs (remove_fs p f)) in ret (snd r).

Definition os_Rename (src dst : string) : M (option error) :=
  let* r := syscall_run (SysRename src dst) (fun f => lift_fs (rename_fs src dst f)) in ret (snd r).

Definition os_Create (p : string) : M (option nat * option error) :=
  let* w := get_world in
  syscall_run (SysCreate p) (fun f => inr (create_fs (now (env w)) p f)).

Definition os_Open (p : string) : M (option nat * option error) :=
  syscall_run (SysOpen p) (open_fs p).

(** [Close] of an os.File; on a nil file it returns [ErrInvalid]. *)
Definition file_Close (file : option nat) : M (option error) :=
  match file with
  | None => ret (Some (OsError EINVAL))
  | Some fd =>
    let* r := syscall_run (SysClose fd) (fun f => lift_fs (close_fs fd f)) in ret (snd r)
  end.

(** [Write] of an os.File; on a nil file it returns [ErrInvalid]. *)
Definition file_Write (file : option nat) (data : list byte) : M (option error) :=
  match file with
  | None => ret (Some (OsError EINVAL))
  | Some fd =>
    let* w := get_world in
    let* r := syscall_run (SysWrite fd data) (fun f => lift_fs (write_fs (now (env w)) fd data f)) in
    ret (snd r)
  end.

Definition time_Now : M Time := fun s => (Ok (now (env (world s))), s).

Definition modify_mgr (f : fileManager -> fileManager) : M unit :=
  fun s => (Ok tt, mkState (f (mgr s)) (world s)).

(** [defer d] around [body]: [d] runs when [body] returns or panics; what
    [d] returns is dropped. *)
Definition with_defer {A} (d : M unit) (body : M A) : M A :=
  fun s => let '(r, s') := body s in (r, snd (d s')).

(** ** The functions of file_manager.go *)

Definition checkIfConfigSane : M unit :=
  let* m := get_mgr in
  if (String.length (Name m) =? 0)%nat then
    fail (Errorf "S3 logging requires a name for the file names")
  else if (String.length (Bucket m) =? 0)%nat then
    fail (Errorf "S3 logging requires a bucket name")
  else
    let keep := default defaultKeepFiles (KeepFiles m) in
    let bytes := default defaultUploadEveryBytes (UploadEveryBytes m) in
    let secs := default defaultUploadEverySeconds (UploadEverySeconds m) in
    let* _ := put_mgr (mkFileManager (Path m) (Name m) (Region m) (Bucket m)
                         (Some bytes) (Some secs) (Some keep)
                         (current m) (current_size m) (last m)) in
    if (keep <? 2) || (managerMaxFiles <=? keep) then
      fail (Errorf ("S3 number of files to keep should be between 2 and "
                      +:+ fmt_d (managerMaxFiles - 1)))
    else ret tt.

Definition filePath (m : fileManager) (file_no : Z) : string :=
  if file_no =? 0 then filepath_Join (Path m) (Name m)
  else
    let filename := strings_Join2 (Name m) (strconv_Itoa file_no) "." in
    filepath_Join (Path m) filename.

Definition fileExists (file_no : Z) : M bool :=
  let* m := get_mgr in
  let file_path := filePath m file_no in
  let* r := os_Stat file_path in
  if os_IsNotExist (snd r) then ret false else ret true.

Definition shouldRotate : M bool :=
  let* m := get_mgr in
  match current m with
  | None =>
    let* _ := logp_Info "S3 rotate: current nil" in
    ret true
  | Some _ =>
    let* everyBytes := deref (UploadEveryBytes m) in
    if everyBytes <=? current_size m then
      let* _ := logp_Info "S3 rotate: current size %v > %v" in
      ret true
    else
      (* mtime of dot-1 file should equate to last upload time *)
      let* everySeconds := deref (UploadEverySeconds m) in
      if 0 <? everySeconds then
        let file_path := filePath m 1 in
        let* r := os_Lstat file_path in
        let* _ := match snd r with
                  | Some _ => logp_Info "S3 could not stat: $s\n"
                  | None => ret tt
                  end in
        let* fileInfo := deref (fst r) in
        let tMtime := fi_ModTime fileInfo in
        let* tNow := time_Now in
        let tDiff := Z.quot (time_Sub tNow tMtime) 1000000000 in
        if everySeconds <=? tDiff then
          let* _ := logp_Info "S3 rotate: mtime diff %v > %v" in
          ret true
        else ret false
      else ret false
  end.

(** The loop of [localIP] over the interface addresses. *)
Fixpoint first_ipv4 (addrs : list Addr) : string :=
  match addrs with
  | [] => ""
  | address :: rest =>
    if a_isIPNet address && negb (a_isLoopback address) then
      if a_isIPv4 address then a_String address else first_ipv4 rest
    else first_ipv4 rest
  end.

Definition localIP (e : Env) : string :=
  let '(addrs, err) := net_InterfaceAddrs e in
  match err with
  | Some _ => ""
  | None => first_ipv4 addrs
  end.

(** The host part of the key: hostname, else first IPv4 address, else the
    literal. *)
Definition resolve_host (e : Env) : string :=
  let '(host, err) := os_Hostname e in
  let host := match err with Some _ => "" | None => host end in
  let host := if String.eqb host "" || String.eqb host "localhost"
              then localIP e else host in
  (* could still be empty string so could be random fallback *)
  if String.eqb host "" then "localhost" else host.

Definition timeIso8601 (t : Time) : string :=
  fmt_d (t_Year t) +:+ fmt_0d 2 (t_Month t) +:+ fmt_0d 2 (t_Day t) +:+ "T"
  +:+ fmt_0d 2 (t_Hour t) +:+ fmt_0d 2 (t_Minute t) +:+ fmt_0d 2 (t_Second t)
  +:+ "." +:+ fmt_0d 9 (t_Nanosecond t) +:+ "Z".

(** Final format is /YYYY/MM/DD/HOST_ISO8601 *)
Definition keyName (host : string) (t : Time) : string :=
  "/" +:+ fmt_d (t_Year t) +:+ "/" +:+ fmt_0d 2 (t_Month t) +:+ "/"
  +:+ fmt_0d 2 (t_Day t) +:+ "/" +:+ host +:+ "_" +:+ timeIso8601 t.

Definition s3KeyName : M string :=
  let* w := get_world in
  let host := resolve_host (env w) in
  let* t := time_Now in
  ret (keyName host t).

(** [uploader.Upload]: the store's reply for the key; the upload is
    recorded with the inode the body is read from, if a file is open. *)
Definition uploader_Upload (bucket key : string) (file : option nat)
  : M (option UploadOutput * option error) :=
  fun s =>
    let w := world s in
    let r := s3_Upload (env w) key in
    let src := fd ← file; fds (fs w) !! fd in
    (Ok r, mkState (mgr s) (record (EvUpload bucket key src (snd r)) w)).

Definition s3Upload : M unit :=
  let* m := get_mgr in
  let* _ := logp_Info "S3 upload path: %v" in
  let* r := os_Open (last m) in
  let file := fst r in
  let* _ := match snd r with
            | Some _ => logp_Info "S3 err opening file: %s\n"
            | None => ret tt
            end in
  with_defer (let* _ := file_Close file in ret tt) (
    (* compress: the goroutine copies the file through gzip into the pipe
       the uploader reads from *)
    (* aws session *)
    let* w := get_world in
    match session_NewSession (env w) with
    | Some err =>
      let* _ := logp_Info "S3 failed to create session: %v" in
      fail err
    | None =>
      (* upload *)
      let* name := s3KeyName in
      let key := name +:+ ".gz" in
      let* res := uploader_Upload (Bucket m) key file in
      let* _ := match snd res with
                | Some _ => logp_Info "S3 upload failure: %v"
                | None => ret tt
                end in
      let* result := deref (fst res) in
      let _ := Location result in
      let* _ := logp_Info "S3 upload success: %v" in
      ret tt
    end).

(** delete any extra files, normally we shouldn't have any:
    [for file_no := keep; file_no < managerMaxFiles; file_no++], with [n]
    the number of iterations left. *)
Fixpoint prune_loop (n : nat) (file_no : Z) : M unit :=
  match n with
  | O => ret tt
  | S n' =>
    let* m := get_mgr in
    let* ex := fileExists file_no in
    let* _ := (if ex then
                 let* perr := os_Remove (filePath m file_no) in
                 check perr
               else ret tt) in
    prune_loop n' (file_no + 1)
  end.

Definition conflict (m : fileManager) (fileNo : Z) : error :=
  Errorf ("S3 file " +:+ filePath m (fileNo + 1)
            +:+ " exists when rotating would overwrite it").

(** shift all files from last to first:
    [for fileNo := keep - 1; fileNo >= 0; fileNo--], with [n] the number of
    iterations left. *)
Fixpoint shift_loop (n : nat) (fileNo : Z) : M unit :=
  match n with
  | O => ret tt
  | S n' =>
    let* m := get_mgr in
    let* ex := fileExists fileNo in
    if negb ex then
      (* file doesn't exist, don't rotate *)
      shift_loop n' (fileNo - 1)
    else
      let file_path := filePath m fileNo in
      let* next := fileExists (fileNo + 1) in
      if next then
        (* next file exists, something is strange *)
        fail (conflict m fileNo)
      else
        let* err := os_Rename file_path (filePath m (fileNo + 1)) in
        let* _ := check err in
        shift_loop n' (fileNo - 1)
  end.

Definition rotate : M unit :=
  let* m := get_mgr in
  let* _ := match current m with
            | Some _ =>
              let* err := file_Close (current m) in
              check err
            | None => ret tt
            end in
  let* keep := deref (KeepFiles m) in
  let* _ := prune_loop (Z.to_nat (managerMaxFiles - keep)) keep in
  let* _ := shift_loop (Z.to_nat keep) (keep - 1) in
  (* create the new file *)
  let file_path := filePath m 0 in
  let* r := os_Create file_path in
  let* _ := check (snd r) in
  let* _ := modify_mgr (set_current (fst r)) in
  let* _ := modify_mgr (set_current_size 0) in
  (* delete the extra file, ignore errors here *)
  let file_path := filePath m keep in
  let* _ := os_Remove file_path in
  (* upload the dot-1 file *)
  let file_path := filePath m 1 in
  let* _ := modify_mgr (set_last file_path) in
  let* _ := ignore_error s3Upload in
  ret tt.

Definition newline : byte := x0a.

Definition writeLine (line : list byte) : M unit :=
  let* rot := shouldRotate in
  let* _ := (if rot then rotate else ret tt) in
  let line := (line ++ [newline])%list in
  let* m := get_mgr in
  let* err := file_Write (current m) line in
  let* _ := check err in
  modify_mgr (fun m => set_current_size
                         (uint64_wrap (current_size m + Z.of_nat (length line))) m).

(** ** Derived notions used in the statements *)

(** No system call is made to fail by the environment. *)
Definition fault_free (w : World) : Prop := forall c, fault (env w) c = None.

(** The successful changes to the directory. *)
Definition is_mutation (e : event) : bool :=
  match e with
  | EvSys (SysRemove _) None => true
  | EvSys (SysRename _ _) None => true
  | EvSys (SysCreate _) None => true
  | _ => false
  end.

Definition mutations (tr : list event) : list event := List.filter is_mutation tr.

(** A generation file sits at slot [n]. *)
Definition slot_occupied (m : fileManager) (w : World) (n : Z) : Prop :=
  is_Some (dir (fs w) !! filePath m n).

(** What [os.Stat] answers for a path in a world. *)
Definition stat_result (w : World) (p : string) : errno + FileInfo :=
  match fault (env w) (SysStat p) with
  | Some e => inl e
  | None => stat_fs p (fs w)
  end.

Definition stat_errno (w : World) (p : string) : option errno :=
  match stat_result w p with
  | inl e => Some e
  | inr _ => None
  end.

Definition stat_error (w : World) (p : string) : option error :=
  OsError <$> stat_errno w p.

(** The state with another directory and trace. *)
Definition with_dir (s : State) (d : gmap string nat) (tr : list event) : State :=
  mkState (mgr s)
    (mkWorld (mkFS d (inodes (fs (world s))) (fds (fs (world s)))) (env (world s)) tr).

(** The directory after the prune loop over [n] slots from [file_no], and
    the removals it makes (newest first), when no call fails. *)
Fixpoint prune_dir (m : fileManager) (n : nat) (file_no : Z) (d : gmap string nat)
  : gmap string nat :=
  match n with
  | O => d
  | S n' => prune_dir m n' (file_no + 1) (delete (filePath m file_no) d)
  end.

Fixpoint prune_events (m : fileManager) (n : nat) (file_no : Z) (d : gmap string nat)
  : list event :=
  match n with
  | O => []
  | S n' =>
    (prune_events m n' (file_no + 1) (delete (filePath m file_no) d)
     ++ match d !! filePath m file_no with
        | Some _ => [EvSys (SysRemove (filePath m file_no)) None]
        | None => []
        end)%list
  end.

(** The directory after the shift loop over [n] slots downwards from
    [fileNo], and the renames it makes (newest first), when no call fails
    and no shift target is occupied. *)
Fixpoint shift_dir (m : fileManager) (n : nat) (fileNo : Z) (d : gmap string nat)
  : gmap string nat :=
  match n with
  | O => d
  | S n' =>
    match d !! filePath m fileNo with
    | None => shift_dir m n' (fileNo - 1) d
    | Some i =>
      shift_dir m n' (fileNo - 1)
        (<[filePath m (fileNo + 1) := i]> (delete (filePath m fileNo) d))
    end
  end.

Fixpoint shift_events (m : fileManager) (n : nat) (fileNo : Z) (d : gmap string nat)
  : list event :=
  match n with
  | O => []
  | S n' =>
    match d !! filePath m fileNo with
    | None => shift_events m n' (fileNo - 1) d
    | Some i =>
      (shift_events m n' (fileNo - 1)
         (<[filePath m (fileNo + 1) := i]> (delete (filePath m fileNo) d))
       ++ [EvSys (SysRename (filePath m fileNo) (filePath m (fileNo + 1))) None])%list
    end
  end.

(** A state, by its components. *)
Definition St (m : fileManager) (d : gmap string nat) (ino : gmap nat File)
    (fd : gmap nat nat) (e : Env) (tr : list event) : State :=
  mkState m (mkWorld (mkFS d ino fd) e tr).

(** The live file of the manager, if any, is an open descriptor. *)
Definition live_ok (s : State) : Prop :=
  match current (mgr s) with
  | Some fd => is_Some (fds (fs (world s)) !! fd)
  | None => True
  end.

(** The file system once the live file is closed. *)
Definition close_current (m : fileManager) (f : FS) : FS :=
  match current m with
  | Some fd => mkFS (dir f) (inodes f) (delete fd (fds f))
  | None => f
  end.

(** The directory after the prune and shift loops of a rotation. *)
Definition shifted_dir (m : fileManager) (keep : Z) (d : gmap string nat) : gmap string nat :=
  shift_dir m (Z.to_nat keep) (keep - 1)
    (prune_dir m (Z.to_nat (managerMaxFiles - keep)) keep d).

(** The descriptor of the new live file and the file system after the
    local steps of a rotation (close, prune, shift, create, cleanup), when
    no call fails. *)
Definition ring_after (m : fileManager) (keep : Z) (t : Time) (f : FS) : nat * FS :=
  let '(fd, f3) :=
    create_fs t (filePath m 0)
      (mkFS (shifted_dir m keep (dir f)) (inodes f) (fds (close_current m f))) in
  (fd, mkFS (delete (filePath m keep) (dir f3)) (inodes f3) (fds f3)).

(** The changes to the directory these steps make, newest first. *)
Definition ring_events (m : fileManager) (keep : Z) (d : gmap string nat) : list event :=
  let d1 := prune_dir m (Z.to_nat (managerMaxFiles - keep)) keep d in
  let d2 := shift_dir m (Z.to_nat keep) (keep - 1) d1 in
  (match <[filePath m 0 := 0%nat]> d2 !! filePath m keep with
   | Some _ => [EvSys (SysRemove (filePath m keep)) None]
   | None => []
   end
   ++ [EvSys (SysCreate (filePath m 0)) None]
   ++ shift_events m (Z.to_nat keep) (keep - 1) d1
   ++ prune_events m (Z.to_nat (managerMaxFiles - keep)) keep d)%list.

(** The manager after a rotation, by the descriptor [os.Create] gave. *)
Definition rotated_mgr_opt (m : fileManager) (fdo : option nat) : fileManager :=
  set_last (filePath m 1) (set_current_size 0 (set_current fdo m)).

(** The manager after these steps. *)
Definition rotated_mgr (m : fileManager) (fd : nat) : fileManager :=
  set_last (filePath m 1) (set_current_size 0 (set_current (Some fd) m)).

(** The key an upload uses, and the store's reply to it. *)
Definition upload_key (e : Env) : string :=
  keyName (resolve_host e) (now e) +:+ ".gz".

Definition store_reply (e : Env) : option UploadOutput * option error :=
  s3_Upload e (upload_key e).

(** What the upload step's outcome is, by the session and the store. *)
Definition upload_outcome (e : Env) : outcome unit :=
  match session_NewSession e with
  | Some err => Err err
  | None =>
    match fst (store_reply e) with
    | Some _ => Ok tt
    | None => Panic
    end
  end.

(** A computation leaves a component of the state alone. *)
Definition preserves {A X} (proj : State -> X) (c : M A) : Prop :=
  forall s, proj (snd (c s)) = proj s.

Definition st_mgr (s : State) : fileManager := mgr s.
Definition st_env (s : State) : Env := env (world s).
Definition st_dir (s : State) : gmap string nat := dir (fs (world s)).
Definition st_inodes (s : State) : gmap nat File := inodes (fs (world s)).
Definition st_mutations (s : State) : list event := mutations (trace (world s)).

(** The bytes the successful writes have written since the newest
    successful create, from a trace (newest event first). *)
Fixpoint written_since_rotation (tr : list event) : Z :=
  match tr with
  | [] => 0
  | EvSys (SysCreate _) None :: _ => 0
  | EvSys (SysWrite _ data) None :: tr' => Z.of_nat (length data) + written_since_rotation tr'
  | _ :: tr' => written_since_rotation tr'
  end.

(** The number of rotations that got as far as creating a new live file. *)
Fixpoint rotations (tr : list event) : nat :=
  match tr with
  | [] => O
  | EvSys (SysCreate _) None :: tr' => S (rotations tr')
  | _ :: tr' => rotations tr'
  end.

Definition st_written (s : State) : Z := written_since_rotation (trace (world s)).
Definition st_rotations (s : State) : nat := rotations (trace (world s)).

(** The bytes an append writes for a line: the line and its newline. *)
Definition line_bytes (line : list byte) : Z := Z.of_nat (length line) + 1.

Definition total_bytes (lines : list (Env * list byte)) : Z :=
  List.fold_right (fun el acc => line_bytes (snd el) + acc) 0 lines.

(** The counter agrees with what has been written since the last rotation. *)
Definition counter_ok (s : State) : Prop :=
  current_size (mgr s) = uint64_wrap (st_written s).

(** System calls that neither create nor write a file. *)
Definition is_quiet (c : syscall) : bool :=
  match c with
  | SysCreate _ | SysWrite _ _ => false
  | _ => true
  end.

(** The live file of the manager is an open descriptor of a file. *)
Definition live_file_ok (s : State) : Prop :=
  exists fd i f,
    current (mgr s) = Some fd
    /\ fds (fs (world s)) !! fd = Some i
    /\ inodes (fs (world s)) !! i = Some f.

(** Two managers with the same configuration. *)
Definition same_config (m m' : fileManager) : Prop :=
  Path m' = Path m /\ Name m' = Name m /\ Region m' = Region m
  /\ Bucket m' = Bucket m /\ UploadEveryBytes m' = UploadEveryBytes m
  /\ UploadEverySeconds m' = UploadEverySeconds m /\ KeepFiles m' = KeepFiles m.

(** C5 as the specification states it: the append whose line takes the
    counter from below 100 to 100 or more is the one that rotates. *)
Definition rotates_at_crossing_write (s : State) (line : list byte) : Prop :=
  current_size (mgr s) < 100 <= current_size (mgr s) + line_bytes line ->
  st_rotations (snd (writeLine line s)) = S (st_rotations s).

(** The state in another environment. *)
Definition with_env (e : Env) (s : State) : State :=
  mkState (mgr s) (mkWorld (fs (world s)) e (trace (world s))).

(** The writer: one append after the other, each in the environment of its
    moment. *)
Fixpoint appends (lines : list (Env * list byte)) : M unit :=
  match lines with
  | [] => ret tt
  | (e, line) :: rest =>
    fun s => bind (writeLine line) (fun _ => appends rest) (with_env e s)
  end.

(** A computation only adds events to the trace. *)
Definition extends {A} (c : M A) : Prop :=
  forall s, exists l, trace (world (snd (c s))) = (l ++ trace (world s))%list.

(** The environment with another blob store. *)
Definition set_store (u : string -> option UploadOutput * option error) (e : Env) : Env :=
  mkEnv (fault e) (now e) (os_Hostname e) (net_InterfaceAddrs e)
    (session_NewSession e) u.

(** C8 as the specification states it, in what it implies for a
    sequential reading: a rotate that returns without waiting for the
    upload returns the same way whatever the store answers. *)
Definition returns_without_waiting (s : State) : Prop :=
  forall u1 u2,
    fst (rotate (with_env (set_store u1 (env (world s))) s))
    = fst (rotate (with_env (set_store u2 (env (world s))) s)).

(** C4 as the specification states it: with slot [n] below the last kept
    slot and its successor both occupied, rotate fails with the conflict
    error and slot [n] is as before. *)
Definition conflict_on_occupied_successor (s : State) (keep n : Z) : Prop :=
  KeepFiles (mgr s) = Some keep -> 0 <= n < keep - 1 ->
  slot_occupied (mgr s) (world s) n -> slot_occupied (mgr s) (world s) (n + 1) ->
  fst (rotate s) = Err (conflict (mgr s) n)
  /\ st_dir (snd (rotate s)) !! filePath (mgr s) n = st_dir s !! filePath (mgr s) n.

(** ** Concrete managers and worlds *)

Definition ex_time : Time := mkTime 2016 5 17 12 0 0 0.

Definition ex_file : File := mkFile [] ex_time.

(** A manager keeping three files, rotating at 100 bytes, with the time
    threshold off and descriptor 0 as its live file. *)
Definition ex_manager : fileManager :=
  mkFileManager "/var/log/beat" "beat" "us-east-1" "logs"
    (Some 100) (Some 0) (Some 3) (Some 0%nat) 0 "".

(** An environment that injects no failure and whose store accepts. *)
Definition ex_env : Env :=
  mkEnv (fun _ => None) ex_time ("web1", None) ([], None) None
    (fun key => (Some (mkUploadOutput key), None)).

(** The same, with a store that rejects every upload. *)
Definition ex_env_rejecting : Env :=
  mkEnv (fun _ => None) ex_time ("web1", None) ([], None) None
    (fun key => (None, Some (AwsError "AccessDenied"))).

Definition ex_inodes5 : gmap nat File :=
  <[0%nat := ex_file]> (<[1%nat := ex_file]> (<[2%nat := ex_file]>
    (<[3%nat := ex_file]> (<[4%nat := ex_file]> ∅)))).

(** Generation files at slots 0 to 4. *)
Definition ex_dir5 : gmap string nat :=
  <[filePath ex_manager 0 := 0%nat]> (<[filePath ex_manager 1 := 1%nat]>
    (<[filePath ex_manager 2 := 2%nat]> (<[filePath ex_manager 3 := 3%nat]>
      (<[filePath ex_manager 4 := 4%nat]> ∅)))).

Definition ex_state5 : State :=
  mkState ex_manager (mkWorld (mkFS ex_dir5 ex_inodes5 {[0%nat := 0%nat]}) ex_env []).

(** C1 as the specification states its final disk state: after the
    rotation the generation files are exactly those of slots 0 to 3. *)
Definition final_slots_0_to_3 (s : State) : Prop :=
  forall n, slot_occupied (mgr s) (world (snd (rotate s))) n <-> 0 <= n <= 3.

(** Only the live file on disk, open as descriptor 0; the time threshold
    is one minute. *)
Definition ex_manager_timed : fileManager :=
  mkFileManager "/var/log/beat" "beat" "us-east-1" "logs"
    (Some 100) (Some 60) (Some 3) (Some 0%nat) 0 "".

Definition ex_fs1 : FS :=
  mkFS {[filePath ex_manager 0 := 0%nat]} {[0%nat := ex_file]} {[0%nat := 0%nat]}.

Definition ex_state_timed : State :=
  mkState ex_manager_timed (mkWorld ex_fs1 ex_env []).

(** The same disk, the time threshold off. *)
Definition ex_state1 : State :=
  mkState ex_manager (mkWorld ex_fs1 ex_env []).

(** A manager before its first append, on an empty directory. *)
Definition ex_manager_new : fileManager :=
  mkFileManager "/var/log/beat" "beat" "us-east-1" "logs"
    (Some 100) (Some 0) (Some 3) None 0 "".

Definition ex_state_new : State :=
  mkState ex_manager_new (mkWorld (mkFS ∅ ∅ ∅) ex_env []).

Definition ex_state_new_rejected : State :=
  mkState ex_manager_new (mkWorld (mkFS ∅ ∅ ∅) ex_env_rejecting []).

(** An environment in which [os.Stat] fails for lack of permission. *)
Definition ex_env_denied : Env :=
  mkEnv (fun c => match c with SysStat _ => Some EACCES | _ => None end)
    ex_time ("web1", None) ([], None) None
    (fun key => (Some (mkUploadOutput key), None)).

Definition ex_state_denied : State :=
  mkState ex_manager (mkWorld (mkFS ∅ ∅ ∅) ex_env_denied []).

(** A line of 99 bytes: 100 with its newline. *)
Definition ex_line99 : list byte := List.repeat x61 99.

Definition ex_lines : list (Env * list byte) :=
  [(ex_env, [x68; x69]); (ex_env, [x61; x62; x63])].

(** One nanosecond after [ex_time]. *)
Definition ex_time_later : Time := mkTime 2016 5 17 12 0 0 1.

Definition ex_env_later : Env :=
  mkEnv (fun _ => None) ex_time_later ("web1", None) ([], None) None
    (fun key => (Some (mkUploadOutput key), None)).

Definition ex_state_later : State :=
  mkState ex_manager_new (mkWorld (mkFS ∅ ∅ ∅) ex_env_later []).

(** ** Further notions: host addresses, calendar order *)

(** The test of [localIP] on one interface address: an IP network address
    that is not a loopback address and has an IPv4 form. *)
Definition qualifies (a : Addr) : bool :=
  a_isIPNet a && negb (a_isLoopback a) && a_isIPv4 a.

(** The calendar date of [t] is before that of [u]. *)
Definition date_lt (t u : Time) : Prop :=
  t_Year t < t_Year u
  \/ (t_Year t = t_Year u
      /\ (t_Month t < t_Month u
          \/ (t_Month t = t_Month u /\ t_Day t < t_Day u))).

(** [t] is before [u], by date and then by time of day. *)
Definition earlier (t u : Time) : Prop :=
  date_lt t u \/ (same_day t u /\ time_of_day t < time_of_day u).

(** A year that [%d] prints with four digits. *)
Definition four_digit_year (t : Time) : Prop := 1000 <= t_Year t <= 9999.

(** No separator in a string. *)
Fixpoint no_slash (s : string) : Prop :=
  match s with
  | EmptyString => True
  | String c s' => c <> "/"%char /\ no_slash s'
  end.

(** A manager as configured with a name and a bucket only. *)
Definition ex_manager_unset : fileManager :=
  mkFileManager "/var/log/beat" "beat" "us-east-1" "logs" None None None None 0 "".

Definition ex_state_unset : State :=
  mkState ex_manager_unset (mkWorld (mkFS ∅ ∅ ∅) ex_env []).

(** A host without a usable name: the hostname is "localhost", and its
    interfaces are a loopback address, an IPv6 address and two IPv4
    addresses. *)
Definition ex_addrs : list Addr :=
  [mkAddr true true true "127.0.0.1"; mkAddr true false false "fe80::1";
   mkAddr true false true "10.0.0.7"; mkAddr true false true "192.168.1.2"].

Definition ex_env_nameless : Env :=
  mkEnv (fun _ => None) ex_time ("localhost", None) (ex_addrs, None) None
    (fun key => (Some (mkUploadOutput key), None)).

(** The next day, on another host. *)
Definition ex_time_next_day : Time := mkTime 2016 5 18 0 0 0 0.

(** ** Further notions: files on disk *)

(** The file a path leads to: its inode and what the inode holds. *)
Definition file_at (f : FS) (p : string) : option (nat * File) :=
  i ← dir f !! p; x ← inodes f !! i; Some (i, x).

(** The manager's live descriptor is no longer open: the file it named has
    been closed and no new one has taken its place. *)
Definition stale (s : State) : Prop :=
  exists fd, current (mgr s) = Some fd /\ fds (fs (world s)) !! fd = None.

Definition is_upload (e : event) : bool :=
  match e with
  | EvUpload _ _ _ _ => true
  | _ => false
  end.

(** The uploads asked of the store, newest first. *)
Definition st_uploads (s : State) : list event :=
  List.filter is_upload (trace (world s)).

Definition st_fds (s : State) : gmap nat nat := fds (fs (world s)).
Definition st_fs' (s : State) : FS := fs (world s).

(** The content of the manager's live file, through its descriptor. *)
Definition live_data (s : State) : option (list byte) :=
  fd ← current (mgr s); i ← fds (fs (world s)) !! fd;
  x ← inodes (fs (world s)) !! i; Some (f_data x).

(** Two minutes after [ex_time]. *)
Definition ex_time_2min : Time := mkTime 2016 5 17 12 2 0 0.

Definition ex_env_2min : Env :=
  mkEnv (fun _ => None) ex_time_2min ("web1", None) ([], None) None
    (fun key => (Some (mkUploadOutput key), None)).

(** The timed manager with generation files at slots 0 to 4, two minutes
    after they were last written. *)
Definition ex_state_aged : State :=
  mkState ex_manager_timed
    (mkWorld (mkFS ex_dir5 ex_inodes5 {[0%nat := 0%nat]}) ex_env_2min []).

(** A manager whose last rotated file is slot 1, on the disk with slots 0
    to 4, and a store that rejects. *)
Definition ex_state_upload_rejected : State :=
  mkState (set_last (filePath ex_manager 1) ex_manager)
    (mkWorld (mkFS ex_dir5 ex_inodes5 {[0%nat := 0%nat]}) ex_env_rejecting []).

(** An environment in which no session with the store can be made. *)
Definition ex_env_no_session : Env :=
  mkEnv (fun _ => None) ex_time ("web1", None) ([], None)
    (Some (AwsError "NoCredentialProviders"))
    (fun key => (Some (mkUploadOutput key), None)).

Definition ex_state_no_session : State :=
  mkState (set_last (filePath ex_manager 1) ex_manager)
    (mkWorld (mkFS ex_dir5 ex_inodes5 {[0%nat := 0%nat]}) ex_env_no_session []).

(** The manager of [ex_manager] keeping one file only, on a disk with the
    live file alone. *)
Definition ex_state_keep1 : State :=
  mkState (mkFileManager "/var/log/beat" "beat" "us-east-1" "logs"
             (Some 100) (Some 0) (Some 1) (Some 0%nat) 0 "")
    (mkWorld ex_fs1 ex_env []).

(** The byte counter of the manager. *)
Definition st_counter (s : State) : Z := current_size (mgr s).

(** A computation keeps a property of the state, whatever its outcome. *)
Definition keeps {A} (P : State -> Prop) (c : M A) : Prop :=
  forall s, P s -> P (snd (c s)).

(** An environment in which removing a file is not permitted. *)
Definition ex_env_remove_denied : Env :=
  mkEnv (fun c => match c with SysRemove _ => Some EACCES | _ => None end)
    ex_time ("web1", None) ([], None) None
    (fun key => (Some (mkUploadOutput key), None)).

Definition ex_state5_remove_denied : State :=
  mkState ex_manager
    (mkWorld (mkFS ex_dir5 ex_inodes5 {[0%nat := 0%nat]}) ex_env_remove_denied []).

(** The manager of [ex_manager] after its live file was closed. *)
Definition ex_state_stale : State :=
  mkState ex_manager (mkWorld (mkFS ex_dir5 ex_inodes5 ∅) ex_env []).

(** The manager of [ex_state5] with its counter at the size threshold. *)
Definition ex_state5_full : State :=
  mkState (set_current_size 100 ex_manager) (world ex_state5).

(** ** Preparing the directory: [createDirectory]

    [createDirectory] deals with one path, the manager's directory, through
    [os.Stat], [FileInfo.IsDir] and [os.MkdirAll]. Its world is what paths
    name, a directory or a regular file, and the failures the environment
    makes these two calls have. *)

Inductive node := Directory | Regular.

(** [FileInfo.IsDir] *)
Definition IsDir (n : node) : bool :=
  match n with
  | Directory => true
  | Regular => false
  end.

Inductive dircall :=
| CallStat (p : string)
| CallMkdirAll (p : string).

Record Tree := mkTree {
  nodes : gmap string node;
  tree_fault : dircall -> option errno
}.

(** Computations over the tree, with the outcomes of [M]. *)
Definition T (A : Type) : Type := Tree -> outcome A * Tree.

Definition tret {A} (a : A) : T A := fun w => (Ok a, w).

Definition tbind {A B} (c : T A) (k : A -> T B) : T B :=
  fun w =>
    match c w with
    | (Ok a, w') => k a w'
    | (Err e, w') => (Err e, w')
    | (Panic, w') => (Panic, w')
    end.

Notation "'let+' x ':=' c 'in' k" := (tbind c (fun x => k))
  (at level 10, x name, c at level 100, k at level 200, only parsing).

Definition tfail {A} (e : error) : T A := fun w => (Err e, w).

Definition tderef {A} (p : option A) : T A :=
  match p with
  | Some a => tret a
  | None => fun w => (Panic, w)
  end.

Definition tcheck (err : option error) : T unit :=
  match err with
  | Some e => tfail e
  | None => tret tt
  end.

(** [os.Stat], for what [createDirectory] reads of its result. *)
Definition tree_Stat (p : string) : T (option node * option error) :=
  fun w =>
    match tree_fault w (CallStat p) with
    | Some e => (Ok (None, Some (OsError e)), w)
    | None =>
      match nodes w !! p with
      | Some n => (Ok (Some n, None), w)
      | None => (Ok (None, Some (OsError ENOENT)), w)
      end
    end.

(** [os.MkdirAll]: nothing to do on a directory, an error on a regular
    file (ENOTDIR in Go; which errno it is plays no role here), else the
    directory is made. *)
Definition mkdir_result (p : string) (w : Tree) : option error * Tree :=
  match tree_fault w (CallMkdirAll p) with
  | Some e => (Some (OsError e), w)
  | None =>
    match nodes w !! p with
    | Some Directory => (None, w)
    | Some Regular => (Some (OsError EEXIST), w)
    | None => (None, mkTree (<[p := Directory]> (nodes w)) (tree_fault w))
    end
  end.

Definition os_MkdirAll (p : string) : T (option error) :=
  fun w => let '(err, w') := mkdir_result p w in (Ok err, w').

Definition not_a_directory (m : fileManager) : error :=
  Errorf ("S3 " +:+ Path m +:+ " exists but it's not a directory").

Definition createDirectory (m : fileManager) : T unit :=
  let+ r := tree_Stat (Path m) in
  let fileinfo := fst r in
  let err := snd r in
  let+ _ := match err with
            | None =>
              let+ fi := tderef fileinfo in
              if negb (IsDir fi) then tfail (not_a_directory m) else tret tt
            | Some _ => tret tt
            end in
  let+ _ := (if os_IsNotExist err then
               let+ err' := os_MkdirAll (Path m) in
               tcheck err'
             else tret tt) in
  tret tt.

(** [os.Stat] reports that the path does not exist. *)
Definition stat_not_exist (p : string) (w : Tree) : Prop :=
  tree_fault w (CallStat p) = Some ENOENT
  \/ (tree_fault w (CallStat p) = None /\ nodes w !! p = None).

(** A tree in which the manager's directory cannot be examined. *)
Definition ex_tree_denied : Tree :=
  mkTree ∅ (fun c => match c with CallStat _ => Some EACCES | _ => None end).

(** A tree with nothing at the manager's directory. *)
Definition ex_tree_empty : Tree := mkTree ∅ (fun _ => None).

(** A tree with a regular file where the directory should be. *)
Definition ex_tree_file : Tree :=
  mkTree {[Path ex_manager := Regular]} (fun _ => None).

(** What [os.Lstat] gives for a path: the file's information, or nothing
    when the call is made to fail or the path leads to no file. *)
Definition lstat_result (s : State) (p : string) : option FileInfo :=
  match fault (env (world s)) (SysLstat p) with
  | Some _ => None
  | None =>
    match stat_fs p (fs (world s)) with
    | inl _ => None
    | inr fi => Some fi
    end
  end.

(** ** Reasoning about computations *)

Lemma bind_Ok_inv {A B} (c : M A) (k : A -> M B) s b s' :
  bind c k s = (Ok b, s') ->
  exists a s1, c s = (Ok a, s1) /\ k a s1 = (Ok b, s').
Proof.
  unfold bind. destruct (c s) as [[a|e|] s1]; intros H; try discriminate.
  eauto.
Qed.

Lemma bind_run {A B} (c : M A) (k : A -> M B) s a s1 :
  c s = (Ok a, s1) -> bind c k s = k a s1.
Proof. intros H. unfold bind. now rewrite H. Qed.

Lemma preserves_bind {A B X} (proj : State -> X) (c : M A) (k : A -> M B) :
  preserves proj c -> (forall a, preserves proj (k a)) ->
  preserves proj (bind c k).
Proof.
  intros Hc Hk s. unfold bind. specialize (Hc s).
  destruct (c s) as [[a|e|] s1]; simpl in *; try assumption.
  rewrite Hk. assumption.
Qed.

Lemma preserves_ret {A X} (proj : State -> X) (a : A) : preserves proj (ret a).
Proof. intros s. reflexivity. Qed.

Lemma preserves_fail {A X} (proj : State -> X) e : preserves proj (@fail A e).
Proof. intros s. reflexivity. Qed.

Lemma preserves_panic {A X} (proj : State -> X) : preserves proj (@panic A).
Proof. intros s. reflexivity. Qed.

Lemma preserves_deref {A X} (proj : State -> X) (p : option A) : preserves proj (deref p).
Proof. destruct p; intros s; reflexivity. Qed.

Lemma preserves_check {X} (proj : State -> X) err : preserves proj (check err).
Proof. destruct err; intros s; reflexivity. Qed.

Lemma preserves_get_mgr {X} (proj : State -> X) : preserves proj get_mgr.
Proof. intros s. reflexivity. Qed.

Lemma preserves_get_world {X} (proj : State -> X) : preserves proj get_world.
Proof. intros s. reflexivity. Qed.

Lemma preserves_time_Now {X} (proj : State -> X) : preserves proj time_Now.
Proof. intros s. reflexivity. Qed.

Lemma preserves_ignore_error {A X} (proj : State -> X) (c : M A) :
  preserves proj c -> preserves proj (ignore_error c).
Proof.
  intros Hc s. unfold ignore_error. specialize (Hc s).
  destruct (c s) as [[a|e|] s1]; assumption.
Qed.

Lemma preserves_with_defer {A X} (proj : State -> X) (d : M unit) (c : M A) :
  preserves proj d -> preserves proj c -> preserves proj (with_defer d c).
Proof.
  intros Hd Hc s. unfold with_defer. specialize (Hc s).
  destruct (c s) as [r s1]. simpl in *. rewrite Hd. assumption.
Qed.

Lemma preserves_if {A X} (proj : State -> X) (b : bool) (c1 c2 : M A) :
  preserves proj c1 -> preserves proj c2 -> preserves proj (if b then c1 else c2).
Proof. destruct b; auto. Qed.

Create HintDb frame discriminated.
#[global] Hint Resolve preserves_ret preserves_fail preserves_panic preserves_deref
  preserves_check preserves_get_mgr preserves_get_world preserves_time_Now
  preserves_ignore_error preserves_with_defer preserves_if : frame.
#[global] Hint Extern 2 (preserves _ (bind _ _)) =>
  apply preserves_bind; [ | intros ? ] : frame.
#[global] Hint Extern 3 (preserves _ (match ?x with _ => _ end)) => destruct x : frame.

(** *** The manager is only written by [modify_mgr] and [put_mgr] *)

Lemma syscall_run_mgr {A} c (eff : FS -> errno + (A * FS)) :
  preserves st_mgr (syscall_run c eff).
Proof.
  intros s. unfold syscall_run.
  destruct (fault _ c); [reflexivity|].
  destruct (eff _) as [e|[a f']]; reflexivity.
Qed.

Lemma syscall_run_env {A} c (eff : FS -> errno + (A * FS)) :
  preserves st_env (syscall_run c eff).
Proof.
  intros s. unfold syscall_run.
  destruct (fault _ c); [reflexivity|].
  destruct (eff _) as [e|[a f']]; reflexivity.
Qed.

Lemma logp_Info_mgr fmt : preserves st_mgr (logp_Info fmt).
Proof. intros s. reflexivity. Qed.

Lemma logp_Info_env fmt : preserves st_env (logp_Info fmt).
Proof. intros s. reflexivity. Qed.

Lemma logp_Info_dir fmt : preserves st_dir (logp_Info fmt).
Proof. intros s. reflexivity. Qed.

Lemma logp_Info_inodes fmt : preserves st_inodes (logp_Info fmt).
Proof. intros s. reflexivity. Qed.

Lemma logp_Info_mutations fmt : preserves st_mutations (logp_Info fmt).
Proof. intros s. reflexivity. Qed.

#[global] Hint Resolve syscall_run_mgr syscall_run_env logp_Info_mgr logp_Info_env
  logp_Info_dir logp_Info_inodes logp_Info_mutations : frame.

Lemma modify_mgr_env f : preserves st_env (modify_mgr f).
Proof. intros s. reflexivity. Qed.

Lemma modify_mgr_dir f : preserves st_dir (modify_mgr f).
Proof. intros s. reflexivity. Qed.

Lemma modify_mgr_inodes f : preserves st_inodes (modify_mgr f).
Proof. intros s. reflexivity. Qed.

Lemma modify_mgr_mutations f : preserves st_mutations (modify_mgr f).
Proof. intros s. reflexivity. Qed.

#[global] Hint Resolve modify_mgr_env modify_mgr_dir modify_mgr_inodes
  modify_mgr_mutations : frame.

Ltac frame_os := unfold os_Stat, os_Lstat, os_Remove, os_Rename, os_Create, os_Open,
  file_Close, file_Write; auto 20 with frame.

Lemma os_Stat_mgr p : preserves st_mgr (os_Stat p).
Proof. frame_os. Qed.
Lemma os_Lstat_mgr p : preserves st_mgr (os_Lstat p).
Proof. frame_os. Qed.
Lemma os_Remove_mgr p : preserves st_mgr (os_Remove p).
Proof. frame_os. Qed.
Lemma os_Rename_mgr a b : preserves st_mgr (os_Rename a b).
Proof. frame_os. Qed.
Lemma os_Create_mgr p : preserves st_mgr (os_Create p).
Proof. frame_os. Qed.
Lemma os_Open_mgr p : preserves st_mgr (os_Open p).
Proof. frame_os. Qed.
Lemma file_Close_mgr f : preserves st_mgr (file_Close f).
Proof. frame_os. Qed.
Lemma file_Write_mgr f d : preserves st_mgr (file_Write f d).
Proof. frame_os. Qed.

#[global] Hint Resolve os_Stat_mgr os_Lstat_mgr os_Remove_mgr os_Rename_mgr
  os_Create_mgr os_Open_mgr file_Close_mgr file_Write_mgr : frame.

Lemma fileExists_mgr n : preserves st_mgr (fileExists n).
Proof. unfold fileExists. auto 20 with frame. Qed.
#[global] Hint Resolve fileExists_mgr : frame.

Lemma prune_loop_mgr n k : preserves st_mgr (prune_loop n k).
Proof.
  revert k. induction n as [|n IH]; intros k; simpl; auto 20 with frame.
Qed.

Lemma shift_loop_mgr n k : preserves st_mgr (shift_loop n k).
Proof.
  revert k. induction n as [|n IH]; intros k; simpl; auto 20 with frame.
Qed.

Lemma uploader_Upload_mgr b k f : preserves st_mgr (uploader_Upload b k f).
Proof. intros s. reflexivity. Qed.

#[global] Hint Resolve prune_loop_mgr shift_loop_mgr uploader_Upload_mgr : frame.

Lemma s3KeyName_mgr : preserves st_mgr s3KeyName.
Proof. unfold s3KeyName. auto 20 with frame. Qed.
#[global] Hint Resolve s3KeyName_mgr : frame.

Lemma s3Upload_mgr : preserves st_mgr s3Upload.
Proof. unfold s3Upload. auto 30 with frame. Qed.

(** ** Strings and decimal formatting *)

Lemma str_app_nil (b : string) : "" +:+ b = b.
Proof. reflexivity. Qed.

Lemma str_app_cons (x : ascii) (a b : string) : String x a +:+ b = String x (a +:+ b).
Proof. reflexivity. Qed.

Ltac str_simpl :=
  repeat first [rewrite str_app_cons | rewrite str_app_nil]; simpl.
Ltac str_simpl_in H :=
  repeat first [rewrite str_app_cons in H | rewrite str_app_nil in H]; simpl in H.

Lemma str_length_app (a b : string) :
  String.length (a +:+ b) = (String.length a + String.length b)%nat.
Proof. induction a as [|c a IH]; str_simpl; [reflexivity|now rewrite IH]. Qed.

Lemma str_app_inv_head (a b c : string) : a +:+ b = a +:+ c -> b = c.
Proof.
  induction a as [|x a IH]; intros H; str_simpl_in H; [assumption|].
  injection H. auto.
Qed.

Lemma str_app_inj_length (a a' b b' : string) :
  String.length a = String.length a' ->
  a +:+ b = a' +:+ b' -> a = a' /\ b = b'.
Proof.
  revert a'. induction a as [|x a IH]; intros [|x' a'] Hl H;
    str_simpl_in H; simpl in Hl; try discriminate.
  - auto.
  - injection H as -> H. injection Hl as Hl.
    destruct (IH a' Hl H) as [-> ->]. auto.
Qed.

Lemma ascii_compare_refl (c : ascii) : Ascii.compare c c = Eq.
Proof. unfold Ascii.compare. apply N.compare_refl. Qed.

Lemma str_compare_app (a x y : string) :
  String.compare (a +:+ x) (a +:+ y) = String.compare x y.
Proof.
  induction a as [|c a IH]; str_simpl; [reflexivity|].
  now rewrite ascii_compare_refl.
Qed.

Lemma digit_range (d : Z) :
  0 <= d <= 9 ->
  d = 0 \/ d = 1 \/ d = 2 \/ d = 3 \/ d = 4 \/ d = 5 \/ d = 6 \/ d = 7 \/ d = 8 \/ d = 9.
Proof. lia. Qed.

Lemma digit_char_not_minus (d : Z) : digit_char d <> "-"%char.
Proof.
  destruct d as [|p|p]; try discriminate.
  do 4 (destruct p as [p|p|]; try discriminate).
Qed.

Lemma digit_char_inj (a b : Z) :
  0 <= a <= 9 -> 0 <= b <= 9 -> digit_char a = digit_char b -> a = b.
Proof.
  intros Ha Hb.
  destruct (digit_range a Ha) as [->|[->|[->|[->|[->|[->|[->|[->|[->| ->]]]]]]]]];
  destruct (digit_range b Hb) as [->|[->|[->|[->|[->|[->|[->|[->|[->| ->]]]]]]]]];
  simpl; intros H; try reflexivity; discriminate H.
Qed.

Lemma digit_char_lt (a b : Z) :
  0 <= a -> a < b -> b <= 9 -> Ascii.compare (digit_char a) (digit_char b) = Lt.
Proof.
  intros Ha Hab Hb.
  destruct (digit_range a ltac:(lia)) as [->|[->|[->|[->|[->|[->|[->|[->|[->| ->]]]]]]]]];
  destruct (digit_range b ltac:(lia)) as [->|[->|[->|[->|[->|[->|[->|[->|[->| ->]]]]]]]]];
  try lia; reflexivity.
Qed.

Lemma digits_length (w : nat) (n : Z) : String.length (digits w n) = w.
Proof. revert n. induction w as [|w IH]; intros n; simpl; [reflexivity|]. now rewrite IH. Qed.

Lemma pow10_pos (w : nat) : 0 < 10 ^ Z.of_nat w.
Proof. apply Z.pow_pos_nonneg; lia. Qed.

Lemma pow10_succ (w : nat) : 10 ^ Z.of_nat (S w) = 10 * 10 ^ Z.of_nat w.
Proof. rewrite Nat2Z.inj_succ, Z.pow_succ_r; lia. Qed.

(** The leading digit and the rest of a number below [10^(w+1)]. *)
Lemma lead_digit_range (w : nat) (n : Z) :
  0 <= n < 10 ^ Z.of_nat (S w) ->
  0 <= n / 10 ^ Z.of_nat w <= 9 /\ 0 <= n mod 10 ^ Z.of_nat w < 10 ^ Z.of_nat w.
Proof.
  intros [H0 H1]. rewrite pow10_succ in H1.
  pose proof (pow10_pos w) as Hp.
  split; [split|].
  - apply Z.div_pos; lia.
  - assert (n / 10 ^ Z.of_nat w < 10); [|lia].
    apply Z.div_lt_upper_bound; lia.
  - apply Z.mod_pos_bound; lia.
Qed.

Lemma digits_inj (w : nat) (a b : Z) :
  0 <= a < 10 ^ Z.of_nat w -> 0 <= b < 10 ^ Z.of_nat w ->
  digits w a = digits w b -> a = b.
Proof.
  revert a b. induction w as [|w IH]; intros a b Ha Hb H.
  - simpl in Ha, Hb. lia.
  - destruct (lead_digit_range w a Ha) as [Ha1 Ha2].
    destruct (lead_digit_range w b Hb) as [Hb1 Hb2].
    simpl in H. injection H as Hd Hr.
    apply digit_char_inj in Hd; [|assumption..].
    apply IH in Hr; [|assumption..].
    pose proof (pow10_pos w) as Hp.
    rewrite (Z.div_mod a (10 ^ Z.of_nat w)), (Z.div_mod b (10 ^ Z.of_nat w)) by lia.
    congruence.
Qed.

(** Fixed-width decimals compare as the numbers do. *)
Lemma digits_compare_lt (w : nat) (a b : Z) (r1 r2 : string) :
  0 <= a -> a < b -> b < 10 ^ Z.of_nat w ->
  String.compare (digits w a +:+ r1) (digits w b +:+ r2) = Lt.
Proof.
  revert a b. induction w as [|w IH]; intros a b Ha Hab Hb.
  - simpl in Hb. lia.
  - destruct (lead_digit_range w a ltac:(lia)) as [Ha1 Ha2].
    destruct (lead_digit_range w b ltac:(lia)) as [Hb1 Hb2].
    pose proof (pow10_pos w) as Hp.
    cbn [digits]. str_simpl.
    assert (Hq : a / 10 ^ Z.of_nat w <= b / 10 ^ Z.of_nat w)
      by (apply Z.div_le_mono; lia).
    destruct (Z.eq_dec (a / 10 ^ Z.of_nat w) (b / 10 ^ Z.of_nat w)) as [E|N].
    + rewrite E, ascii_compare_refl. apply IH; try lia.
      pose proof (Z.div_mod a (10 ^ Z.of_nat w) ltac:(lia)).
      pose proof (Z.div_mod b (10 ^ Z.of_nat w) ltac:(lia)).
      rewrite E in *. lia.
    + rewrite digit_char_lt; [reflexivity|lia..].
Qed.

Lemma ndigits_aux_pos (fuel : nat) (n : Z) : (1 <= ndigits_aux fuel n)%nat.
Proof. revert n. induction fuel; intros n; simpl; [lia|]. destruct (n <? 10); lia. Qed.

Lemma ndigits_aux_bound (fuel : nat) (n : Z) :
  0 <= n < 2 ^ (Z.of_nat fuel + 1) -> n < 10 ^ Z.of_nat (ndigits_aux fuel n).
Proof.
  revert n. induction fuel as [|f IH]; intros n Hn.
  - simpl in *. lia.
  - cbn [ndigits_aux]. destruct (Z.ltb_spec n 10) as [Hlt|Hge].
    + simpl. lia.
    + rewrite pow10_succ.
      assert (Hq : n / 10 < 10 ^ Z.of_nat (ndigits_aux f (n / 10))).
      { apply IH. split; [apply Z.div_pos; lia|].
        apply Z.div_lt_upper_bound; [lia|].
        replace (Z.of_nat (S f) + 1) with (Z.succ (Z.of_nat f + 1)) in Hn by lia.
        rewrite Z.pow_succ_r in Hn by lia. lia. }
      pose proof (Z.div_mod n 10 ltac:(lia)).
      pose proof (Z.mod_pos_bound n 10 ltac:(lia)). lia.
Qed.

Lemma ndigits_pos (n : Z) : (1 <= ndigits n)%nat.
Proof. apply ndigits_aux_pos. Qed.

Lemma ndigits_bound (n : Z) : 0 <= n -> n < 10 ^ Z.of_nat (ndigits n).
Proof.
  intros Hn. unfold ndigits. apply ndigits_aux_bound. split; [assumption|].
  destruct (Z.eq_dec n 0) as [->|Hne]; [simpl; lia|].
  rewrite Z2Nat.id by apply Z.log2_nonneg.
  apply Z.log2_spec. lia.
Qed.

Lemma ndigits_aux_le (fuel w : nat) (n : Z) :
  (1 <= w)%nat -> 0 <= n < 10 ^ Z.of_nat w -> (ndigits_aux fuel n <= w)%nat.
Proof.
  revert w n. induction fuel as [|f IH]; intros w n Hw Hn; simpl; [lia|].
  destruct (Z.ltb_spec n 10) as [Hlt|Hge]; [lia|].
  destruct w as [|w]; [lia|].
  destruct w as [|w]; [simpl in Hn; lia|].
  apply le_n_S. apply IH; [lia|].
  rewrite pow10_succ in Hn. split; [apply Z.div_pos; lia|].
  apply Z.div_lt_upper_bound; lia.
Qed.

Lemma fmt_0d_digits (w : nat) (n : Z) :
  (1 <= w)%nat -> 0 <= n < 10 ^ Z.of_nat w -> fmt_0d w n = digits w n.
Proof.
  intros Hw Hn. unfold fmt_0d.
  destruct (Z.ltb_spec n 0); [lia|].
  rewrite Nat.max_l; [reflexivity|]. now apply ndigits_aux_le.
Qed.

Lemma digits_head_not_minus (w : nat) (n : Z) (s : string) :
  (1 <= w)%nat -> String "-" s <> digits w n.
Proof.
  destruct w as [|w]; [lia|]. intros _ H. simpl in H. injection H as H _.
  symmetry in H. now apply digit_char_not_minus in H.
Qed.

Lemma fmt_d_nonneg_inj (a b : Z) :
  0 <= a -> 0 <= b ->
  digits (ndigits a) a = digits (ndigits b) b -> a = b.
Proof.
  intros Ha Hb H.
  assert (Hl : ndigits a = ndigits b).
  { rewrite <- (digits_length (ndigits a) a), H. apply digits_length. }
  rewrite Hl in H. apply digits_inj in H; [assumption| |].
  - rewrite <- Hl. split; [assumption|now apply ndigits_bound].
  - split; [assumption|now apply ndigits_bound].
Qed.

(** [strconv.Itoa] is injective. *)
Lemma fmt_d_inj (a b : Z) : fmt_d a = fmt_d b -> a = b.
Proof.
  unfold fmt_d.
  destruct (Z.ltb_spec a 0) as [Ha|Ha], (Z.ltb_spec b 0) as [Hb|Hb]; intros H.
  - injection H as H. apply fmt_d_nonneg_inj in H; lia.
  - exfalso. eapply digits_head_not_minus; [apply ndigits_pos|exact H].
  - exfalso. eapply digits_head_not_minus; [apply ndigits_pos|symmetry; exact H].
  - now apply fmt_d_nonneg_inj.
Qed.

(** ** The generation namer *)

Lemma filepath_Join_inj (d a b : string) :
  a <> "" -> b <> "" -> filepath_Join d a = filepath_Join d b -> a = b.
Proof.
  unfold filepath_Join. intros Ha Hb.
  destruct (String.eqb_spec d ""); [auto|].
  destruct (String.eqb_spec a ""); [contradiction|].
  destruct (String.eqb_spec b ""); [contradiction|].
  intros H. apply str_app_inv_head in H. now apply str_app_inv_head in H.
Qed.

Lemma suffixed_name_nonempty (name : string) (n : Z) :
  strings_Join2 name (strconv_Itoa n) "." <> "".
Proof.
  unfold strings_Join2. intros H. apply (f_equal String.length) in H.
  rewrite !str_length_app in H. simpl in H. lia.
Qed.

Lemma suffixed_name_length (name : string) (n : Z) :
  (String.length name < String.length (strings_Join2 name (strconv_Itoa n) "."))%nat.
Proof. unfold strings_Join2. rewrite !str_length_app. simpl. lia. Qed.

(** The live path differs from every suffixed path. *)
Lemma filePath_0_ne (m : fileManager) (n : Z) : n <> 0 -> filePath m 0 <> filePath m n.
Proof.
  intros Hn. unfold filePath. simpl.
  destruct (Z.eqb_spec n 0) as [|_]; [contradiction|].
  pose proof (suffixed_name_length (Name m) n) as Hl.
  pose proof (suffixed_name_nonempty (Name m) n) as Hne.
  set (f := strings_Join2 _ _ _) in *.
  intros H. apply (f_equal String.length) in H. revert H.
  unfold filepath_Join.
  destruct (String.eqb_spec (Path m) "") as [|Hd]; [lia|].
  destruct (String.eqb_spec f ""); [contradiction|].
  destruct (String.eqb_spec (Name m) "").
  - rewrite !str_length_app. simpl. lia.
  - rewrite !str_length_app. simpl. lia.
Qed.

(** Distinct slots have distinct paths. *)
Lemma filePath_inj (m : fileManager) (a b : Z) : filePath m a = filePath m b -> a = b.
Proof.
  intros H.
  destruct (Z.eq_dec a 0) as [->|Ha], (Z.eq_dec b 0) as [->|Hb]; [reflexivity|..].
  - exfalso. exact (filePath_0_ne m b Hb H).
  - exfalso. exact (filePath_0_ne m a Ha (eq_sym H)).
  - unfold filePath in H.
    destruct (Z.eqb_spec a 0); [contradiction|].
    destruct (Z.eqb_spec b 0); [contradiction|].
    apply filepath_Join_inj in H; try apply suffixed_name_nonempty.
    unfold strings_Join2 in H. apply str_app_inv_head in H.
    apply str_app_inv_head in H. now apply fmt_d_inj.
Qed.

(** ** System calls when the environment injects no failure *)

Lemma fileExists_run (n : Z) (s : State) :
  let p := filePath (mgr s) n in
  fileExists n s =
    (Ok (negb (os_IsNotExist (stat_error (world s) p))),
     mkState (mgr s) (record (EvSys (SysStat p) (stat_errno (world s) p)) (world s))).
Proof.
  unfold fileExists, os_Stat, syscall_run, bind, get_mgr, stat_error, stat_errno,
    stat_result. simpl.
  destruct s as [m [f e tr]]. simpl.
  destruct (fault e (SysStat (filePath m n))) as [x|]; simpl.
  - destruct x; reflexivity.
  - destruct (stat_fs (filePath m n) f) as [x|fi]; simpl; [destruct x|]; reflexivity.
Qed.

Lemma stat_errno_ff (w : World) (p : string) :
  fault_free w ->
  os_IsNotExist (stat_error w p) = match dir (fs w) !! p with Some _ => false | None => true end.
Proof.
  intros Hff. unfold stat_error, stat_errno, stat_result. rewrite Hff.
  unfold stat_fs. destruct (dir (fs w) !! p) as [i|]; [|reflexivity].
  destruct (inodes (fs w) !! i); reflexivity.
Qed.

(** In a world without injected failures the existence probe answers
    whether the directory has the entry. *)
Lemma fileExists_ff (n : Z) (s : State) :
  fault_free (world s) ->
  exists tr,
    fileExists n s =
      (Ok (match st_dir s !! filePath (mgr s) n with Some _ => true | None => false end),
       with_dir s (st_dir s) tr)
    /\ mutations tr = st_mutations s.
Proof.
  intros Hff. rewrite fileExists_run. cbv zeta. rewrite stat_errno_ff by assumption.
  exists (EvSys (SysStat (filePath (mgr s) n))
            (stat_errno (world s) (filePath (mgr s) n)) :: trace (world s)).
  split.
  - unfold st_dir, with_dir, record. destruct s as [m [[d i f] e tr]]. simpl.
    destruct (d !! filePath m n); reflexivity.
  - reflexivity.
Qed.

Lemma os_Remove_ff (p : string) (s : State) (i : nat) :
  fault_free (world s) -> st_dir s !! p = Some i ->
  exists tr,
    os_Remove p s = (Ok None, with_dir s (delete p (st_dir s)) tr)
    /\ mutations tr = EvSys (SysRemove p) None :: st_mutations s.
Proof.
  intros Hff Hp. unfold os_Remove, syscall_run, bind, remove_fs, st_dir in *.
  rewrite Hff. rewrite Hp. simpl. eexists. split; reflexivity.
Qed.

Lemma os_Remove_ff_absent (p : string) (s : State) :
  fault_free (world s) -> st_dir s !! p = None ->
  exists tr e,
    os_Remove p s = (Ok (Some e), with_dir s (st_dir s) tr)
    /\ mutations tr = st_mutations s.
Proof.
  intros Hff Hp. unfold os_Remove, syscall_run, bind, remove_fs, st_dir in *.
  rewrite Hff. rewrite Hp. simpl.
  exists (EvSys (SysRemove p) (Some ENOENT) :: trace (world s)), (OsError ENOENT).
  split; [|reflexivity].
  destruct s as [m [[d i f] e tr]]. reflexivity.
Qed.

Lemma os_Rename_ff (src dst : string) (s : State) (i : nat) :
  fault_free (world s) -> st_dir s !! src = Some i ->
  exists tr,
    os_Rename src dst s = (Ok None, with_dir s (<[dst := i]> (delete src (st_dir s))) tr)
    /\ mutations tr = EvSys (SysRename src dst) None :: st_mutations s.
Proof.
  intros Hff Hp. unfold os_Rename, syscall_run, bind, rename_fs, st_dir in *.
  rewrite Hff. rewrite Hp. simpl. eexists. split; reflexivity.
Qed.

Lemma with_dir_with_dir (s : State) d tr d' tr' :
  with_dir (with_dir s d tr) d' tr' = with_dir s d' tr'.
Proof. reflexivity. Qed.

Lemma st_dir_with_dir (s : State) d tr : st_dir (with_dir s d tr) = d.
Proof. reflexivity. Qed.

Lemma mgr_with_dir (s : State) d tr : mgr (with_dir s d tr) = mgr s.
Proof. reflexivity. Qed.

Lemma st_mutations_with_dir (s : State) d tr : st_mutations (with_dir s d tr) = mutations tr.
Proof. reflexivity. Qed.

Lemma fault_free_with_dir (s : State) d tr :
  fault_free (world s) -> fault_free (world (with_dir s d tr)).
Proof. intros H c. apply H. Qed.

Ltac wd_simpl :=
  repeat first
    [ rewrite with_dir_with_dir in *
    | rewrite st_dir_with_dir in *
    | rewrite mgr_with_dir in *
    | rewrite st_mutations_with_dir in * ].

(** ** The prune loop *)

Lemma prune_loop_ff (n : nat) (k : Z) (s : State) :
  fault_free (world s) ->
  exists tr,
    prune_loop n k s = (Ok tt, with_dir s (prune_dir (mgr s) n k (st_dir s)) tr)
    /\ mutations tr = (prune_events (mgr s) n k (st_dir s) ++ st_mutations s)%list.
Proof.
  revert k s. induction n as [|n IH]; intros k s Hff.
  - exists (trace (world s)). split; [|reflexivity].
    destruct s as [m [[d i f] e tr]]. reflexivity.
  - cbn [prune_loop prune_dir prune_events].
    unfold bind at 1. unfold get_mgr at 1. cbv beta iota.
    destruct (fileExists_ff k s Hff) as (tr1 & E1 & M1).
    rewrite (bind_run _ _ _ _ _ E1).
    destruct (st_dir s !! filePath (mgr s) k) as [i|] eqn:Hk.
    + destruct (os_Remove_ff (filePath (mgr s) k) (with_dir s (st_dir s) tr1) i
                  (fault_free_with_dir _ _ _ Hff) Hk) as (tr2 & E2 & M2).
      wd_simpl.
      unfold bind at 1. unfold bind at 1. rewrite E2. cbn [check ret].
      destruct (IH (k + 1) (with_dir s (delete (filePath (mgr s) k) (st_dir s)) tr2)
                  (fault_free_with_dir _ _ _ Hff)) as (tr3 & E3 & M3).
      wd_simpl.
      exists tr3. split; [exact E3|].
      rewrite M3, M2, M1. now rewrite <- app_assoc.
    + unfold bind at 1. cbn [ret].
      destruct (IH (k + 1) (with_dir s (st_dir s) tr1) (fault_free_with_dir _ _ _ Hff))
        as (tr3 & E3 & M3).
      wd_simpl.
      exists tr3. rewrite delete_id by assumption. split; [exact E3|].
      rewrite M3, M1. now rewrite app_nil_r.
Qed.

Lemma prune_dir_lookup_other (m : fileManager) (n : nat) (k : Z) (d : gmap string nat) (q : string) :
  (forall j, k <= j < k + Z.of_nat n -> q <> filePath m j) ->
  prune_dir m n k d !! q = d !! q.
Proof.
  revert k d. induction n as [|n IH]; intros k d Hq; [reflexivity|].
  cbn [prune_dir]. rewrite IH.
  - apply lookup_delete_ne. intros E. apply (Hq k); [lia|]. now symmetry.
  - intros j Hj. apply Hq. lia.
Qed.

Lemma prune_dir_lookup_slot (m : fileManager) (n : nat) (k : Z) (d : gmap string nat) (j : Z) :
  prune_dir m n k d !! filePath m j =
    if decide (k <= j < k + Z.of_nat n) then None else d !! filePath m j.
Proof.
  revert k d. induction n as [|n IH]; intros k d.
  - cbn. case_decide; [lia|reflexivity].
  - cbn [prune_dir]. rewrite IH.
    destruct (decide (j = k)) as [->|Hne].
    + rewrite lookup_delete_eq. repeat case_decide; try reflexivity; lia.
    + rewrite lookup_delete_ne by (intros E; apply filePath_inj in E; lia).
      repeat case_decide; try reflexivity; lia.
Qed.

(** The removals of the prune loop over slots that are all free. *)
Lemma prune_events_none (m : fileManager) (n : nat) (k : Z) (d : gmap string nat) :
  (forall j, k <= j < k + Z.of_nat n -> d !! filePath m j = None) ->
  prune_events m n k d = [].
Proof.
  revert k d. induction n as [|n IH]; intros k d H; [reflexivity|].
  cbn [prune_events]. rewrite (H k) by lia. rewrite IH; [reflexivity|].
  intros j Hj. rewrite lookup_delete_ne by (intros E; apply filePath_inj in E; lia).
  apply H. lia.
Qed.

(** ** The shift loop *)

Lemma shift_loop_ff (n : nat) (j : Z) (s : State) :
  fault_free (world s) ->
  st_dir s !! filePath (mgr s) (j + 1) = None ->
  exists tr,
    shift_loop n j s = (Ok tt, with_dir s (shift_dir (mgr s) n j (st_dir s)) tr)
    /\ mutations tr = (shift_events (mgr s) n j (st_dir s) ++ st_mutations s)%list.
Proof.
  revert j s. induction n as [|n IH]; intros j s Hff Hfree.
  - exists (trace (world s)). split; [|reflexivity].
    destruct s as [m [[d i f] e tr]]. reflexivity.
  - cbn [shift_loop shift_dir shift_events].
    unfold bind at 1. unfold get_mgr at 1. cbv beta iota.
    destruct (fileExists_ff j s Hff) as (tr1 & E1 & M1).
    rewrite (bind_run _ _ _ _ _ E1).
    destruct (st_dir s !! filePath (mgr s) j) as [i|] eqn:Hj; cbn [negb].
    + destruct (fileExists_ff (j + 1) (with_dir s (st_dir s) tr1)
                  (fault_free_with_dir _ _ _ Hff)) as (tr2 & E2 & M2).
      wd_simpl. rewrite Hfree in E2.
      rewrite (bind_run _ _ _ _ _ E2).
      destruct (os_Rename_ff (filePath (mgr s) j) (filePath (mgr s) (j + 1))
                  (with_dir s (st_dir s) tr2) i
                  (fault_free_with_dir _ _ _ Hff) Hj) as (tr3 & E3 & M3).
      wd_simpl.
      rewrite (bind_run _ _ _ _ _ E3). cbn [check]. unfold bind at 1. cbn [ret].
      destruct (IH (j - 1)
                  (with_dir s (<[filePath (mgr s) (j + 1) := i]>
                                 (delete (filePath (mgr s) j) (st_dir s))) tr3)
                  (fault_free_with_dir _ _ _ Hff)) as (tr4 & E4 & M4).
      { wd_simpl. replace (j - 1 + 1) with j by lia.
        rewrite lookup_insert_ne by (intros E; apply filePath_inj in E; lia).
        apply lookup_delete_eq. }
      wd_simpl. exists tr4. split; [exact E4|].
      rewrite M4, M3, M2, M1. now rewrite <- app_assoc.
    + destruct (IH (j - 1) (with_dir s (st_dir s) tr1) (fault_free_with_dir _ _ _ Hff))
        as (tr4 & E4 & M4).
      { wd_simpl. replace (j - 1 + 1) with j by lia. assumption. }
      wd_simpl. exists tr4. split; [exact E4|]. now rewrite M4, M1.
Qed.

(** After the shift of [n] slots downwards from [j], whose target [j+1]
    was free: the lowest shifted slot is free, every slot above it up to
    [j+1] holds what the slot below held, and nothing else changed. *)
Lemma shift_dir_lookup_slot (m : fileManager) (n : nat) (j : Z) (d : gmap string nat) (t : Z) :
  d !! filePath m (j + 1) = None ->
  shift_dir m n j d !! filePath m t =
    if decide (j - Z.of_nat n + 1 < t <= j + 1) then d !! filePath m (t - 1)
    else if decide (t = j - Z.of_nat n + 1 /\ (0 < n)%nat) then None
    else d !! filePath m t.
Proof.
  revert j d. induction n as [|n IH]; intros j d Hfree.
  - cbn. repeat case_decide; try reflexivity; lia.
  - cbn [shift_dir].
    assert (Hne : forall a b, a <> b -> filePath m a <> filePath m b)
      by (intros a b Hab E; apply filePath_inj in E; contradiction).
    destruct (d !! filePath m j) as [i|] eqn:Hj.
    + rewrite IH.
      2:{ replace (j - 1 + 1) with j by lia.
          rewrite lookup_insert_ne by (apply Hne; lia). apply lookup_delete_eq. }
      repeat case_decide; try lia; try reflexivity;
        first
          [ rewrite lookup_insert_ne by (apply Hne; lia);
            rewrite lookup_delete_ne by (apply Hne; lia); reflexivity
          | assert (t = j) as -> by lia;
            rewrite lookup_insert_ne by (apply Hne; lia);
            rewrite lookup_delete_eq; reflexivity
          | assert (t = j + 1) as -> by lia; rewrite lookup_insert_eq;
            replace (j + 1 - 1) with j by lia; now rewrite Hj ].
    + rewrite IH by (replace (j - 1 + 1) with j by lia; assumption).
      repeat case_decide; try lia; try reflexivity;
        first
          [ assert (t = j + 1) as -> by lia;
            replace (j + 1 - 1) with j by lia; now rewrite Hj, Hfree
          | assert (t = j) as -> by lia; now rewrite Hj ].
Qed.

Lemma shift_dir_lookup_other (m : fileManager) (n : nat) (j : Z) (d : gmap string nat) (q : string) :
  (forall t, q <> filePath m t) ->
  shift_dir m n j d !! q = d !! q.
Proof.
  revert j d. induction n as [|n IH]; intros j d Hq; [reflexivity|].
  cbn [shift_dir]. destruct (d !! filePath m j) as [i|].
  - rewrite IH by assumption.
    rewrite lookup_insert_ne by (intros E; apply (Hq (j + 1)); now symmetry).
    apply lookup_delete_ne. intros E; apply (Hq j); now symmetry.
  - now apply IH.
Qed.

(** ** The local steps of a rotation *)

Lemma file_Close_ff (s : State) (fd : nat) :
  fault_free (world s) -> is_Some (fds (fs (world s)) !! fd) ->
  exists tr,
    file_Close (Some fd) s =
      (Ok None,
       mkState (mgr s)
         (mkWorld (mkFS (dir (fs (world s))) (inodes (fs (world s)))
                        (delete fd (fds (fs (world s)))))
                  (env (world s)) tr))
    /\ mutations tr = st_mutations s.
Proof.
  intros Hff [i Hi]. unfold file_Close, syscall_run, bind, close_fs.
  rewrite Hff, Hi. simpl. eexists. split; reflexivity.
Qed.

Lemma os_Create_ff (p : string) (s : State) :
  fault_free (world s) ->
  exists tr,
    os_Create p s =
      (let '(fd, f') := create_fs (now (env (world s))) p (fs (world s)) in
       (Ok (Some fd, None), mkState (mgr s) (mkWorld f' (env (world s)) tr)))
    /\ mutations tr = EvSys (SysCreate p) None :: st_mutations s.
Proof.
  intros Hff. unfold os_Create, syscall_run, bind, get_world.
  cbn [world]. rewrite Hff. unfold create_fs. cbn.
  eexists. split; reflexivity.
Qed.

Lemma prune_dir_slot_keep (m : fileManager) (keep : Z) (d : gmap string nat) :
  keep < managerMaxFiles ->
  prune_dir m (Z.to_nat (managerMaxFiles - keep)) keep d !! filePath m keep = None.
Proof.
  intros Hk. rewrite prune_dir_lookup_slot. case_decide; [reflexivity|lia].
Qed.

Lemma close_block_ff (s : State) :
  fault_free (world s) -> live_ok s ->
  exists tr,
    (match current (mgr s) with
     | Some _ => bind (file_Close (current (mgr s))) (fun err => check err)
     | None => ret tt
     end) s =
      (Ok tt,
       mkState (mgr s)
         (mkWorld (close_current (mgr s) (fs (world s))) (env (world s)) tr))
    /\ mutations tr = st_mutations s.
Proof.
  intros Hff Hlive. unfold live_ok, close_current in *.
  destruct (current (mgr s)) as [fd|].
  - destruct (file_Close_ff s fd Hff Hlive) as (tr & E & Mu).
    exists tr. rewrite (bind_run _ _ _ _ _ E). split; [reflexivity|assumption].
  - exists (trace (world s)). split; [|reflexivity].
    destruct s as [m [f e tr]]. reflexivity.
Qed.

(** The same facts over states given by their components. *)
Section ByComponents.
Variables (m : fileManager) (ino : gmap nat File) (fd : gmap nat nat) (e : Env).
Hypothesis Hff : forall c, fault e c = None.

Lemma prune_loop_St (n : nat) (k : Z) (d : gmap string nat) (tr : list event) :
  exists tr',
    prune_loop n k (St m d ino fd e tr) = (Ok tt, St m (prune_dir m n k d) ino fd e tr')
    /\ mutations tr' = (prune_events m n k d ++ mutations tr)%list.
Proof. apply (prune_loop_ff n k (St m d ino fd e tr)). exact Hff. Qed.

Lemma shift_loop_St (n : nat) (j : Z) (d : gmap string nat) (tr : list event) :
  d !! filePath m (j + 1) = None ->
  exists tr',
    shift_loop n j (St m d ino fd e tr) = (Ok tt, St m (shift_dir m n j d) ino fd e tr')
    /\ mutations tr' = (shift_events m n j d ++ mutations tr)%list.
Proof. intros H. apply (shift_loop_ff n j (St m d ino fd e tr)); [exact Hff|exact H]. Qed.

Lemma os_Remove_St (p : string) (d : gmap string nat) (tr : list event) :
  exists tr' r,
    os_Remove p (St m d ino fd e tr) = (Ok r, St m (delete p d) ino fd e tr')
    /\ mutations tr' =
       (match d !! p with
        | Some _ => [EvSys (SysRemove p) None]
        | None => []
        end ++ mutations tr)%list.
Proof.
  destruct (d !! p) as [i|] eqn:Hp.
  - destruct (os_Remove_ff p (St m d ino fd e tr) i Hff Hp) as (tr' & E & Mu).
    exists tr', None. split; [exact E|exact Mu].
  - destruct (os_Remove_ff_absent p (St m d ino fd e tr) Hff Hp) as (tr' & r & E & Mu).
    exists tr', (Some r). split; [|exact Mu].
    rewrite E. unfold with_dir, St, st_dir. cbn. now rewrite delete_id.
Qed.

Lemma os_Create_St (p : string) (d : gmap string nat) (tr : list event) :
  exists tr',
    os_Create p (St m d ino fd e tr) =
      (Ok (Some (fst (create_fs (now e) p (mkFS d ino fd))), None),
       mkState m (mkWorld (snd (create_fs (now e) p (mkFS d ino fd))) e tr'))
    /\ mutations tr' = EvSys (SysCreate p) None :: mutations tr.
Proof.
  destruct (os_Create_ff p (St m d ino fd e tr) Hff) as (tr' & E & Mu).
  exists tr'. split; [|exact Mu]. rewrite E. reflexivity.
Qed.

Lemma close_block_St (d : gmap string nat) (tr : list event) :
  live_ok (St m d ino fd e tr) ->
  exists tr',
    (match current m with
     | Some _ => bind (file_Close (current m)) (fun err => check err)
     | None => ret tt
     end) (St m d ino fd e tr) =
      (Ok tt, St m d ino (fds (close_current m (mkFS d ino fd))) e tr')
    /\ mutations tr' = mutations tr.
Proof.
  intros Hlive.
  destruct (close_block_ff (St m d ino fd e tr) Hff Hlive) as (tr' & E & Mu).
  exists tr'. split; [|exact Mu]. cbn [St mgr] in E. rewrite E.
  unfold St, close_current. cbn. destruct (current m); reflexivity.
Qed.
End ByComponents.

Lemma create_fs_dir (t : Time) (p : string) (f : FS) :
  exists i, dir (snd (create_fs t p f)) = <[p := i]> (dir f).
Proof. unfold create_fs. eexists. reflexivity. Qed.

(** A rotation in a world without injected failures runs its local steps
    to the end and arrives at the upload step in the state described by
    [ring_after], having changed the directory as [ring_events] says. *)
Lemma rotate_ff (s : State) (keep : Z) :
  fault_free (world s) -> live_ok s ->
  KeepFiles (mgr s) = Some keep -> keep < managerMaxFiles ->
  exists tr,
    rotate s =
      bind (ignore_error s3Upload) (fun _ => ret tt)
        (mkState (rotated_mgr (mgr s)
                    (fst (ring_after (mgr s) keep (now (env (world s))) (fs (world s)))))
           (mkWorld (snd (ring_after (mgr s) keep (now (env (world s))) (fs (world s))))
              (env (world s)) tr))
    /\ mutations tr = (ring_events (mgr s) keep (st_dir s) ++ st_mutations s)%list.
Proof.
  destruct s as [m [[d ino fd] e tr0]]. intros Hff Hlive Hkeep Hlt.
  change (forall c, fault e c = None) in Hff.
  cbn [mgr world env fs] in *. unfold st_dir, st_mutations. cbn [world fs dir trace].
  fold (St m d ino fd e tr0) in *.
  unfold rotate. unfold bind at 1. unfold get_mgr at 1. cbv beta iota. cbn [St mgr].
  fold (St m d ino fd e tr0).
  destruct (close_block_St m ino fd e Hff d tr0 Hlive) as (tr1 & E1 & M1).
  rewrite (bind_run _ _ _ _ _ E1). clear E1.
  rewrite Hkeep. unfold bind at 1. cbn [deref ret].
  set (fd1 := fds (close_current m (mkFS d ino fd))).
  destruct (prune_loop_St m ino fd1 e Hff (Z.to_nat (managerMaxFiles - keep)) keep d tr1)
    as (tr2 & E2 & M2).
  rewrite (bind_run _ _ _ _ _ E2). clear E2.
  set (d1 := prune_dir m (Z.to_nat (managerMaxFiles - keep)) keep d) in *.
  destruct (shift_loop_St m ino fd1 e Hff (Z.to_nat keep) (keep - 1) d1 tr2)
    as (tr3 & E3 & M3).
  { replace (keep - 1 + 1) with keep by lia. subst d1. now apply prune_dir_slot_keep. }
  rewrite (bind_run _ _ _ _ _ E3). clear E3.
  set (d2 := shift_dir m (Z.to_nat keep) (keep - 1) d1) in *.
  destruct (os_Create_St m ino fd1 e Hff (filePath m 0) d2 tr3) as (tr4 & E4 & M4).
  rewrite (bind_run _ _ _ _ _ E4). clear E4.
  cbn [snd fst check]. unfold bind at 1. cbn [ret].
  unfold bind at 1. unfold modify_mgr at 1. cbn [mgr world].
  unfold bind at 1. unfold modify_mgr at 1. cbn [mgr world].
  set (cf := create_fs (now e) (filePath m 0) (mkFS d2 ino fd1)).
  destruct (create_fs_dir (now e) (filePath m 0) (mkFS d2 ino fd1)) as [i0 Hd3].
  fold cf in Hd3. cbn [dir] in Hd3.
  destruct (os_Remove_St (set_current_size 0 (set_current (Some (fst cf)) m))
              (inodes (snd cf)) (fds (snd cf)) e Hff (filePath m keep) (dir (snd cf)) tr4)
    as (tr5 & r5 & E5 & M5).
  assert (Es : mkState (set_current_size 0 (set_current (Some (fst cf)) m))
                 (mkWorld (snd cf) e tr4)
               = St (set_current_size 0 (set_current (Some (fst cf)) m))
                   (dir (snd cf)) (inodes (snd cf)) (fds (snd cf)) e tr4).
  { unfold St. destruct (snd cf). reflexivity. }
  rewrite Es. rewrite (bind_run _ _ _ _ _ E5). clear E5 Es.
  unfold bind at 1. unfold modify_mgr at 1. cbn [St mgr world].
  exists tr5. split.
  - unfold ring_after, shifted_dir. cbn [dir inodes]. fold fd1. fold d1. fold d2.
    fold cf. destruct cf as [x f3]. reflexivity.
  - rewrite M5, M4, M3, M2, M1. unfold ring_events. fold d1. fold d2.
    rewrite Hd3.
    assert (Hq : forall x y, is_Some (<[filePath m 0 := x]> d2 !! filePath m keep)
                         <-> is_Some (<[filePath m 0 := y]> d2 !! filePath m keep)).
    { intros x y. destruct (decide (filePath m 0 = filePath m keep)) as [E0|N0].
      - rewrite <- E0, !lookup_insert_eq. split; eauto.
      - now rewrite !lookup_insert_ne by assumption. }
    destruct (<[filePath m 0 := i0]> d2 !! filePath m keep) eqn:Ha;
      destruct (<[filePath m 0 := 0%nat]> d2 !! filePath m keep) eqn:Hb.
    + rewrite <- !app_assoc. reflexivity.
    + exfalso. assert (is_Some (<[filePath m 0 := 0%nat]> d2 !! filePath m keep))
        by (apply (Hq i0); rewrite Ha; eauto).
      rewrite Hb in H. destruct H; discriminate.
    + exfalso. assert (is_Some (<[filePath m 0 := i0]> d2 !! filePath m keep))
        by (apply (Hq 0%nat); rewrite Hb; eauto).
      rewrite Ha in H. destruct H; discriminate.
    + rewrite <- !app_assoc. reflexivity.
Qed.

(** ** The upload step *)

Lemma os_Open_run (p : string) (s : State) :
  exists r tr fd',
    os_Open p s =
      (Ok r, mkState (mgr s)
               (mkWorld (mkFS (dir (fs (world s))) (inodes (fs (world s))) fd')
                        (env (world s)) tr))
    /\ mutations tr = st_mutations s
    /\ match fst r with
       | Some fd => fd' = <[fd := default 0%nat (fd' !! fd)]> (fds (fs (world s)))
                    /\ fds (fs (world s)) !! fd = None
       | None => fd' = fds (fs (world s))
       end.
Proof.
  destruct s as [m [[d ino fd] e tr]].
  unfold os_Open, syscall_run, open_fs, st_mutations. cbn.
  destruct (fault e (SysOpen p)); cbn.
  - do 3 eexists. split; [reflexivity|]. split; reflexivity.
  - destruct (d !! p) as [i|]; cbn.
    + do 3 eexists. split; [reflexivity|]. split; [reflexivity|]. cbn.
      rewrite lookup_insert_eq. split; [reflexivity|].
      apply not_elem_of_dom. apply is_fresh.
    + do 3 eexists. split; [reflexivity|]. split; reflexivity.
Qed.

Lemma file_Close_run (file : option nat) (s : State) :
  exists r tr fd',
    file_Close file s =
      (Ok r, mkState (mgr s)
               (mkWorld (mkFS (dir (fs (world s))) (inodes (fs (world s))) fd')
                        (env (world s)) tr))
    /\ mutations tr = st_mutations s
    /\ (fault_free (world s) ->
        fd' = match file with
              | Some fd => delete fd (fds (fs (world s)))
              | None => fds (fs (world s))
              end).
Proof.
  destruct s as [m [[d ino fd] e tr]].
  unfold file_Close, syscall_run, close_fs, st_mutations, bind, fault_free. cbn.
  destruct file as [x|]; cbn.
  - destruct (fault e (SysClose x)) eqn:Ef; cbn.
    + do 3 eexists. split; [reflexivity|]. split; [reflexivity|].
      intros H. rewrite H in Ef. discriminate.
    + destruct (fd !! x) eqn:Ex; cbn.
      * do 3 eexists. split; [reflexivity|]. split; reflexivity.
      * do 3 eexists. split; [reflexivity|]. split; [reflexivity|].
        intros _. now rewrite delete_id.
  - do 3 eexists. split; [reflexivity|]. split; reflexivity.
Qed.

Lemma os_Open_dir p : preserves st_dir (os_Open p).
Proof. intros s. destruct (os_Open_run p s) as (r & tr & fd' & E & _). now rewrite E. Qed.
Lemma os_Open_inodes p : preserves st_inodes (os_Open p).
Proof. intros s. destruct (os_Open_run p s) as (r & tr & fd' & E & _). now rewrite E. Qed.
Lemma os_Open_mutations p : preserves st_mutations (os_Open p).
Proof.
  intros s. destruct (os_Open_run p s) as (r & tr & fd' & E & Mu & _).
  rewrite E. exact Mu.
Qed.
Lemma os_Open_env p : preserves st_env (os_Open p).
Proof. intros s. destruct (os_Open_run p s) as (r & tr & fd' & E & _). now rewrite E. Qed.

Lemma file_Close_dir f : preserves st_dir (file_Close f).
Proof. intros s. destruct (file_Close_run f s) as (r & tr & fd' & E & _). now rewrite E. Qed.
Lemma file_Close_inodes f : preserves st_inodes (file_Close f).
Proof. intros s. destruct (file_Close_run f s) as (r & tr & fd' & E & _). now rewrite E. Qed.
Lemma file_Close_mutations f : preserves st_mutations (file_Close f).
Proof.
  intros s. destruct (file_Close_run f s) as (r & tr & fd' & E & Mu & _).
  rewrite E. exact Mu.
Qed.
Lemma file_Close_env f : preserves st_env (file_Close f).
Proof. intros s. destruct (file_Close_run f s) as (r & tr & fd' & E & _). now rewrite E. Qed.

Lemma uploader_Upload_dir b k f : preserves st_dir (uploader_Upload b k f).
Proof. intros s. reflexivity. Qed.
Lemma uploader_Upload_inodes b k f : preserves st_inodes (uploader_Upload b k f).
Proof. intros s. reflexivity. Qed.
Lemma uploader_Upload_mutations b k f : preserves st_mutations (uploader_Upload b k f).
Proof. intros s. reflexivity. Qed.
Lemma uploader_Upload_env b k f : preserves st_env (uploader_Upload b k f).
Proof. intros s. reflexivity. Qed.

#[global] Hint Resolve os_Open_dir os_Open_inodes os_Open_mutations os_Open_env
  file_Close_dir file_Close_inodes file_Close_mutations file_Close_env
  uploader_Upload_dir uploader_Upload_inodes uploader_Upload_mutations
  uploader_Upload_env : frame.

Lemma s3KeyName_run (s : State) :
  s3KeyName s = (Ok (keyName (resolve_host (env (world s))) (now (env (world s)))), s).
Proof. reflexivity. Qed.

Lemma s3KeyName_preserves {X} (proj : State -> X) : preserves proj s3KeyName.
Proof. intros s. reflexivity. Qed.
#[global] Hint Resolve s3KeyName_preserves : frame.

(** The upload step reads the disk; it changes neither the directory nor
    any file. *)
Lemma s3Upload_dir : preserves st_dir s3Upload.
Proof. unfold s3Upload. auto 30 with frame. Qed.

Lemma s3Upload_inodes : preserves st_inodes s3Upload.
Proof. unfold s3Upload. auto 30 with frame. Qed.

Lemma s3Upload_mutations : preserves st_mutations s3Upload.
Proof. unfold s3Upload. auto 30 with frame. Qed.

Lemma s3Upload_env : preserves st_env s3Upload.
Proof. unfold s3Upload. auto 30 with frame. Qed.

(** The outcome of the upload step is decided by the session and by the
    store's reply alone. *)
Lemma s3Upload_outcome (s : State) :
  fst (s3Upload s) = upload_outcome (env (world s)).
Proof.
  destruct s as [m [[d ino fd] e tr]].
  unfold s3Upload, upload_outcome, store_reply, upload_key.
  unfold bind at 1. unfold get_mgr at 1. cbv beta iota.
  unfold bind at 1. unfold logp_Info at 1. cbv beta iota.
  unfold bind at 1.
  destruct (os_Open_run (last m)
              (mkState m (record (EvLog "S3 upload path: %v")
                            (mkWorld (mkFS d ino fd) e tr))))
    as (r & tr1 & fd1 & E1 & _ & _).
  cbn [mgr world fs env trace record dir inodes] in E1. cbn [mgr world record fs env trace].
  rewrite E1. clear E1.
  unfold bind at 1.
  assert (Hlog : exists tr2,
             (match snd r with
              | Some _ => logp_Info "S3 err opening file: %s\n"
              | None => ret tt
              end) (mkState m (mkWorld (mkFS d ino fd1) e tr1))
             = (Ok tt, mkState m (mkWorld (mkFS d ino fd1) e tr2))).
  { destruct (snd r); eexists; reflexivity. }
  destruct Hlog as [tr2 ->].
  unfold with_defer. unfold bind at 1. unfold get_world at 1. cbv beta iota.
  cbn [world env].
  destruct (session_NewSession e) as [err|].
  - reflexivity.
  - unfold bind at 1. rewrite s3KeyName_run. cbn [world env].
    unfold bind at 1. unfold uploader_Upload at 1. cbn [world env mgr].
    destruct (s3_Upload e _) as [[out|] uerr]; destruct uerr; reflexivity.
Qed.

(** In a world without injected failures the upload step leaves the whole
    file system as it was: the descriptor it opens is closed again. *)
Lemma s3Upload_fs_ff (s : State) :
  fault_free (world s) -> fs (world (snd (s3Upload s))) = fs (world s).
Proof.
  intros Hff.
  destruct s as [m [[d ino fd] e tr]].
  unfold s3Upload.
  unfold bind at 1. unfold get_mgr at 1. cbv beta iota.
  unfold bind at 1. unfold logp_Info at 1. cbv beta iota.
  unfold bind at 1.
  destruct (os_Open_run (last m)
              (mkState m (record (EvLog "S3 upload path: %v")
                            (mkWorld (mkFS d ino fd) e tr))))
    as (r & tr1 & fd1 & E1 & _ & Hfd1).
  cbn [mgr world fs env trace record dir inodes fds] in E1, Hfd1.
  cbn [mgr world record fs env trace].
  rewrite E1. clear E1.
  unfold bind at 1.
  assert (Hlog : exists tr2,
             (match snd r with
              | Some _ => logp_Info "S3 err opening file: %s\n"
              | None => ret tt
              end) (mkState m (mkWorld (mkFS d ino fd1) e tr1))
             = (Ok tt, mkState m (mkWorld (mkFS d ino fd1) e tr2))).
  { destruct (snd r); eexists; reflexivity. }
  destruct Hlog as [tr2 ->].
  unfold with_defer.
  set (body := bind get_world _).
  assert (Hbody : fs (world (snd (body (mkState m (mkWorld (mkFS d ino fd1) e tr2)))))
                  = mkFS d ino fd1).
  { assert (preserves (fun s => fs (world s)) body) as Hp; [|apply Hp].
    subst body. apply preserves_bind; [auto with frame|]. intros w.
    destruct (session_NewSession (env w)).
    - apply preserves_bind; [intros ?; reflexivity|]. auto with frame.
    - apply preserves_bind; [auto with frame|]. intros k.
      apply preserves_bind; [intros ?; reflexivity|]. intros res.
      apply preserves_bind; [destruct (snd res); intros ?; reflexivity|]. intros _.
      apply preserves_bind; [auto with frame|]. intros _.
      apply preserves_bind; [intros ?; reflexivity|]. intros _. auto with frame. }
  assert (Hbenv : env (world (snd (body (mkState m (mkWorld (mkFS d ino fd1) e tr2))))) = e).
  { assert (preserves st_env body) as Hp; [|apply Hp].
    subst body. apply preserves_bind; [auto with frame|]. intros w.
    destruct (session_NewSession (env w)); auto 30 with frame. }
  destruct (body _) as [rb sb]. cbn [snd fst] in *.
  unfold bind.
  destruct (file_Close_run (fst r) sb) as (rc & tr3 & fd3 & E3 & _ & Hfd3).
  rewrite E3. cbn [snd ret world fs].
  rewrite Hbody in *. cbn [dir inodes fds] in *.
  rewrite Hfd3 by (intros c; rewrite Hbenv; apply Hff).
  f_equal.
  destruct (fst r) as [x|].
  - destruct Hfd1 as [-> Hx]. now apply delete_insert_id.
  - assumption.
Qed.

Lemma upload_call_run (s : State) :
  bind (ignore_error s3Upload) (fun _ => ret tt) s =
    (match upload_outcome (env (world s)) with
     | Panic => Panic
     | _ => Ok tt
     end, snd (s3Upload s)).
Proof.
  rewrite <- s3Upload_outcome. unfold bind, ignore_error, ret.
  destruct (s3Upload s) as [[[]|err|] s']; reflexivity.
Qed.

(** ** A whole rotation, when the environment injects no failure *)

Lemma rotate_ff_result (s : State) (keep : Z) :
  fault_free (world s) -> live_ok s ->
  KeepFiles (mgr s) = Some keep -> keep < managerMaxFiles ->
  let ring := ring_after (mgr s) keep (now (env (world s))) (fs (world s)) in
  fst (rotate s) = match upload_outcome (env (world s)) with
                   | Panic => Panic
                   | _ => Ok tt
                   end
  /\ mgr (snd (rotate s)) = rotated_mgr (mgr s) (fst ring)
  /\ fs (world (snd (rotate s))) = snd ring
  /\ env (world (snd (rotate s))) = env (world s)
  /\ st_mutations (snd (rotate s))
     = (ring_events (mgr s) keep (st_dir s) ++ st_mutations s)%list.
Proof.
  intros Hff Hlive Hkeep Hlt ring.
  destruct (rotate_ff s keep Hff Hlive Hkeep Hlt) as (tr & E & Mu).
  fold ring in E. rewrite E, upload_call_run. cbn [fst snd world env].
  set (s' := mkState _ _).
  split; [reflexivity|].
  split; [apply (s3Upload_mgr s')|].
  split; [apply (s3Upload_fs_ff s'); intros c; apply Hff|].
  split; [apply (s3Upload_env s')|].
  rewrite (s3Upload_mutations s'). exact Mu.
Qed.

Lemma filePath_ne (m : fileManager) (a b : Z) : a <> b -> filePath m a <> filePath m b.
Proof. intros Hab E. apply filePath_inj in E. contradiction. Qed.

(** The directory after the local steps of a rotation, slot by slot: the
    live slot has a new file, every kept slot has what the slot below had,
    the slots from the retention count up to the bound are free, and no
    other slot changed. *)
Lemma ring_after_lookup (m : fileManager) (keep : Z) (t : Time) (f : FS) (n : Z) :
  0 < keep < managerMaxFiles ->
  dir (snd (ring_after m keep t f)) !! filePath m n =
    if decide (n = 0) then Some (fresh (dom (inodes f)))
    else if decide (1 <= n < keep) then dir f !! filePath m (n - 1)
    else if decide (keep <= n < managerMaxFiles) then None
    else dir f !! filePath m n.
Proof.
  intros Hk. unfold ring_after, create_fs, shifted_dir. cbn [snd dir].
  set (d1 := prune_dir m (Z.to_nat (managerMaxFiles - keep)) keep (dir f)).
  assert (Hfree : d1 !! filePath m (keep - 1 + 1) = None).
  { replace (keep - 1 + 1) with keep by lia. apply prune_dir_slot_keep. lia. }
  assert (H0 : shift_dir m (Z.to_nat keep) (keep - 1) d1 !! filePath m 0 = None).
  { rewrite shift_dir_lookup_slot by exact Hfree.
    repeat case_decide; try reflexivity; lia. }
  rewrite H0.
  destruct (decide (n = keep)) as [->|Hnk].
  { rewrite lookup_delete_eq. repeat case_decide; try reflexivity; lia. }
  rewrite lookup_delete_ne by (apply filePath_ne; lia).
  destruct (decide (n = 0)) as [->|Hn0].
  { now rewrite lookup_insert_eq. }
  rewrite lookup_insert_ne by (apply filePath_ne; lia).
  rewrite shift_dir_lookup_slot by exact Hfree.
  subst d1. rewrite !prune_dir_lookup_slot.
  unfold managerMaxFiles in *.
  repeat case_decide; try reflexivity; lia.
Qed.

Lemma ring_after_lookup_other (m : fileManager) (keep : Z) (t : Time) (f : FS) (q : string) :
  (forall n, q <> filePath m n) ->
  dir (snd (ring_after m keep t f)) !! q = dir f !! q.
Proof.
  intros Hq. unfold ring_after, create_fs, shifted_dir. cbn [snd dir].
  rewrite lookup_delete_ne by (intros E; apply (Hq keep); now symmetry).
  rewrite lookup_insert_ne by (intros E; apply (Hq 0); now symmetry).
  rewrite shift_dir_lookup_other by assumption.
  apply prune_dir_lookup_other. intros j _. apply Hq.
Qed.

Lemma prune_events_S (m : fileManager) (n : nat) (k : Z) (d : gmap string nat) :
  prune_events m (S n) k d =
    (prune_events m n (k + 1) (delete (filePath m k) d)
     ++ match d !! filePath m k with
        | Some _ => [EvSys (SysRemove (filePath m k)) None]
        | None => []
        end)%list.
Proof. reflexivity. Qed.

Lemma shift_events_S (m : fileManager) (n : nat) (j : Z) (d : gmap string nat) :
  shift_events m (S n) j d =
    match d !! filePath m j with
    | None => shift_events m n (j - 1) d
    | Some i =>
      (shift_events m n (j - 1)
         (<[filePath m (j + 1) := i]> (delete (filePath m j) d))
       ++ [EvSys (SysRename (filePath m j) (filePath m (j + 1))) None])%list
    end.
Proof. reflexivity. Qed.

(** ** The configuration check *)

(** A configuration that passes the check has its three thresholds set,
    and keeps at least 2 and fewer than [managerMaxFiles] files: the range
    the statements on rotations below ask for. *)
Lemma checkIfConfigSane_Ok (s s' : State) :
  checkIfConfigSane s = (Ok tt, s') ->
  exists keep everyBytes everySeconds,
    KeepFiles (mgr s') = Some keep /\ 2 <= keep < managerMaxFiles
    /\ UploadEveryBytes (mgr s') = Some everyBytes
    /\ UploadEverySeconds (mgr s') = Some everySeconds
    /\ world s' = world s.
Proof.
  unfold checkIfConfigSane. unfold bind at 1. unfold get_mgr at 1. cbv beta iota.
  destruct (String.length (Name (mgr s)) =? 0)%nat; [discriminate|].
  destruct (String.length (Bucket (mgr s)) =? 0)%nat; [discriminate|].
  unfold bind, put_mgr. cbv beta iota.
  destruct (Z.ltb_spec (default defaultKeepFiles (KeepFiles (mgr s))) 2) as [|Hlo];
    [discriminate|].
  destruct (Z.leb_spec managerMaxFiles (default defaultKeepFiles (KeepFiles (mgr s))))
    as [|Hhi]; [discriminate|].
  cbn [orb ret]. intros H. injection H as <-. cbn [mgr world KeepFiles
    UploadEveryBytes UploadEverySeconds].
  do 3 eexists. repeat split; try reflexivity; assumption.
Qed.

(** ** C1: a rotation with three kept files over five generations *)

(** C1 (as amended). With KeepFiles = 3, on a directory whose generation
    files are exactly those of slots 0 to 4 and in a run where no system
    call fails, rotate removes slots 3 and 4 while pruning, renames slot 2
    to 3, slot 1 to 2 and slot 0 to 1, creates the new file of slot 0 and
    then removes slot 3 again (the file just shifted into it); afterwards
    the generation files are exactly those of slots 0, 1 and 2. *)
Theorem rotate_keep3_five_slots (s : State) :
  fault_free (world s) -> live_ok s -> KeepFiles (mgr s) = Some 3 ->
  (forall n, slot_occupied (mgr s) (world s) n <-> 0 <= n <= 4) ->
  let p := filePath (mgr s) in
  let s' := snd (rotate s) in
  st_mutations s' =
    ([EvSys (SysRemove (p 3)) None;
      EvSys (SysCreate (p 0)) None;
      EvSys (SysRename (p 0) (p 1)) None;
      EvSys (SysRename (p 1) (p 2)) None;
      EvSys (SysRename (p 2) (p 3)) None;
      EvSys (SysRemove (p 4)) None;
      EvSys (SysRemove (p 3)) None] ++ st_mutations s)%list
  /\ (forall n, slot_occupied (mgr s) (world s') n <-> 0 <= n <= 2).
Proof.
  intros Hff Hlive Hkeep Hocc p s'.
  destruct (rotate_ff_result s 3 Hff Hlive Hkeep ltac:(reflexivity))
    as (_ & _ & Hfs & _ & Hmu).
  fold s' in Hfs, Hmu. unfold slot_occupied in *. fold p in Hocc.
  set (m := mgr s) in *. set (d := dir (fs (world s))) in *.
  assert (Hnone : forall n, ~ 0 <= n <= 4 -> d !! p n = None).
  { intros n Hn. destruct (d !! p n) eqn:E; [|reflexivity].
    exfalso. apply Hn, Hocc. rewrite E. eauto. }
  destruct (proj2 (Hocc 0) ltac:(lia)) as [i0 H0].
  destruct (proj2 (Hocc 1) ltac:(lia)) as [i1 H1].
  destruct (proj2 (Hocc 2) ltac:(lia)) as [i2 H2].
  destruct (proj2 (Hocc 3) ltac:(lia)) as [i3 H3].
  destruct (proj2 (Hocc 4) ltac:(lia)) as [i4 H4].
  assert (Hne : forall a b, a <> b -> p a <> p b) by (intros; now apply filePath_ne).
  split.
  - rewrite Hmu. f_equal. unfold ring_events, st_dir. fold m d p.
    change (Z.to_nat 3) with 3%nat.
    change (Z.to_nat (managerMaxFiles - 3)) with (S (S 1019)).
    change (3 - 1) with 2.
    set (d1 := prune_dir m (S (S 1019)) 3 d).
    assert (Hd1 : forall j, j < 3 -> d1 !! p j = d !! p j).
    { intros j Hj. subst d1 p. rewrite prune_dir_lookup_slot. case_decide; [lia|reflexivity]. }
    (* the prune loop removes slots 3 and 4 *)
    assert (Hprune : prune_events m (S (S 1019)) 3 d
                     = [EvSys (SysRemove (p 4)) None; EvSys (SysRemove (p 3)) None]).
    { do 2 rewrite prune_events_S. change (3 + 1) with 4. change (4 + 1) with 5.
      fold p. rewrite H3. rewrite lookup_delete_ne by (apply Hne; lia). rewrite H4.
      rewrite prune_events_none; [reflexivity|].
      intros j Hj. fold p.
      rewrite !lookup_delete_ne by (apply Hne; lia). apply Hnone. lia. }
    rewrite Hprune.
    (* the shift loop renames 2, 1, 0 *)
    assert (Hshift : shift_events m 3 2 d1
                     = [EvSys (SysRename (p 0) (p 1)) None;
                        EvSys (SysRename (p 1) (p 2)) None;
                        EvSys (SysRename (p 2) (p 3)) None]).
    { rewrite shift_events_S. fold p. rewrite (Hd1 2), H2 by lia.
      change (2 + 1) with 3. change (2 - 1) with 1.
      rewrite shift_events_S. fold p.
      rewrite lookup_insert_ne, lookup_delete_ne, (Hd1 1), H1 by (try apply Hne; lia).
      change (1 + 1) with 2. change (1 - 1) with 0.
      rewrite shift_events_S. fold p.
      rewrite lookup_insert_ne, lookup_delete_ne by (apply Hne; lia).
      rewrite lookup_insert_ne, lookup_delete_ne, (Hd1 0), H0 by (try apply Hne; lia).
      reflexivity. }
    rewrite Hshift.
    (* the cleanup removes what was shifted into slot 3 *)
    assert (Hlast : <[p 0 := 0%nat]> (shift_dir m 3 2 d1) !! p 3 = Some i2).
    { rewrite lookup_insert_ne by (apply Hne; lia). subst p.
      rewrite shift_dir_lookup_slot.
      - repeat case_decide; try lia. change (3 - 1) with 2. now rewrite (Hd1 2), H2 by lia.
      - change (2 + 1) with 3. subst d1. rewrite prune_dir_lookup_slot.
        case_decide; [reflexivity|lia]. }
    rewrite Hlast. reflexivity.
  - intros n. rewrite Hfs. subst p m.
    rewrite ring_after_lookup by (unfold managerMaxFiles; lia).
    unfold managerMaxFiles. fold d.
    repeat case_decide.
    + split; [lia|eauto].
    + rewrite Hocc. lia.
    + split; [intros [x Hx]; discriminate|lia].
    + rewrite Hocc. lia.
Qed.

Lemma ex_state5_fault_free : fault_free (world ex_state5).
Proof. intros c. reflexivity. Qed.

Lemma ex_state5_live_ok : live_ok ex_state5.
Proof. unfold live_ok. cbn. rewrite lookup_singleton_eq. eauto. Qed.

Lemma ex_state5_slots (n : Z) : slot_occupied (mgr ex_state5) (world ex_state5) n <-> 0 <= n <= 4.
Proof.
  unfold slot_occupied. cbn [ex_state5 mgr world fs dir]. unfold ex_dir5.
  destruct (decide (n = 0)) as [->|N0]; [rewrite lookup_insert_eq; split; [lia|eauto]|].
  rewrite lookup_insert_ne by (apply filePath_ne; lia).
  destruct (decide (n = 1)) as [->|N1]; [rewrite lookup_insert_eq; split; [lia|eauto]|].
  rewrite lookup_insert_ne by (apply filePath_ne; lia).
  destruct (decide (n = 2)) as [->|N2]; [rewrite lookup_insert_eq; split; [lia|eauto]|].
  rewrite lookup_insert_ne by (apply filePath_ne; lia).
  destruct (decide (n = 3)) as [->|N3]; [rewrite lookup_insert_eq; split; [lia|eauto]|].
  rewrite lookup_insert_ne by (apply filePath_ne; lia).
  destruct (decide (n = 4)) as [->|N4]; [rewrite lookup_insert_eq; split; [lia|eauto]|].
  rewrite lookup_insert_ne by (apply filePath_ne; lia).
  rewrite lookup_empty. split; [intros [x Hx]; discriminate|lia].
Qed.

Lemma rotate_keep3_five_slots_witness :
  st_mutations (snd (rotate ex_state5)) =
    ([EvSys (SysRemove (filePath ex_manager 3)) None;
      EvSys (SysCreate (filePath ex_manager 0)) None;
      EvSys (SysRename (filePath ex_manager 0) (filePath ex_manager 1)) None;
      EvSys (SysRename (filePath ex_manager 1) (filePath ex_manager 2)) None;
      EvSys (SysRename (filePath ex_manager 2) (filePath ex_manager 3)) None;
      EvSys (SysRemove (filePath ex_manager 4)) None;
      EvSys (SysRemove (filePath ex_manager 3)) None] ++ st_mutations ex_state5)%list
  /\ (forall n, slot_occupied ex_manager (world (snd (rotate ex_state5))) n <-> 0 <= n <= 2).
Proof.
  exact (rotate_keep3_five_slots ex_state5 ex_state5_fault_free ex_state5_live_ok
           eq_refl ex_state5_slots).
Defined.

(** At the five-generation input the rotation returns normally and slot 3
    is free afterwards, so the final state is not "slots 0 to 3". *)
Lemma rotate_keep3_slot3_free :
  KeepFiles (mgr ex_state5) = Some 3
  /\ (forall n, slot_occupied (mgr ex_state5) (world ex_state5) n <-> 0 <= n <= 4)
  /\ fst (rotate ex_state5) = Ok tt
  /\ ~ final_slots_0_to_3 ex_state5.
Proof.
  split; [reflexivity|]. split; [exact ex_state5_slots|].
  split; [vm_compute; reflexivity|].
  intros H. destruct (proj2 (H 3) ltac:(lia)) as [x Hx].
  vm_compute in Hx. discriminate.
Qed.

(** ** C2: the time check when slot 1 is missing *)

Lemma os_Lstat_absent (p : string) (s : State) :
  dir (fs (world s)) !! p = None ->
  exists e,
    os_Lstat p s =
      (Ok (None, Some (OsError e)),
       mkState (mgr s) (record (EvSys (SysLstat p) (Some e)) (world s))).
Proof.
  intros Hp. unfold os_Lstat, syscall_run, stat_fs. rewrite Hp.
  destruct (fault _ _) as [e|]; eexists; reflexivity.
Qed.

(** C2 (what the code does at the inputs of the claim). With a live file
    open, the size below its threshold and a positive time threshold, when
    no file is at slot 1 shouldRotate logs that it could not stat and then
    asks the missing FileInfo for its modification time: it panics instead
    of skipping the time check and answering false. Nothing but the trace
    is changed. *)
Theorem shouldRotate_panics_without_slot1 (s : State) (fd : nat) (everyBytes everySeconds : Z) :
  current (mgr s) = Some fd ->
  UploadEveryBytes (mgr s) = Some everyBytes -> current_size (mgr s) < everyBytes ->
  UploadEverySeconds (mgr s) = Some everySeconds -> 0 < everySeconds ->
  ~ slot_occupied (mgr s) (world s) 1 ->
  fst (shouldRotate s) = Panic
  /\ mgr (snd (shouldRotate s)) = mgr s
  /\ fs (world (snd (shouldRotate s))) = fs (world s).
Proof.
  intros Hcur Hb Hsz Hs Hpos Hfree.
  assert (Hp : dir (fs (world s)) !! filePath (mgr s) 1 = None).
  { destruct (dir (fs (world s)) !! filePath (mgr s) 1) eqn:E; [|reflexivity].
    exfalso. apply Hfree. unfold slot_occupied. rewrite E. eauto. }
  destruct (os_Lstat_absent _ s Hp) as [e E].
  assert (Hrun : shouldRotate s =
                 (Panic,
                  mkState (mgr s)
                    (record (EvLog "S3 could not stat: $s\n")
                       (record (EvSys (SysLstat (filePath (mgr s) 1)) (Some e))
                          (world s))))).
  { unfold shouldRotate. unfold bind at 1. unfold get_mgr at 1. cbv beta iota.
    rewrite Hcur, Hb. unfold bind at 1. cbn [deref ret].
    destruct (Z.leb_spec everyBytes (current_size (mgr s))); [lia|].
    rewrite Hs. unfold bind at 1. cbn [deref ret].
    destruct (Z.ltb_spec 0 everySeconds); [|lia].
    rewrite (bind_run _ _ _ _ _ E). cbn [fst snd].
    reflexivity. }
  rewrite Hrun. auto.
Qed.

Lemma shouldRotate_panics_without_slot1_witness :
  fst (shouldRotate ex_state_timed) = Panic
  /\ mgr (snd (shouldRotate ex_state_timed)) = mgr ex_state_timed
  /\ fs (world (snd (shouldRotate ex_state_timed))) = fs (world ex_state_timed).
Proof.
  apply (shouldRotate_panics_without_slot1 ex_state_timed 0%nat 100 60);
    try reflexivity; try lia.
  intros [x Hx]. vm_compute in Hx. discriminate.
Defined.

(** ** C9: the existence probe *)



(** ** The trace only grows *)

Lemma extends_bind {A B} (c : M A) (k : A -> M B) :
  extends c -> (forall a, extends (k a)) -> extends (bind c k).
Proof.
  intros Hc Hk s. unfold bind. destruct (Hc s) as [l Hl].
  destruct (c s) as [[a|e|] s1]; cbn [snd] in *; try (exists l; assumption).
  destruct (Hk a s1) as [l' Hl']. exists (l' ++ l)%list.
  now rewrite Hl', Hl, app_assoc.
Qed.

Lemma extends_pure {A} (c : M A) : (forall s, snd (c s) = s) -> extends c.
Proof. intros H s. exists []. now rewrite H. Qed.

Lemma extends_ret {A} (a : A) : extends (ret a).
Proof. now apply extends_pure. Qed.
Lemma extends_fail {A} e : extends (@fail A e).
Proof. now apply extends_pure. Qed.
Lemma extends_panic {A} : extends (@panic A).
Proof. now apply extends_pure. Qed.
Lemma extends_deref {A} (p : option A) : extends (deref p).
Proof. destruct p; now apply extends_pure. Qed.
Lemma extends_check err : extends (check err).
Proof. destruct err; now apply extends_pure. Qed.
Lemma extends_get_mgr : extends get_mgr.
Proof. now apply extends_pure. Qed.
Lemma extends_get_world : extends get_world.
Proof. now apply extends_pure. Qed.
Lemma extends_time_Now : extends time_Now.
Proof. now apply extends_pure. Qed.
Lemma extends_s3KeyName : extends s3KeyName.
Proof. now apply extends_pure. Qed.
Lemma extends_modify_mgr f : extends (modify_mgr f).
Proof. intros s. exists []. reflexivity. Qed.
Lemma extends_logp_Info fmt : extends (logp_Info fmt).
Proof. intros s. exists [EvLog fmt]. reflexivity. Qed.

Lemma syscall_run_trace {A} c (eff : FS -> errno + (A * FS)) (s : State) :
  exists r, trace (world (snd (syscall_run c eff s))) = EvSys c r :: trace (world s).
Proof.
  unfold syscall_run. destruct (fault _ c); [eexists; reflexivity|].
  destruct (eff _) as [e|[a f']]; eexists; reflexivity.
Qed.

Lemma extends_syscall_run {A} c (eff : FS -> errno + (A * FS)) : extends (syscall_run c eff).
Proof. intros s. destruct (syscall_run_trace c eff s) as [r H]. exists [EvSys c r]. exact H. Qed.

Lemma extends_uploader_Upload b k f : extends (uploader_Upload b k f).
Proof. intros s. eexists [_]. reflexivity. Qed.

Lemma extends_ignore_error {A} (c : M A) : extends c -> extends (ignore_error c).
Proof.
  intros Hc s. unfold ignore_error. destruct (Hc s) as [l Hl].
  destruct (c s) as [[a|e|] s1]; exists l; exact Hl.
Qed.

Lemma extends_with_defer {A} (d : M unit) (c : M A) :
  extends d -> extends c -> extends (with_defer d c).
Proof.
  intros Hd Hc s. unfold with_defer. destruct (Hc s) as [l Hl].
  destruct (c s) as [r s1]. cbn [snd] in *. destruct (Hd s1) as [l' Hl'].
  exists (l' ++ l)%list. now rewrite Hl', Hl, app_assoc.
Qed.

Lemma extends_if {A} (b : bool) (c1 c2 : M A) :
  extends c1 -> extends c2 -> extends (if b then c1 else c2).
Proof. destruct b; auto. Qed.

Create HintDb trace discriminated.
#[global] Hint Resolve extends_ret extends_fail extends_panic extends_deref
  extends_check extends_get_mgr extends_get_world extends_time_Now
  extends_s3KeyName extends_modify_mgr extends_logp_Info extends_syscall_run
  extends_uploader_Upload extends_ignore_error extends_with_defer extends_if : trace.
#[global] Hint Extern 2 (extends (bind _ _)) =>
  apply extends_bind; [ | intros ? ] : trace.
#[global] Hint Extern 3 (extends (match ?x with _ => _ end)) => destruct x : trace.

Ltac trace_os := unfold os_Stat, os_Lstat, os_Remove, os_Rename, os_Create, os_Open,
  file_Close, file_Write; auto 20 with trace.

Lemma extends_os_Stat p : extends (os_Stat p).
Proof. trace_os. Qed.
Lemma extends_os_Lstat p : extends (os_Lstat p).
Proof. trace_os. Qed.
Lemma extends_os_Remove p : extends (os_Remove p).
Proof. trace_os. Qed.
Lemma extends_os_Rename a b : extends (os_Rename a b).
Proof. trace_os. Qed.
Lemma extends_os_Create p : extends (os_Create p).
Proof. trace_os. Qed.
Lemma extends_os_Open p : extends (os_Open p).
Proof. trace_os. Qed.
Lemma extends_file_Close f : extends (file_Close f).
Proof. trace_os. Qed.
Lemma extends_file_Write f d : extends (file_Write f d).
Proof. trace_os. Qed.
#[global] Hint Resolve extends_os_Stat extends_os_Lstat extends_os_Remove
  extends_os_Rename extends_os_Create extends_os_Open extends_file_Close
  extends_file_Write : trace.

Lemma extends_fileExists n : extends (fileExists n).
Proof. unfold fileExists. auto 20 with trace. Qed.
#[global] Hint Resolve extends_fileExists : trace.

Lemma extends_prune_loop n k : extends (prune_loop n k).
Proof. revert k. induction n as [|n IH]; intros k; simpl; auto 20 with trace. Qed.

Lemma extends_shift_loop n k : extends (shift_loop n k).
Proof. revert k. induction n as [|n IH]; intros k; simpl; auto 20 with trace. Qed.
#[global] Hint Resolve extends_prune_loop extends_shift_loop : trace.

Lemma extends_s3Upload : extends s3Upload.
Proof. unfold s3Upload. auto 30 with trace. Qed.
#[global] Hint Resolve extends_s3Upload : trace.

(** The upload step opens the path recorded as "last", whatever is there. *)
Lemma s3Upload_opens (s : State) :
  exists l r,
    trace (world (snd (s3Upload s))) =
      (l ++ EvSys (SysOpen (last (mgr s))) r
         :: EvLog "S3 upload path: %v" :: trace (world s))%list.
Proof.
  unfold s3Upload. unfold bind at 1. unfold get_mgr at 1. cbv beta iota.
  unfold bind at 1. unfold logp_Info at 1. cbv beta iota.
  set (s0 := mkState _ _).
  unfold bind at 1.
  destruct (syscall_run_trace (SysOpen (last (mgr s))) (open_fs (last (mgr s))) s0)
    as [r Hr].
  unfold os_Open. destruct (syscall_run _ _ s0) as [[x|e|] s1] eqn:E;
    cbn [snd] in Hr.
  - match goal with |- context [bind ?c ?k s1] =>
      assert (Hx : extends (bind c k)) by auto 30 with trace end.
    destruct (Hx s1) as [l Hl]. exists l, r. rewrite Hl, Hr. reflexivity.
  - exists [], r. exact Hr.
  - exists [], r. exact Hr.
Qed.

(** With a session, the upload step has asked the store, and has its
    reply, by the time it is over. *)
Lemma s3Upload_uploads (s : State) :
  session_NewSession (env (world s)) = None ->
  exists l l' src,
    trace (world (snd (s3Upload s))) =
      (l ++ EvUpload (Bucket (mgr s)) (upload_key (env (world s))) src
              (snd (store_reply (env (world s))))
         :: l' ++ trace (world s))%list.
Proof.
  intros Hsess.
  destruct s as [m [[d ino fd] e tr]]. cbn [mgr world env trace] in *.
  unfold s3Upload.
  unfold bind at 1. unfold get_mgr at 1. cbv beta iota.
  unfold bind at 1. unfold logp_Info at 1. cbv beta iota.
  unfold bind at 1.
  destruct (os_Open_run (last m)
              (mkState m (record (EvLog "S3 upload path: %v")
                            (mkWorld (mkFS d ino fd) e tr))))
    as (r & tr1 & fd1 & E1 & _ & _).
  pose proof (extends_os_Open (last m)
                (mkState m (record (EvLog "S3 upload path: %v")
                              (mkWorld (mkFS d ino fd) e tr)))) as [l1 Hl1].
  cbn [mgr world fs env trace record dir inodes] in E1, Hl1.
  cbn [mgr world record fs env trace].
  rewrite E1 in *. clear E1. cbn [snd world trace] in Hl1.
  unfold bind at 1.
  assert (Hlog : exists tr2 l2,
             (match snd r with
              | Some _ => logp_Info "S3 err opening file: %s\n"
              | None => ret tt
              end) (mkState m (mkWorld (mkFS d ino fd1) e tr1))
             = (Ok tt, mkState m (mkWorld (mkFS d ino fd1) e tr2))
             /\ tr2 = (l2 ++ tr1)%list).
  { destruct (snd r);
      [exists (EvLog "S3 err opening file: %s\n" :: tr1),
              [EvLog "S3 err opening file: %s\n"]
      |exists tr1, []]; split; reflexivity. }
  destruct Hlog as (tr2 & l2 & -> & Htr2).
  unfold with_defer.
  unfold bind at 1. unfold get_world at 1. cbv beta iota. cbn [world env].
  rewrite Hsess.
  unfold bind at 1. rewrite s3KeyName_run. cbn [world env].
  unfold bind at 1. unfold uploader_Upload at 1. cbn [world env mgr fs fds].
  fold (upload_key e). fold (store_reply e).
  set (s2 := mkState m (record _ _)).
  match goal with |- context [bind ?c ?k s2] =>
    assert (Hx : extends (bind c k)) by auto 30 with trace;
    destruct (Hx s2) as [l3 Hl3]; destruct (bind c k s2) as [rb sb] end.
  cbn [snd] in *.
  destruct (extends_bind (file_Close (fst r)) (fun _ => ret tt)
              (extends_file_Close _) (fun _ => extends_ret _) sb) as [l4 Hl4].
  rewrite Hl4, Hl3. subst s2. cbn [world record trace].
  exists (l4 ++ l3)%list, (l2 ++ l1 ++ [EvLog "S3 upload path: %v"])%list.
  eexists. rewrite Htr2, Hl1. rewrite <- !app_assoc. reflexivity.
Qed.

(** *** No function of the manager changes the environment *)

Lemma os_Stat_env p : preserves st_env (os_Stat p).
Proof. frame_os. Qed.
Lemma os_Lstat_env p : preserves st_env (os_Lstat p).
Proof. frame_os. Qed.
Lemma os_Remove_env p : preserves st_env (os_Remove p).
Proof. frame_os. Qed.
Lemma os_Rename_env a b : preserves st_env (os_Rename a b).
Proof. frame_os. Qed.
Lemma os_Create_env p : preserves st_env (os_Create p).
Proof. frame_os. Qed.
Lemma file_Write_env f d : preserves st_env (file_Write f d).
Proof. frame_os. Qed.
#[global] Hint Resolve os_Stat_env os_Lstat_env os_Remove_env os_Rename_env
  os_Create_env file_Write_env : frame.

Lemma fileExists_env n : preserves st_env (fileExists n).
Proof. unfold fileExists. auto 20 with frame. Qed.
#[global] Hint Resolve fileExists_env : frame.

Lemma prune_loop_env n k : preserves st_env (prune_loop n k).
Proof. revert k. induction n as [|n IH]; intros k; simpl; auto 20 with frame. Qed.

Lemma shift_loop_env n k : preserves st_env (shift_loop n k).
Proof. revert k. induction n as [|n IH]; intros k; simpl; auto 20 with frame. Qed.
#[global] Hint Resolve prune_loop_env shift_loop_env s3Upload_env : frame.

Lemma shouldRotate_mgr : preserves st_mgr shouldRotate.
Proof. unfold shouldRotate. auto 40 with frame. Qed.

(** ** What a rotation that returns normally has done *)

Tactic Notation "bind_inv" hyp(H) "as" ident(a) ident(s) ident(E) :=
  apply bind_Ok_inv in H; destruct H as (a & s & E & H).

Lemma check_Ok_inv (err : option error) (u : unit) (s s' : State) :
  check err s = (Ok u, s') -> err = None /\ s' = s.
Proof. destruct u, err; cbn; intros H; [discriminate|]. injection H as <-. auto. Qed.

Lemma deref_Ok_inv {A} (p : option A) (a : A) (s s' : State) :
  deref p s = (Ok a, s') -> p = Some a /\ s' = s.
Proof. destruct p; cbn; intros H; [|discriminate]. injection H as <- <-. auto. Qed.

Lemma ignore_error_Ok_inv {A} (c : M A) (u : unit) (s s' : State) :
  ignore_error c s = (Ok u, s') -> fst (c s) <> Panic /\ snd (c s) = s'.
Proof.
  unfold ignore_error. destruct u, (c s) as [[a|e|] s1]; intros H;
    try discriminate; injection H as <-; split; try reflexivity; discriminate.
Qed.

Lemma close_block_mgr (m : fileManager) :
  preserves st_mgr
    (match current m with
     | Some _ => bind (file_Close (current m)) (fun err => check err)
     | None => ret tt
     end).
Proof. destruct (current m); auto 20 with frame. Qed.

Lemma close_block_extends (m : fileManager) :
  extends
    (match current m with
     | Some _ => bind (file_Close (current m)) (fun err => check err)
     | None => ret tt
     end).
Proof. destruct (current m); auto 20 with trace. Qed.

Lemma close_block_env (m : fileManager) :
  preserves st_env
    (match current m with
     | Some _ => bind (file_Close (current m)) (fun err => check err)
     | None => ret tt
     end).
Proof. destruct (current m); auto 20 with frame. Qed.

Lemma rotate_Ok_inv (s s' : State) :
  rotate s = (Ok tt, s') ->
  exists keep s3 s4 fdo s6 ro l,
    KeepFiles (mgr s) = Some keep
    /\ mgr s3 = mgr s
    /\ env (world s3) = env (world s)
    /\ trace (world s3) = (l ++ trace (world s))%list
    /\ os_Create (filePath (mgr s) 0) s3 = (Ok (fdo, None), s4)
    /\ os_Remove (filePath (mgr s) keep)
         (mkState (set_current_size 0 (set_current fdo (mgr s4))) (world s4))
       = (Ok ro, s6)
    /\ fst (s3Upload (mkState (set_last (filePath (mgr s) 1) (mgr s6)) (world s6)))
       <> Panic
    /\ snd (s3Upload (mkState (set_last (filePath (mgr s) 1) (mgr s6)) (world s6)))
       = s'.
Proof.
  intros H. unfold rotate in H.
  bind_inv H as m s0 E0. injection E0 as <- <-.
  bind_inv H as u1 s1 Eclose.
  bind_inv H as keep s1' Ek. apply deref_Ok_inv in Ek as [Hkeep ->].
  bind_inv H as u2 s2 Eprune.
  bind_inv H as u3 s3 Eshift.
  bind_inv H as r s4 Ecreate.
  bind_inv H as u4 s4' Ec. apply check_Ok_inv in Ec as [Hr ->].
  bind_inv H as u5 s5 Em1. injection Em1 as <-.
  bind_inv H as u6 s5' Em2. injection Em2 as <-.
  bind_inv H as ro s6 Eremove.
  bind_inv H as u7 s7 Em3. injection Em3 as <-.
  bind_inv H as u8 s8 Eup. apply ignore_error_Ok_inv in Eup as [Hnp Hs].
  injection H as <-.
  destruct r as [fdo rerr]. cbn [fst snd] in *. subst rerr.
  exists keep, s3, s4, fdo, s6, ro.
  pose proof (close_block_mgr (mgr s) s) as M1. rewrite Eclose in M1.
  pose proof (prune_loop_mgr (Z.to_nat (managerMaxFiles - keep)) keep s1) as M2.
  rewrite Eprune in M2.
  pose proof (shift_loop_mgr (Z.to_nat keep) (keep - 1) s2) as M3.
  rewrite Eshift in M3. unfold st_mgr in *. cbn [snd] in *.
  destruct (close_block_extends (mgr s) s) as [l1 L1]. rewrite Eclose in L1.
  destruct (extends_prune_loop (Z.to_nat (managerMaxFiles - keep)) keep s1) as [l2 L2].
  rewrite Eprune in L2.
  destruct (extends_shift_loop (Z.to_nat keep) (keep - 1) s2) as [l3 L3].
  rewrite Eshift in L3. cbn [snd] in *.
  exists (l3 ++ l2 ++ l1)%list.
  subst s5 s5' s7. cbn [mgr world] in *.
  pose proof (close_block_env (mgr s) s) as N1. rewrite Eclose in N1.
  pose proof (prune_loop_env (Z.to_nat (managerMaxFiles - keep)) keep s1) as N2.
  rewrite Eprune in N2.
  pose proof (shift_loop_env (Z.to_nat keep) (keep - 1) s2) as N3.
  rewrite Eshift in N3. unfold st_env in *. cbn [snd] in *.
  split; [assumption|]. split; [congruence|]. split; [congruence|].
  split; [rewrite L3, L2, L1; now rewrite <- !app_assoc|].
  split; [assumption|]. split; [assumption|]. split; assumption.
Qed.

(** ** C10: the manager after a rotation that returned normally *)

(** C10. After every rotate that returns without error the live byte
    counter is zero and "last" is the path of slot 1; the upload step has
    been run on that path (it has tried to open it) whether or not a file
    is there, as on the first rotation ever. *)
Theorem rotate_Ok_counter_and_last (s s' : State) :
  rotate s = (Ok tt, s') ->
  current_size (mgr s') = 0
  /\ last (mgr s') = filePath (mgr s) 1
  /\ exists l r tr,
       trace (world s') = (l ++ EvSys (SysOpen (filePath (mgr s) 1)) r :: tr)%list.
Proof.
  intros H. apply rotate_Ok_inv in H
    as (keep & s3 & s4 & fdo & s6 & ro & l & Hk & M3 & N3 & L3 & Ec & Er & Hnp & <-).
  pose proof (s3Upload_mgr
                (mkState (set_last (filePath (mgr s) 1) (mgr s6)) (world s6))) as Mu.
  unfold st_mgr in Mu. cbn [mgr] in Mu.
  pose proof (os_Remove_mgr (filePath (mgr s) keep)
                (mkState (set_current_size 0 (set_current fdo (mgr s4))) (world s4)))
    as Mr.
  rewrite Er in Mr. unfold st_mgr in Mr. cbn [snd mgr] in Mr.
  rewrite Mu, Mr.
  split; [reflexivity|]. split; [reflexivity|].
  destruct (s3Upload_opens
              (mkState (set_last (filePath (mgr s) 1) (mgr s6)) (world s6)))
    as (l' & r & Hl').
  cbn [mgr last set_last] in Hl'. rewrite Mr in Hl'. eauto.
Qed.

Lemma rotate_Ok_counter_and_last_witness :
  current_size (mgr (snd (rotate ex_state_new))) = 0
  /\ last (mgr (snd (rotate ex_state_new))) = filePath (mgr ex_state_new) 1
  /\ exists l r tr,
       trace (world (snd (rotate ex_state_new)))
       = (l ++ EvSys (SysOpen (filePath (mgr ex_state_new) 1)) r :: tr)%list.
Proof.
  apply (rotate_Ok_counter_and_last ex_state_new (snd (rotate ex_state_new))).
  vm_compute. reflexivity.
Defined.

(** The first rotation ever: no file is at slot 1, the rotation returns
    normally, and the upload step's open of slot 1 has failed. *)
Example first_rotation_opens_missing_slot1 :
  ~ slot_occupied (mgr ex_state_new) (world ex_state_new) 1
  /\ fst (rotate ex_state_new) = Ok tt
  /\ ~ slot_occupied (mgr ex_state_new) (world (snd (rotate ex_state_new))) 1
  /\ List.hd_error (List.filter
                      (fun e => match e with EvSys (SysOpen _) _ => true | _ => false end)
                      (trace (world (snd (rotate ex_state_new)))))
     = Some (EvSys (SysOpen (filePath (mgr ex_state_new) 1)) (Some ENOENT)).
Proof.
  split; [intros [x Hx]; vm_compute in Hx; discriminate|].
  split; [vm_compute; reflexivity|].
  split; [intros [x Hx]; vm_compute in Hx; discriminate|].
  vm_compute. reflexivity.
Qed.

(** ** C3: the store rejects the upload *)

Lemma shouldRotate_first (s : State) :
  current (mgr s) = None ->
  shouldRotate s =
    (Ok true, mkState (mgr s) (record (EvLog "S3 rotate: current nil") (world s))).
Proof.
  intros H. unfold shouldRotate. unfold bind at 1. unfold get_mgr at 1.
  cbv beta iota. rewrite H. reflexivity.
Qed.

(** C3 (what the code does at the inputs of the claim). When the store
    rejects the upload (Upload returns no output, and an error), s3Upload
    logs the failure and then reads the location of the missing output: it
    panics. The directory and the files are left as they were, but the
    panic goes up through rotate, which calls s3Upload directly, into the
    append that made the rotation. *)
Theorem s3Upload_panics_on_rejection (s : State) :
  session_NewSession (env (world s)) = None ->
  fst (store_reply (env (world s))) = None ->
  fst (s3Upload s) = Panic
  /\ st_dir (snd (s3Upload s)) = st_dir s
  /\ st_inodes (snd (s3Upload s)) = st_inodes s
  /\ (forall keep,
        fault_free (world s) -> live_ok s ->
        KeepFiles (mgr s) = Some keep -> keep < managerMaxFiles ->
        fst (rotate s) = Panic
        /\ (current (mgr s) = None -> forall line, fst (writeLine line s) = Panic)).
Proof.
  intros Hsess Hrej.
  assert (Hout : forall e, session_NewSession e = None -> fst (store_reply e) = None ->
                           upload_outcome e = Panic).
  { intros e H1 H2. unfold upload_outcome. now rewrite H1, H2. }
  split; [rewrite s3Upload_outcome; now apply Hout|].
  split; [apply s3Upload_dir|]. split; [apply s3Upload_inodes|].
  intros keep Hff Hlive Hkeep Hlt.
  split.
  - destruct (rotate_ff_result s keep Hff Hlive Hkeep Hlt) as (Hr & _).
    rewrite Hr, Hout by assumption. reflexivity.
  - intros Hcur line. unfold writeLine. unfold bind at 1.
    rewrite (shouldRotate_first s Hcur).
    set (s1 := mkState _ _).
    assert (Hff1 : fault_free (world s1)) by (intros c; apply Hff).
    assert (Hlive1 : live_ok s1).
    { unfold live_ok. subst s1. cbn [mgr]. now rewrite Hcur. }
    destruct (rotate_ff_result s1 keep Hff1 Hlive1 Hkeep Hlt) as (Hr & _).
    change (env (world s1)) with (env (world s)) in Hr.
    rewrite Hout in Hr by assumption.
    unfold bind at 1. destruct (rotate s1) as [r s2]. cbn [fst] in Hr.
    now rewrite Hr.
Qed.

Lemma s3Upload_panics_on_rejection_witness :
  fst (s3Upload ex_state_new_rejected) = Panic
  /\ fst (rotate ex_state_new_rejected) = Panic
  /\ fst (writeLine [x68; x69] ex_state_new_rejected) = Panic.
Proof.
  destruct (s3Upload_panics_on_rejection ex_state_new_rejected eq_refl eq_refl)
    as (H1 & _ & _ & H2).
  destruct (H2 3 (fun c => eq_refl) I eq_refl eq_refl) as (H3 & H4).
  split; [exact H1|]. split; [exact H3|]. apply H4. reflexivity.
Defined.

(** ** C8: the upload is part of the rotation *)

Lemma syscall_run_success {A} c (eff : FS -> errno + (A * FS)) (s s' : State) r :
  syscall_run c eff s = (Ok (r, None), s') ->
  trace (world s') = EvSys c None :: trace (world s).
Proof.
  unfold syscall_run. destruct (fault _ c); [intros H; discriminate|].
  destruct (eff _) as [e|[a f']]; intros H; [discriminate|].
  injection H as _ <-. reflexivity.
Qed.

(** An append that returns normally has written its line, with the
    newline, to the live file: after the rotation, if one was due. *)
Lemma writeLine_Ok_inv (line : list byte) (s s' : State) :
  writeLine line s = (Ok tt, s') ->
  exists rot s1 s2 s3 fd,
    shouldRotate s = (Ok rot, s1)
    /\ (if rot then rotate s1 = (Ok tt, s2) else s2 = s1)
    /\ current (mgr s2) = Some fd
    /\ mgr s3 = mgr s2
    /\ trace (world s3) = EvSys (SysWrite fd (line ++ [newline])) None :: trace (world s2)
    /\ s' = mkState (set_current_size
                       (uint64_wrap (current_size (mgr s2)
                                     + Z.of_nat (length (line ++ [newline]))))
                       (mgr s2))
              (world s3).
Proof.
  intros H. unfold writeLine in H.
  bind_inv H as rot s1 Erot.
  bind_inv H as u1 s2 Er.
  bind_inv H as m s2' Em. injection Em as <- <-.
  bind_inv H as err s3 Ew.
  bind_inv H as u2 s3' Ec. apply check_Ok_inv in Ec as [-> ->].
  injection H as <-.
  destruct (current (mgr s2)) as [fd|] eqn:Hcur; [|discriminate Ew].
  cbn [file_Write] in Ew.
  bind_inv Ew as w s2' Eg. injection Eg as <- <-.
  bind_inv Ew as r s3' Es. injection Ew as Hr <-.
  destruct r as [a rerr]. cbn [snd] in Hr. subst rerr.
  pose proof (syscall_run_success _ _ _ _ _ Es) as Htr.
  pose proof (syscall_run_mgr (SysWrite fd (line ++ [newline]))
                (fun f => lift_fs (write_fs (now (env (world s2))) fd
                                     (line ++ [newline]) f)) s2) as Hm.
  rewrite Es in Hm. unfold st_mgr in Hm. cbn [snd] in Hm.
  exists rot, s1, s2, s3', fd.
  split; [assumption|]. split.
  { destruct rot; [destruct u1; exact Er|]. now injection Er as <-. }
  split; [exact Hcur|]. split; [assumption|]. split; [assumption|].
  now rewrite Hm.
Qed.




(** ** The bytes written and the rotations made, from the trace *)

Lemma syscall_run_written {A} c (eff : FS -> errno + (A * FS)) :
  is_quiet c = true -> preserves st_written (syscall_run c eff).
Proof.
  intros Hq s. destruct (syscall_run_trace c eff s) as [r Hr].
  unfold st_written. rewrite Hr. destruct c, r; try discriminate; reflexivity.
Qed.

Lemma syscall_run_rotations {A} c (eff : FS -> errno + (A * FS)) :
  is_quiet c = true -> preserves st_rotations (syscall_run c eff).
Proof.
  intros Hq s. destruct (syscall_run_trace c eff s) as [r Hr].
  unfold st_rotations. rewrite Hr. destruct c, r; try discriminate; reflexivity.
Qed.

Lemma logp_Info_written fmt : preserves st_written (logp_Info fmt).
Proof. intros s. reflexivity. Qed.
Lemma logp_Info_rotations fmt : preserves st_rotations (logp_Info fmt).
Proof. intros s. reflexivity. Qed.
Lemma modify_mgr_written f : preserves st_written (modify_mgr f).
Proof. intros s. reflexivity. Qed.
Lemma modify_mgr_rotations f : preserves st_rotations (modify_mgr f).
Proof. intros s. reflexivity. Qed.
Lemma uploader_Upload_written b k f : preserves st_written (uploader_Upload b k f).
Proof. intros s. reflexivity. Qed.
Lemma uploader_Upload_rotations b k f : preserves st_rotations (uploader_Upload b k f).
Proof. intros s. reflexivity. Qed.

#[global] Hint Resolve logp_Info_written logp_Info_rotations modify_mgr_written
  modify_mgr_rotations uploader_Upload_written uploader_Upload_rotations : frame.
#[global] Hint Extern 1 (preserves st_written (syscall_run _ _)) =>
  apply syscall_run_written; reflexivity : frame.
#[global] Hint Extern 1 (preserves st_rotations (syscall_run _ _)) =>
  apply syscall_run_rotations; reflexivity : frame.

Lemma os_Stat_written p : preserves st_written (os_Stat p).
Proof. frame_os. Qed.
Lemma os_Lstat_written p : preserves st_written (os_Lstat p).
Proof. frame_os. Qed.
Lemma os_Remove_written p : preserves st_written (os_Remove p).
Proof. frame_os. Qed.
Lemma os_Rename_written a b : preserves st_written (os_Rename a b).
Proof. frame_os. Qed.
Lemma os_Open_written p : preserves st_written (os_Open p).
Proof. frame_os. Qed.
Lemma file_Close_written f : preserves st_written (file_Close f).
Proof. frame_os. Qed.
Lemma os_Stat_rotations p : preserves st_rotations (os_Stat p).
Proof. frame_os. Qed.
Lemma os_Lstat_rotations p : preserves st_rotations (os_Lstat p).
Proof. frame_os. Qed.
Lemma os_Remove_rotations p : preserves st_rotations (os_Remove p).
Proof. frame_os. Qed.
Lemma os_Rename_rotations a b : preserves st_rotations (os_Rename a b).
Proof. frame_os. Qed.
Lemma os_Open_rotations p : preserves st_rotations (os_Open p).
Proof. frame_os. Qed.
Lemma file_Close_rotations f : preserves st_rotations (file_Close f).
Proof. frame_os. Qed.

#[global] Hint Resolve os_Stat_written os_Lstat_written os_Remove_written
  os_Rename_written os_Open_written file_Close_written os_Stat_rotations
  os_Lstat_rotations os_Remove_rotations os_Rename_rotations os_Open_rotations
  file_Close_rotations : frame.

Lemma s3Upload_written : preserves st_written s3Upload.
Proof. unfold s3Upload. auto 30 with frame. Qed.

Lemma s3Upload_rotations : preserves st_rotations s3Upload.
Proof. unfold s3Upload. auto 30 with frame. Qed.

Lemma shouldRotate_written : preserves st_written shouldRotate.
Proof. unfold shouldRotate. auto 40 with frame. Qed.

Lemma shouldRotate_rotations : preserves st_rotations shouldRotate.
Proof. unfold shouldRotate. auto 40 with frame. Qed.

Lemma rotations_app_le (l tr : list event) : (rotations tr <= rotations (l ++ tr))%nat.
Proof.
  induction l as [|e l IH]; [reflexivity|]. cbn [app rotations].
  destruct e as [c r| |]; try exact IH.
  destruct c, r; try exact IH. lia.
Qed.

Lemma os_Create_success (p : string) (s s' : State) (fdo : option nat) :
  os_Create p s = (Ok (fdo, None), s') ->
  trace (world s') = EvSys (SysCreate p) None :: trace (world s).
Proof.
  unfold os_Create. unfold bind at 1. unfold get_world at 1. cbv beta iota.
  apply syscall_run_success.
Qed.

(** After a rotation that returned normally nothing has been written to
    the new live file yet, the counter is zero, and at least one more
    rotation has been made. *)
Lemma rotate_Ok_fresh (s s' : State) :
  rotate s = (Ok tt, s') ->
  (exists fdo, mgr s' = rotated_mgr_opt (mgr s) fdo)
  /\ st_written s' = 0
  /\ (st_rotations s < st_rotations s')%nat.
Proof.
  intros H. apply rotate_Ok_inv in H
    as (keep & s3 & s4 & fdo & s6 & ro & l & Hk & M3 & N3 & L3 & Ec & Er & Hnp & <-).
  pose proof (os_Create_success _ _ _ _ Ec) as T4.
  pose proof (os_Create_mgr (filePath (mgr s) 0) s3) as M4. rewrite Ec in M4.
  pose proof (os_Remove_mgr (filePath (mgr s) keep)
                (mkState (set_current_size 0 (set_current fdo (mgr s4))) (world s4)))
    as M6. rewrite Er in M6.
  pose proof (os_Remove_written (filePath (mgr s) keep)
                (mkState (set_current_size 0 (set_current fdo (mgr s4))) (world s4)))
    as W6. rewrite Er in W6.
  pose proof (os_Remove_rotations (filePath (mgr s) keep)
                (mkState (set_current_size 0 (set_current fdo (mgr s4))) (world s4)))
    as R6. rewrite Er in R6.
  unfold st_mgr, st_written, st_rotations in *. cbn [snd mgr world] in *.
  pose proof (s3Upload_mgr
                (mkState (set_last (filePath (mgr s) 1) (mgr s6)) (world s6))) as Mu.
  pose proof (s3Upload_written
                (mkState (set_last (filePath (mgr s) 1) (mgr s6)) (world s6))) as Wu.
  pose proof (s3Upload_rotations
                (mkState (set_last (filePath (mgr s) 1) (mgr s6)) (world s6))) as Ru.
  unfold st_mgr, st_written, st_rotations in *. cbn [mgr world] in *.
  split; [|split].
  - exists fdo. rewrite Mu, M6, M4, M3. reflexivity.
  - rewrite Wu, W6, T4. reflexivity.
  - rewrite Ru, R6, T4, L3. cbn [rotations].
    pose proof (rotations_app_le l (trace (world s))). lia.
Qed.

(** ** C6: the byte counter *)

Lemma appended_length (line : list byte) :
  Z.of_nat (length (line ++ [newline])) = line_bytes line.
Proof. unfold line_bytes. rewrite length_app. cbn [length]. lia. Qed.

Lemma uint64_wrap_add_l (a b : Z) : uint64_wrap (uint64_wrap a + b) = uint64_wrap (a + b).
Proof. unfold uint64_wrap. apply Zplus_mod_idemp_l. Qed.

(** One append that returned normally. *)
Lemma writeLine_step (line : list byte) (s s' : State) :
  current (mgr s) = None \/ counter_ok s ->
  writeLine line s = (Ok tt, s') ->
  counter_ok s'
  /\ current (mgr s') <> None
  /\ (st_rotations s <= st_rotations s')%nat
  /\ (st_rotations s' = st_rotations s ->
      st_written s' = line_bytes line + st_written s).
Proof.
  intros Hinit Hw.
  apply writeLine_Ok_inv in Hw
    as (rot & s1 & s2 & s3 & fd & Hsr & Hr & Hcur & Hm & Htr & ->).
  pose proof (shouldRotate_mgr s) as M1. rewrite Hsr in M1.
  pose proof (shouldRotate_written s) as W1. rewrite Hsr in W1.
  pose proof (shouldRotate_rotations s) as R1. rewrite Hsr in R1.
  unfold counter_ok in *. unfold st_mgr, st_written, st_rotations in *.
  cbn [snd mgr world current_size set_current_size current] in *.
  rewrite !Htr. cbn [written_since_rotation rotations]. rewrite !appended_length.
  rewrite Hcur.
  destruct rot.
  - apply rotate_Ok_fresh in Hr as ([fdo Hmgr] & Hw0 & Hlt).
    unfold st_written, st_rotations in *. rewrite Hw0, Hmgr. cbn.
    split; [f_equal; lia|]. split; [discriminate|].
    split; lia.
  - subst s2. rewrite M1, W1, R1.
    destruct Hinit as [Hnone|Hok].
    + rewrite (shouldRotate_first s Hnone) in Hsr. discriminate.
    + rewrite Hok, uint64_wrap_add_l.
      split; [f_equal; lia|]. split; [discriminate|]. split; [lia|]. reflexivity.
Qed.

Lemma with_env_written e s : st_written (with_env e s) = st_written s.
Proof. reflexivity. Qed.
Lemma with_env_rotations e s : st_rotations (with_env e s) = st_rotations s.
Proof. reflexivity. Qed.

Lemma appends_steps (lines : list (Env * list byte)) (s s' : State) :
  counter_ok s ->
  appends lines s = (Ok tt, s') ->
  counter_ok s'
  /\ (st_rotations s <= st_rotations s')%nat
  /\ (st_rotations s' = st_rotations s ->
      st_written s' = total_bytes lines + st_written s).
Proof.
  revert s. induction lines as [|[e line] rest IH]; intros s Hok H.
  - injection H as <-. cbn. auto.
  - cbn [appends] in H. bind_inv H as u s1 Ew. destruct u.
    destruct (writeLine_step line (with_env e s) s1) as (Hok1 & _ & Hle1 & Hw1);
      [right; exact Hok|exact Ew|].
    destruct (IH s1 Hok1 H) as (Hok' & Hle' & Hw').
    rewrite with_env_rotations, with_env_written in *.
    split; [assumption|]. split; [lia|].
    intros Heq. cbn [total_bytes fold_right snd].
    fold (total_bytes rest). rewrite Hw', Hw1 by lia. lia.
Qed.

(** C6. For every sequence of appends that all return normally, begun by
    a manager with no live file yet or with a counter that is right, the
    byte counter equals (as a uint64) the bytes written since the latest
    rotation; and when none of the appends rotated, those bytes have grown
    by exactly the lines appended, each with its newline. *)
Theorem current_size_counts_written_bytes
    (lines : list (Env * list byte)) (s s' : State) :
  current (mgr s) = None \/ counter_ok s ->
  lines <> [] ->
  appends lines s = (Ok tt, s') ->
  current_size (mgr s') = uint64_wrap (st_written s')
  /\ (st_written s' < 2 ^ 64 -> current_size (mgr s') = st_written s')
  /\ (st_rotations s' = st_rotations s ->
      st_written s' = total_bytes lines + st_written s).
Proof.
  intros Hinit Hne H.
  destruct lines as [|[e line] rest]; [contradiction|].
  cbn [appends] in H. bind_inv H as u s1 Ew. destruct u.
  destruct (writeLine_step line (with_env e s) s1 Hinit Ew) as (Hok1 & _ & Hle1 & Hw1).
  destruct (appends_steps rest s1 s' Hok1 H) as (Hok' & Hle' & Hw').
  rewrite with_env_rotations, with_env_written in *.
  assert (Hnn : forall tr, 0 <= written_since_rotation tr).
  { induction tr as [|ev tr IHtr]; cbn; [lia|].
    destruct ev as [c r| |]; try assumption. destruct c, r; try assumption; lia. }
  split; [exact Hok'|]. split.
  - intros Hlt. rewrite Hok'. unfold uint64_wrap. apply Z.mod_small.
    split; [apply Hnn|assumption].
  - intros Heq. cbn [total_bytes fold_right snd]. fold (total_bytes rest).
    rewrite Hw', Hw1 by lia. lia.
Qed.

Lemma current_size_counts_written_bytes_witness :
  current_size (mgr (snd (appends ex_lines ex_state_new)))
  = uint64_wrap (st_written (snd (appends ex_lines ex_state_new)))
  /\ (st_written (snd (appends ex_lines ex_state_new)) < 2 ^ 64 ->
      current_size (mgr (snd (appends ex_lines ex_state_new)))
      = st_written (snd (appends ex_lines ex_state_new)))
  /\ (st_rotations (snd (appends ex_lines ex_state_new)) = st_rotations ex_state_new ->
      st_written (snd (appends ex_lines ex_state_new))
      = total_bytes ex_lines + st_written ex_state_new).
Proof.
  apply (current_size_counts_written_bytes ex_lines ex_state_new
           (snd (appends ex_lines ex_state_new))).
  - left. reflexivity.
  - discriminate.
  - vm_compute. reflexivity.
Defined.

(** Two lines, "hi" and "abc", appended by a new manager: one rotation,
    then 3 + 4 bytes in the live file and in the counter. *)
Example two_appends_counted :
  fst (appends ex_lines ex_state_new) = Ok tt
  /\ current_size (mgr (snd (appends ex_lines ex_state_new))) = 7
  /\ st_written (snd (appends ex_lines ex_state_new)) = 7
  /\ st_rotations (snd (appends ex_lines ex_state_new)) = 1%nat.
Proof. vm_compute. auto. Qed.

(** ** C5: rotation by size *)

Lemma rotations_mutations (tr : list event) : rotations (mutations tr) = rotations tr.
Proof.
  induction tr as [|e tr IH]; [reflexivity|].
  unfold mutations in *. cbn [List.filter].
  destruct e as [c r| |]; cbn [is_mutation rotations]; try exact IH.
  destruct c, r; cbn [rotations]; try exact IH. now rewrite IH.
Qed.

Lemma rotations_app (l tr : list event) :
  rotations (l ++ tr) = (rotations l + rotations tr)%nat.
Proof.
  induction l as [|e l IH]; [reflexivity|]. cbn [app rotations].
  destruct e as [c r| |]; try exact IH. destruct c, r; try exact IH.
  now rewrite IH.
Qed.

Lemma prune_events_rotations (m : fileManager) (n : nat) (k : Z) (d : gmap string nat) :
  rotations (prune_events m n k d) = O.
Proof.
  revert k d. induction n as [|n IH]; intros k d; [reflexivity|].
  cbn [prune_events]. rewrite rotations_app, IH.
  destruct (d !! filePath m k); reflexivity.
Qed.

Lemma shift_events_rotations (m : fileManager) (n : nat) (j : Z) (d : gmap string nat) :
  rotations (shift_events m n j d) = O.
Proof.
  revert j d. induction n as [|n IH]; intros j d; [reflexivity|].
  cbn [shift_events]. destruct (d !! filePath m j); [|apply IH].
  rewrite rotations_app, IH. reflexivity.
Qed.

(** The local steps of a rotation create exactly one file. *)
Lemma ring_events_rotations (m : fileManager) (keep : Z) (d : gmap string nat) :
  rotations (ring_events m keep d) = 1%nat.
Proof.
  unfold ring_events. rewrite !rotations_app.
  rewrite prune_events_rotations, shift_events_rotations.
  destruct (_ !! filePath m keep); reflexivity.
Qed.

Lemma file_Write_ff (s : State) (fd i : nat) (f : File) (data : list byte) :
  fault_free (world s) ->
  fds (fs (world s)) !! fd = Some i -> inodes (fs (world s)) !! i = Some f ->
  file_Write (Some fd) data s =
    (Ok None,
     mkState (mgr s)
       (mkWorld (mkFS (dir (fs (world s)))
                      (<[i := mkFile (f_data f ++ data) (now (env (world s)))]>
                         (inodes (fs (world s))))
                      (fds (fs (world s))))
          (env (world s))
          (EvSys (SysWrite fd data) None :: trace (world s)))).
Proof.
  intros Hff Hfd Hi. unfold file_Write, bind, get_world, syscall_run, write_fs.
  cbn [world env]. rewrite Hff, Hfd, Hi. reflexivity.
Qed.

(** With a live file and the time threshold off, the policy compares the
    counter with the size threshold and looks at nothing else. *)
Lemma shouldRotate_by_size (s : State) (fd : nat) (everyBytes : Z) :
  current (mgr s) = Some fd ->
  UploadEveryBytes (mgr s) = Some everyBytes ->
  UploadEverySeconds (mgr s) = Some 0 ->
  exists tr,
    shouldRotate s =
      (Ok (everyBytes <=? current_size (mgr s)),
       mkState (mgr s) (mkWorld (fs (world s)) (env (world s)) tr))
    /\ rotations tr = st_rotations s
    /\ mutations tr = st_mutations s.
Proof.
  intros Hcur Hb Hs. unfold shouldRotate. unfold bind at 1. unfold get_mgr at 1.
  cbv beta iota. rewrite Hcur, Hb. unfold bind at 1. cbn [deref ret].
  destruct (everyBytes <=? current_size (mgr s)).
  - eexists. split; [reflexivity|]. split; reflexivity.
  - rewrite Hs. unfold bind at 1. cbn [deref ret]. cbn [Z.ltb Z.compare].
    exists (trace (world s)). split; [|split; reflexivity].
    destruct s as [m [f e tr]]. reflexivity.
Qed.

Lemma ring_after_live (m : fileManager) (keep : Z) (t : Time) (f : FS) :
  exists i,
    fds (snd (ring_after m keep t f)) !! fst (ring_after m keep t f) = Some i
    /\ inodes (snd (ring_after m keep t f)) !! i = Some (mkFile [] t).
Proof.
  unfold ring_after, create_fs. cbn [fst snd fds inodes dir].
  eexists. split; apply lookup_insert_eq.
Qed.

(** C5 (as amended). With the size threshold at 100 bytes and the time
    threshold off, in a run without failures an append rotates exactly
    when the counter has already reached 100 before it: the append whose
    line takes the counter to 100 or beyond does not rotate and is written
    to the old live file; the next append rotates, once, before its line
    is written, and the counter restarts at that line's size. The
    conditions hold again after the append, so this describes every
    append of a sequence. *)
Theorem append_rotates_when_counter_reached (s : State) (line : list byte) (keep : Z) :
  fault_free (world s) -> upload_outcome (env (world s)) <> Panic ->
  UploadEveryBytes (mgr s) = Some 100 -> UploadEverySeconds (mgr s) = Some 0 ->
  KeepFiles (mgr s) = Some keep -> keep < managerMaxFiles ->
  live_file_ok s ->
  let s' := snd (writeLine line s) in
  fst (writeLine line s) = Ok tt
  /\ (current_size (mgr s) < 100 ->
      st_rotations s' = st_rotations s
      /\ current_size (mgr s') = uint64_wrap (current_size (mgr s) + line_bytes line))
  /\ (100 <= current_size (mgr s) ->
      st_rotations s' = S (st_rotations s)
      /\ current_size (mgr s') = uint64_wrap (line_bytes line))
  /\ live_file_ok s' /\ same_config (mgr s) (mgr s')
  /\ env (world s') = env (world s).
Proof.
  intros Hff Hup Hb Hs Hkeep Hlt (fd & i & f & Hcur & Hfd & Hi) s'.
  destruct (shouldRotate_by_size s fd 100 Hcur Hb Hs) as (tr1 & Esr & R1 & Mu1).
  set (s1 := mkState (mgr s) (mkWorld (fs (world s)) (env (world s)) tr1)) in *.
  assert (Hff1 : fault_free (world s1)) by (intros c; apply Hff).
  destruct (Z.leb_spec 100 (current_size (mgr s))) as [Hge|Hlo].
  - (* the counter has reached the threshold: rotate, then write *)
    assert (Hlive1 : live_ok s1).
    { unfold live_ok. subst s1. cbn [mgr world fs]. rewrite Hcur, Hfd. eauto. }
    destruct (rotate_ff_result s1 keep Hff1 Hlive1 Hkeep Hlt)
      as (Hr & Hm2 & Hfs2 & Henv2 & Hmu2).
    set (ring := ring_after (mgr s1) keep (now (env (world s1))) (fs (world s1))) in *.
    set (s2 := snd (rotate s1)) in *.
    assert (Er : rotate s1 = (Ok tt, s2)).
    { subst s2. rewrite (surjective_pairing (rotate s1)). f_equal.
      rewrite Hr. change (env (world s1)) with (env (world s)).
      destruct (upload_outcome (env (world s))) as [[]|e|]; [reflexivity..|contradiction]. }
    destruct (ring_after_live (mgr s1) keep (now (env (world s1))) (fs (world s1)))
      as (i' & Hfd' & Hi').
    fold ring in Hfd', Hi'. rewrite <- Hfs2 in Hfd', Hi'.
    assert (Hff2 : fault_free (world s2)) by (intros c; rewrite Henv2; apply Hff).
    pose proof (file_Write_ff s2 (fst ring) i' _ (line ++ [newline]) Hff2 Hfd' Hi') as Ew.
    assert (Hw : writeLine line s =
                 (Ok tt,
                  mkState (set_current_size
                             (uint64_wrap (0 + Z.of_nat (length (line ++ [newline]))))
                             (mgr s2))
                    (mkWorld (mkFS (dir (fs (world s2)))
                                (<[i' := mkFile ([] ++ (line ++ [newline]))
                                           (now (env (world s2)))]>
                                   (inodes (fs (world s2))))
                                (fds (fs (world s2))))
                       (env (world s2))
                       (EvSys (SysWrite (fst ring) (line ++ [newline])) None
                          :: trace (world s2))))).
    { unfold writeLine. rewrite (bind_run _ _ _ _ _ Esr). fold s1.
      rewrite (bind_run _ _ _ _ _ Er).
      unfold bind at 1. unfold get_mgr at 1. cbv beta iota.
      rewrite Hm2. cbn [rotated_mgr current set_last set_current_size set_current].
      rewrite (bind_run _ _ _ _ _ Ew). cbn [check]. unfold bind at 1. cbn [ret].
      unfold modify_mgr. cbn [mgr world]. rewrite Hm2. reflexivity. }
    subst s'. rewrite Hw. cbn [fst snd].
    split; [reflexivity|]. split; [intros; lia|]. split; [|split; [|split]].
    + intros _. unfold st_rotations. cbn [world trace rotations mgr current_size
                                           set_current_size].
      rewrite appended_length. split; [|f_equal; lia].
      rewrite <- rotations_mutations. unfold st_mutations in Hmu2. rewrite Hmu2.
      rewrite rotations_app, ring_events_rotations.
      unfold st_mutations. subst s1. cbn [world trace].
      rewrite Mu1. unfold st_mutations. now rewrite rotations_mutations.
    + exists (fst ring), i'. eexists. cbn [mgr world fs fds inodes current set_current_size].
      rewrite Hm2. cbn [rotated_mgr current set_last set_current_size set_current].
      split; [reflexivity|]. split; [exact Hfd'|]. apply lookup_insert_eq.
    + cbn [mgr]. rewrite Hm2. subst s1. cbn. repeat split; reflexivity.
    + cbn [world env]. exact Henv2.
  - (* below the threshold: only write *)
    assert (Hfd1 : fds (fs (world s1)) !! fd = Some i) by exact Hfd.
    assert (Hi1 : inodes (fs (world s1)) !! i = Some f) by exact Hi.
    pose proof (file_Write_ff s1 fd i f (line ++ [newline]) Hff1 Hfd1 Hi1) as Ew.
    assert (Hw : writeLine line s =
                 (Ok tt,
                  mkState (set_current_size
                             (uint64_wrap (current_size (mgr s)
                                           + Z.of_nat (length (line ++ [newline]))))
                             (mgr s))
                    (mkWorld (mkFS (dir (fs (world s)))
                                (<[i := mkFile (f_data f ++ (line ++ [newline]))
                                          (now (env (world s)))]>
                                   (inodes (fs (world s))))
                                (fds (fs (world s))))
                       (env (world s))
                       (EvSys (SysWrite fd (line ++ [newline])) None :: tr1)))).
    { unfold writeLine. rewrite (bind_run _ _ _ _ _ Esr). fold s1.
      unfold bind at 1. cbn [ret].
      unfold bind at 1. unfold get_mgr at 1. cbv beta iota.
      change (current (mgr s1)) with (current (mgr s)). rewrite Hcur.
      rewrite (bind_run _ _ _ _ _ Ew). cbn [check]. unfold bind at 1. cbn [ret].
      reflexivity. }
    subst s'. rewrite Hw. cbn [fst snd].
    split; [reflexivity|]. split; [|split; [intros; lia|split; [|split]]].
    + intros _. unfold st_rotations. cbn [world trace rotations mgr current_size
                                           set_current_size].
      rewrite appended_length. split; [exact R1|reflexivity].
    + exists fd, i. eexists. cbn [mgr world fs fds inodes current set_current_size].
      split; [exact Hcur|]. split; [exact Hfd|]. apply lookup_insert_eq.
    + cbn. repeat split; reflexivity.
    + reflexivity.
Qed.

Lemma ex_state1_live_file_ok : live_file_ok ex_state1.
Proof.
  exists 0%nat, 0%nat, ex_file. split; [reflexivity|].
  split; apply lookup_singleton_eq.
Qed.

Lemma append_rotates_when_counter_reached_witness :
  fst (writeLine ex_line99 ex_state1) = Ok tt
  /\ (current_size (mgr ex_state1) < 100 ->
      st_rotations (snd (writeLine ex_line99 ex_state1)) = st_rotations ex_state1
      /\ current_size (mgr (snd (writeLine ex_line99 ex_state1)))
         = uint64_wrap (current_size (mgr ex_state1) + line_bytes ex_line99)).
Proof.
  destruct (append_rotates_when_counter_reached ex_state1 ex_line99 3
              (fun c => eq_refl)) as (H1 & H2 & _).
  - vm_compute. discriminate.
  - reflexivity.
  - reflexivity.
  - reflexivity.
  - reflexivity.
  - exact ex_state1_live_file_ok.
  - split; [exact H1|exact H2].
Defined.

(** A line of 100 bytes with its newline takes the counter from 0 to 100:
    this append crosses the threshold, and it does not rotate. *)
Lemma crossing_write_does_not_rotate : ~ rotates_at_crossing_write ex_state1 ex_line99.
Proof.
  intros H.
  assert (Hc : current_size (mgr ex_state1) < 100
               <= current_size (mgr ex_state1) + line_bytes ex_line99)
    by (vm_compute; split; [reflexivity|discriminate]).
  specialize (H Hc). vm_compute in H. discriminate.
Qed.

(** The crossing append and the one after it: the rotation is made by the
    second. *)
Example rotation_at_the_append_after_crossing :
  let s1 := snd (writeLine ex_line99 ex_state1) in
  let s2 := snd (writeLine [x68; x69] s1) in
  (st_rotations ex_state1, current_size (mgr ex_state1)) = (0%nat, 0)
  /\ (st_rotations s1, current_size (mgr s1)) = (0%nat, 100)
  /\ (st_rotations s2, current_size (mgr s2)) = (1%nat, 3).
Proof. vm_compute. auto. Qed.

(** ** C4: an occupied successor slot *)

Lemma shift_events_In (m : fileManager) (n : nat) (j t : Z) (d : gmap string nat) :
  j - Z.of_nat n < t <= j -> is_Some (d !! filePath m t) ->
  In (EvSys (SysRename (filePath m t) (filePath m (t + 1))) None)
     (shift_events m n j d).
Proof.
  revert j d. induction n as [|n IH]; intros j d Ht Hs; [lia|].
  cbn [shift_events].
  destruct (decide (t = j)) as [->|Hne].
  - destruct Hs as [i Hi]. rewrite Hi. apply in_or_app. right. left. reflexivity.
  - destruct (d !! filePath m j) as [i|] eqn:Hj.
    + apply in_or_app. left. apply IH; [lia|].
      rewrite lookup_insert_ne by (apply filePath_ne; lia).
      rewrite lookup_delete_ne by (apply filePath_ne; lia). assumption.
    + apply IH; [lia|assumption].
Qed.

(** C4 (as amended). When a slot n below the last kept slot and its
    successor n+1 are both occupied, a rotate whose system calls do not
    fail returns no error, and no ConsistencyError in particular: the
    shift runs from the highest slot down, so slot n+1 has been moved on
    (to n+2, when that is a kept slot) before slot n is looked at, and
    slot n is then renamed to n+1. *)
Theorem rotate_shifts_occupied_successor (s : State) (keep n : Z) :
  fault_free (world s) -> live_ok s ->
  KeepFiles (mgr s) = Some keep -> 0 < keep < managerMaxFiles ->
  0 <= n < keep - 1 ->
  slot_occupied (mgr s) (world s) n -> slot_occupied (mgr s) (world s) (n + 1) ->
  let p := filePath (mgr s) in
  let s' := snd (rotate s) in
  (forall e, fst (rotate s) <> Err e)
  /\ In (EvSys (SysRename (p n) (p (n + 1))) None) (st_mutations s')
  /\ In (EvSys (SysRename (p (n + 1)) (p (n + 2))) None) (st_mutations s')
  /\ st_dir s' !! p (n + 1) = st_dir s !! p n
  /\ (n + 2 < keep -> st_dir s' !! p (n + 2) = st_dir s !! p (n + 1)).
Proof.
  intros Hff Hlive Hkeep Hk Hn Hocc Hocc1 p s'.
  destruct (rotate_ff_result s keep Hff Hlive Hkeep ltac:(lia))
    as (Hr & _ & Hfs & _ & Hmu).
  fold s' in Hfs, Hmu.
  assert (Hren : forall t, 0 <= t < keep -> slot_occupied (mgr s) (world s) t ->
                 In (EvSys (SysRename (p t) (p (t + 1))) None) (st_mutations s')).
  { intros t Ht Ho. rewrite Hmu. apply in_or_app. left.
    unfold ring_events. apply in_or_app. right. apply in_or_app. right.
    apply in_or_app. left. apply shift_events_In; [lia|].
    rewrite prune_dir_lookup_slot. case_decide; [lia|exact Ho]. }
  split; [|split; [|split; [|split]]].
  - intros e He. rewrite Hr in He.
    destruct (upload_outcome (env (world s))); discriminate.
  - apply Hren; [lia|assumption].
  - replace (n + 2) with (n + 1 + 1) by lia. apply Hren; [lia|assumption].
  - unfold st_dir. rewrite Hfs. subst p. rewrite ring_after_lookup by assumption.
    repeat case_decide; try lia. now replace (n + 1 - 1) with n by lia.
  - intros Hn2. unfold st_dir. rewrite Hfs. subst p.
    rewrite ring_after_lookup by assumption.
    repeat case_decide; try lia. now replace (n + 2 - 1) with (n + 1) by lia.
Qed.

Lemma rotate_shifts_occupied_successor_witness :
  (forall e, fst (rotate ex_state5) <> Err e)
  /\ In (EvSys (SysRename (filePath ex_manager 0) (filePath ex_manager (0 + 1))) None)
       (st_mutations (snd (rotate ex_state5))).
Proof.
  destruct (rotate_shifts_occupied_successor ex_state5 3 0
              ex_state5_fault_free ex_state5_live_ok eq_refl) as (H1 & H2 & _).
  - unfold managerMaxFiles. lia.
  - lia.
  - apply ex_state5_slots. lia.
  - apply ex_state5_slots. lia.
  - split; [exact H1|exact H2].
Defined.

(** Slots 0 and 1 are both occupied and three files are kept: the rotation
    returns normally, with no conflict. *)
Lemma occupied_successor_is_no_conflict : ~ conflict_on_occupied_successor ex_state5 3 0.
Proof.
  intros H.
  destruct H as [H _].
  - reflexivity.
  - lia.
  - apply ex_state5_slots. lia.
  - apply ex_state5_slots. lia.
  - vm_compute in H. discriminate.
Qed.

(** ** C7: the key namer *)

Lemma keyName_digits (h : string) (t : Time) :
  valid_time t ->
  keyName h t =
    "/" +:+ fmt_d (t_Year t) +:+ "/" +:+ digits 2 (t_Month t) +:+ "/"
    +:+ digits 2 (t_Day t) +:+ "/" +:+ h +:+ "_"
    +:+ fmt_d (t_Year t) +:+ digits 2 (t_Month t) +:+ digits 2 (t_Day t) +:+ "T"
    +:+ digits 2 (t_Hour t) +:+ digits 2 (t_Minute t) +:+ digits 2 (t_Second t)
    +:+ "." +:+ digits 9 (t_Nanosecond t) +:+ "Z".
Proof.
  intros (HM & HD & HH & HMi & HS & HN). unfold keyName, timeIso8601.
  rewrite !(fmt_0d_digits 2) by (try (cbn; lia); lia).
  rewrite (fmt_0d_digits 9) by (try (cbn; lia); lia).
  reflexivity.
Qed.

Lemma digits_app_inj (w : nat) (a b : Z) (x y : string) :
  0 <= a < 10 ^ Z.of_nat w -> 0 <= b < 10 ^ Z.of_nat w ->
  digits w a +:+ x = digits w b +:+ y -> a = b /\ x = y.
Proof.
  intros Ha Hb H. apply str_app_inj_length in H as [H1 H2].
  - split; [now apply (digits_inj w)|assumption].
  - now rewrite !digits_length.
Qed.

(** The key determines the instant. *)
Lemma keyName_inj (h : string) (t u : Time) :
  valid_time t -> valid_time u -> keyName h t = keyName h u -> t = u.
Proof.
  intros Vt Vu H.
  rewrite (keyName_digits h t Vt), (keyName_digits h u Vu) in H.
  destruct Vt as (HM & HD & HH & HMi & HS & HN).
  destruct Vu as (HM' & HD' & HH' & HMi' & HS' & HN').
  assert (Hlen : String.length (fmt_d (t_Year t)) = String.length (fmt_d (t_Year u))).
  { apply (f_equal String.length) in H.
    rewrite !str_length_app, !digits_length in H. cbn [String.length] in H. lia. }
  apply str_app_inv_head in H.
  apply str_app_inj_length in H as [HY H]; [|assumption].
  apply fmt_d_inj in HY.
  apply str_app_inv_head in H.
  apply digits_app_inj in H as [HMo H]; [|cbn; lia..].
  apply str_app_inv_head in H.
  apply digits_app_inj in H as [HDa H]; [|cbn; lia..].
  apply str_app_inv_head in H. apply str_app_inv_head in H.
  apply str_app_inv_head in H.
  rewrite HY, HMo, HDa in H.
  do 3 apply str_app_inv_head in H. apply str_app_inv_head in H.
  apply digits_app_inj in H as [HHo H]; [|cbn; lia..].
  apply digits_app_inj in H as [HMin H]; [|cbn; lia..].
  apply digits_app_inj in H as [HSe H]; [|cbn; lia..].
  apply str_app_inv_head in H.
  apply digits_app_inj in H as [HNa _]; [|cbn; lia..].
  destruct t, u. cbn in *. congruence.
Qed.

(** Later in the same day means later in the order of strings. *)
Lemma keyName_lt (h : string) (t u : Time) :
  valid_time t -> valid_time u -> same_day t u ->
  time_of_day t < time_of_day u ->
  String.compare (keyName h t) (keyName h u) = Lt.
Proof.
  intros Vt Vu (HY & HMo & HDa) Hlt.
  rewrite (keyName_digits h t Vt), (keyName_digits h u Vu).
  destruct Vt as (HM & HD & HH & HMi & HS & HN).
  destruct Vu as (HM' & HD' & HH' & HMi' & HS' & HN').
  rewrite HY, HMo, HDa. unfold time_of_day in Hlt.
  rewrite !str_compare_app.
  destruct (Z.lt_total (t_Hour t) (t_Hour u)) as [Hh|[Hh|Hh]]; [| |lia].
  { apply digits_compare_lt; cbn; lia. }
  rewrite Hh in *. rewrite str_compare_app.
  destruct (Z.lt_total (t_Minute t) (t_Minute u)) as [Hm|[Hm|Hm]]; [| |lia].
  { apply digits_compare_lt; cbn; lia. }
  rewrite Hm in *. rewrite str_compare_app.
  destruct (Z.lt_total (t_Second t) (t_Second u)) as [Hs|[Hs|Hs]]; [| |lia].
  { apply digits_compare_lt; cbn; lia. }
  rewrite Hs in *. rewrite !str_compare_app.
  apply digits_compare_lt; cbn; lia.
Qed.


Lemma ex_time_valid : valid_time ex_time.
Proof. unfold valid_time. cbn. lia. Qed.

Lemma ex_time_later_valid : valid_time ex_time_later.
Proof. unfold valid_time. cbn. lia. Qed.


(** The two keys, one nanosecond apart. *)
Example keys_one_nanosecond_apart :
  fst (s3KeyName ex_state_new) = Ok "/2016/05/17/web1_20160517T120000.000000000Z"
  /\ fst (s3KeyName ex_state_later) = Ok "/2016/05/17/web1_20160517T120000.000000001Z"
  /\ unix_nano ex_time_later - unix_nano ex_time = 1.
Proof. vm_compute. auto. Qed.

(** * Further properties of the file manager *)

(** ** The generation namer *)



(** ** The configuration check *)

Lemma str_length_zero (s : string) : (String.length s =? 0)%nat = true <-> s = "".
Proof.
  destruct s; cbn; split; intros H; try reflexivity; discriminate.
Qed.

Lemma checkIfConfigSane_run (s : State) :
  Name (mgr s) <> "" -> Bucket (mgr s) <> "" ->
  let keep := default defaultKeepFiles (KeepFiles (mgr s)) in
  let m' := mkFileManager (Path (mgr s)) (Name (mgr s)) (Region (mgr s)) (Bucket (mgr s))
              (Some (default defaultUploadEveryBytes (UploadEveryBytes (mgr s))))
              (Some (default defaultUploadEverySeconds (UploadEverySeconds (mgr s))))
              (Some keep) (current (mgr s)) (current_size (mgr s)) (last (mgr s)) in
  checkIfConfigSane s =
    (if (keep <? 2) || (managerMaxFiles <=? keep)
     then Err (Errorf ("S3 number of files to keep should be between 2 and "
                         +:+ fmt_d (managerMaxFiles - 1)))
     else Ok tt,
     mkState m' (world s)).
Proof.
  intros Hn Hb keep m'. unfold checkIfConfigSane.
  unfold bind at 1. unfold get_mgr at 1. cbv beta iota.
  destruct (String.length (Name (mgr s)) =? 0)%nat eqn:E1.
  { apply str_length_zero in E1. contradiction. }
  destruct (String.length (Bucket (mgr s)) =? 0)%nat eqn:E2.
  { apply str_length_zero in E2. contradiction. }
  unfold bind, put_mgr. cbv beta iota. fold keep. fold m'.
  destruct ((keep <? 2) || (managerMaxFiles <=? keep)); reflexivity.
Qed.

Lemma checkIfConfigSane_accepted (s : State) :
  fst (checkIfConfigSane s) = Ok tt ->
  Name (mgr s) <> "" /\ Bucket (mgr s) <> ""
  /\ 2 <= default 7 (KeepFiles (mgr s)) < 1024.
Proof.
  destruct (String.eqb_spec (Name (mgr s)) "") as [En|Hn].
  { unfold checkIfConfigSane, bind, get_mgr. rewrite En. cbn. discriminate. }
  destruct (String.eqb_spec (Bucket (mgr s)) "") as [Eb|Hb].
  { unfold checkIfConfigSane, bind, get_mgr. rewrite Eb.
    destruct (String.length (Name (mgr s)) =? 0)%nat; cbn; discriminate. }
  rewrite (checkIfConfigSane_run s Hn Hb). cbn [fst].
  unfold defaultKeepFiles, managerMaxFiles.
  destruct (Z.ltb_spec (default 7 (KeepFiles (mgr s))) 2),
           (Z.leb_spec 1024 (default 7 (KeepFiles (mgr s)))); cbn [orb];
    try discriminate. intros _. repeat split; try assumption; lia.
Qed.

(** X2. The configuration check accepts exactly the configurations with a
    file name, a bucket and a number of files to keep (7 when none is
    given) of at least 2 and below 1024. *)
Theorem checkIfConfigSane_accepts_iff (s : State) :
  fst (checkIfConfigSane s) = Ok tt
  <-> Name (mgr s) <> "" /\ Bucket (mgr s) <> ""
      /\ 2 <= default 7 (KeepFiles (mgr s)) < 1024.
Proof.
  split; [apply checkIfConfigSane_accepted|].
  intros (Hn & Hb & Hk).
  rewrite (checkIfConfigSane_run s Hn Hb). cbn [fst].
  unfold defaultKeepFiles, managerMaxFiles.
  destruct (Z.ltb_spec (default 7 (KeepFiles (mgr s))) 2); [lia|].
  destruct (Z.leb_spec 1024 (default 7 (KeepFiles (mgr s)))); [lia|].
  reflexivity.
Qed.

Lemma checkIfConfigSane_accepts_iff_witness :
  fst (checkIfConfigSane ex_state_unset) = Ok tt.
Proof.
  apply (proj2 (checkIfConfigSane_accepts_iff ex_state_unset)).
  split; [discriminate|]. split; [discriminate|]. cbn. lia.
Defined.

(** X3. Once a configuration has a file name and a bucket, the check
    fills in the defaults: 7 files, 10 MiB and 0 seconds for what was not
    given; it keeps what was given, and it does so also when it then
    rejects the number of files. Nothing else of the manager, and nothing
    of the world, is changed. *)
Theorem checkIfConfigSane_defaults (s : State) :
  Name (mgr s) <> "" -> Bucket (mgr s) <> "" ->
  let m := mgr s in
  let m' := mgr (snd (checkIfConfigSane s)) in
  KeepFiles m' = Some (default 7 (KeepFiles m))
  /\ UploadEveryBytes m' = Some (default 10485760 (UploadEveryBytes m))
  /\ UploadEverySeconds m' = Some (default 0 (UploadEverySeconds m))
  /\ Path m' = Path m /\ Name m' = Name m /\ Region m' = Region m
  /\ Bucket m' = Bucket m
  /\ current m' = current m /\ current_size m' = current_size m /\ last m' = last m
  /\ world (snd (checkIfConfigSane s)) = world s.
Proof.
  intros Hn Hb m m'. subst m'. rewrite (checkIfConfigSane_run s Hn Hb).
  cbn. repeat split; reflexivity.
Qed.

Lemma checkIfConfigSane_defaults_witness :
  KeepFiles (mgr (snd (checkIfConfigSane ex_state_unset))) = Some 7
  /\ UploadEveryBytes (mgr (snd (checkIfConfigSane ex_state_unset))) = Some 10485760
  /\ UploadEverySeconds (mgr (snd (checkIfConfigSane ex_state_unset))) = Some 0.
Proof.
  destruct (checkIfConfigSane_defaults ex_state_unset) as (H1 & H2 & H3 & _).
  - discriminate.
  - discriminate.
  - split; [exact H1|]. split; [exact H2|exact H3].
Defined.

(** X4. The check is idempotent: on the state an accepted check leaves,
    a second check is accepted again and changes nothing. *)
Theorem checkIfConfigSane_idempotent (s s' : State) :
  checkIfConfigSane s = (Ok tt, s') -> checkIfConfigSane s' = (Ok tt, s').
Proof.
  intros H.
  assert (Hacc : fst (checkIfConfigSane s) = Ok tt) by now rewrite H.
  apply checkIfConfigSane_accepted in Hacc as (Hn & Hb & Hk).
  rewrite (checkIfConfigSane_run s Hn Hb) in H.
  unfold defaultKeepFiles, managerMaxFiles in H.
  destruct (Z.ltb_spec (default 7 (KeepFiles (mgr s))) 2); [lia|].
  destruct (Z.leb_spec 1024 (default 7 (KeepFiles (mgr s)))); [lia|].
  cbn [orb] in H. injection H as <-.
  rewrite checkIfConfigSane_run by (cbn; assumption).
  cbn [mgr world KeepFiles UploadEveryBytes UploadEverySeconds Path Name
       Region Bucket current current_size last].
  unfold defaultKeepFiles, managerMaxFiles. cbn [default from_option id].
  destruct (Z.ltb_spec (default 7 (KeepFiles (mgr s))) 2); [lia|].
  destruct (Z.leb_spec 1024 (default 7 (KeepFiles (mgr s)))); [lia|].
  reflexivity.
Qed.

Lemma checkIfConfigSane_idempotent_witness :
  checkIfConfigSane (snd (checkIfConfigSane ex_state_unset))
  = (Ok tt, snd (checkIfConfigSane ex_state_unset)).
Proof.
  apply (checkIfConfigSane_idempotent ex_state_unset). vm_compute. reflexivity.
Defined.

(** ** The host of the key *)

Lemma first_ipv4_find (addrs : list Addr) :
  first_ipv4 addrs = from_option a_String "" (List.find qualifies addrs).
Proof.
  induction addrs as [|a rest IH]; [reflexivity|].
  cbn [first_ipv4 List.find]. unfold qualifies at 1.
  destruct (a_isIPNet a), (a_isLoopback a), (a_isIPv4 a); cbn; try exact IH;
    reflexivity.
Qed.

(** X5. localIP answers with the first interface address that is an IP
    network address, not a loopback and IPv4: every address before it
    fails that test. It answers the empty string when the interfaces
    cannot be listed or none passes. *)
Theorem localIP_first_qualifying (e : Env) :
  (snd (net_InterfaceAddrs e) <> None -> localIP e = "")
  /\ (snd (net_InterfaceAddrs e) = None ->
      (forall a, In a (fst (net_InterfaceAddrs e)) -> qualifies a = false) ->
      localIP e = "")
  /\ (forall pre a post,
        snd (net_InterfaceAddrs e) = None ->
        fst (net_InterfaceAddrs e) = (pre ++ a :: post)%list ->
        (forall b, In b pre -> qualifies b = false) -> qualifies a = true ->
        localIP e = a_String a).
Proof.
  unfold localIP. destruct (net_InterfaceAddrs e) as [addrs err]. cbn [fst snd].
  split; [|split].
  - intros H. destruct err; [reflexivity|contradiction].
  - intros -> Hall. rewrite first_ipv4_find.
    destruct (List.find qualifies addrs) as [a|] eqn:Ef; [|reflexivity].
    apply List.find_some in Ef as [Hin Hq]. rewrite (Hall a Hin) in Hq. discriminate.
  - intros pre a post -> -> Hpre Ha. rewrite first_ipv4_find.
    assert (Hf : List.find qualifies (pre ++ a :: post) = Some a).
    { induction pre as [|b pre IH]; cbn [app List.find].
      - now rewrite Ha.
      - rewrite (Hpre b) by (left; reflexivity). apply IH.
        intros c Hc. apply Hpre. right. exact Hc. }
    now rewrite Hf.
Qed.

Lemma localIP_first_qualifying_witness : localIP ex_env_nameless = "10.0.0.7".
Proof.
  refine (proj2 (proj2 (localIP_first_qualifying ex_env_nameless))
            [mkAddr true true true "127.0.0.1"; mkAddr true false false "fe80::1"]
            (mkAddr true false true "10.0.0.7")
            [mkAddr true false true "192.168.1.2"] eq_refl eq_refl _ eq_refl).
  intros b [<-|[<-|[]]]; reflexivity.
Defined.

(** X6. The host put into a key is never empty; it is the machine's
    hostname whenever that could be read and is neither empty nor
    "localhost", and the literal "localhost" when neither the hostname nor
    an address is to be had. *)
Theorem resolve_host_nonempty (e : Env) :
  resolve_host e <> ""
  /\ (snd (os_Hostname e) = None -> fst (os_Hostname e) <> "" ->
      fst (os_Hostname e) <> "localhost" -> resolve_host e = fst (os_Hostname e))
  /\ (snd (os_Hostname e) <> None -> localIP e = "" -> resolve_host e = "localhost").
Proof.
  unfold resolve_host. destruct (os_Hostname e) as [host err]. cbn [fst snd].
  split; [|split].
  - destruct err as [x|].
    + cbn. destruct (String.eqb_spec (localIP e) ""); [discriminate|assumption].
    + destruct (String.eqb_spec host ""); cbn.
      * destruct (String.eqb_spec (localIP e) ""); [discriminate|assumption].
      * destruct (String.eqb_spec host "localhost"); cbn.
        -- destruct (String.eqb_spec (localIP e) ""); [discriminate|assumption].
        -- destruct (String.eqb_spec host ""); [contradiction|assumption].
  - intros -> Hne Hnl.
    destruct (String.eqb_spec host ""); [contradiction|].
    destruct (String.eqb_spec host "localhost"); [contradiction|]. cbn.
    destruct (String.eqb_spec host ""); [contradiction|reflexivity].
  - intros Herr Hip. destruct err; [|contradiction]. cbn. rewrite Hip. reflexivity.
Qed.

Lemma resolve_host_nonempty_witness :
  resolve_host ex_env = "web1" /\ resolve_host ex_env_nameless = "10.0.0.7".
Proof.
  split.
  - apply (proj1 (proj2 (resolve_host_nonempty ex_env))); [reflexivity|discriminate..].
  - reflexivity.
Defined.

(** ** Keys across hosts and days *)

Lemma digit_char_not_slash (d : Z) : digit_char d <> "/"%char.
Proof.
  destruct d as [|p|p]; try discriminate.
  do 4 (destruct p as [p|p|]; try discriminate).
Qed.

Lemma digits_no_slash (w : nat) (n : Z) : no_slash (digits w n).
Proof.
  revert n. induction w as [|w IH]; intros n; cbn; [exact I|].
  split; [apply digit_char_not_slash|apply IH].
Qed.

Lemma fmt_d_no_slash (n : Z) : no_slash (fmt_d n).
Proof.
  unfold fmt_d. destruct (n <? 0); [|apply digits_no_slash].
  cbn. split; [discriminate|apply digits_no_slash].
Qed.

Lemma split_at_slash (a b x y : string) :
  no_slash a -> no_slash b ->
  a +:+ "/" +:+ x = b +:+ "/" +:+ y -> a = b /\ x = y.
Proof.
  revert b. induction a as [|c a IH]; intros [|c' b] Ha Hb H;
    str_simpl_in H; cbn in Ha, Hb.
  - injection H as ->. auto.
  - injection H as <- _. destruct Hb as [Hb _]. contradiction.
  - injection H as -> _. destruct Ha as [Ha _]. contradiction.
  - injection H as -> H. destruct Ha as [_ Ha], Hb as [_ Hb].
    destruct (IH b Ha Hb H) as [-> ->]. auto.
Qed.

(** X7. A key determines both the host and the instant it was made for:
    keys of different hosts never coincide, whatever the host names are,
    and neither do keys of one host at different instants. *)
Theorem keyName_never_collides (h h' : string) (t u : Time) :
  valid_time t -> valid_time u ->
  h <> h' \/ t <> u -> keyName h t <> keyName h' u.
Proof.
  intros Vt Vu Hdiff H.
  assert (Hh : h = h').
  { pose proof H as H0.
    rewrite (keyName_digits h t Vt), (keyName_digits h' u Vu) in H.
    destruct Vt as (HM & HD & HH & HMi & HS & HN).
    destruct Vu as (HM' & HD' & HH' & HMi' & HS' & HN').
    apply str_app_inv_head in H.
    apply split_at_slash in H as [HY H]; [|apply fmt_d_no_slash..].
    apply digits_app_inj in H as [HMo H]; [|cbn; lia..].
    apply str_app_inv_head in H.
    apply digits_app_inj in H as [HDa H]; [|cbn; lia..].
    apply str_app_inv_head in H.
    assert (Hlen : String.length h = String.length h').
    { apply (f_equal String.length) in H.
      rewrite !str_length_app, !digits_length, HY in H. cbn [String.length] in H. lia. }
    apply str_app_inj_length in H as [Hh _]; assumption. }
  subst h'. destruct Hdiff as [Hd|Hd]; [now apply Hd|].
  apply Hd. exact (keyName_inj h t u Vt Vu H).
Qed.

Lemma keyName_never_collides_witness :
  keyName "web1_a" ex_time <> keyName "web1" ex_time_later.
Proof.
  apply (keyName_never_collides "web1_a" "web1" ex_time ex_time_later).
  - exact ex_time_valid.
  - exact ex_time_later_valid.
  - left. discriminate.
Defined.

Lemma ndigits_four (y : Z) : 1000 <= y <= 9999 -> ndigits y = 4%nat.
Proof.
  intros Hy.
  assert (Hle : (ndigits y <= 4)%nat) by (apply ndigits_aux_le; [lia|cbn; lia]).
  pose proof (ndigits_bound y ltac:(lia)) as Hb.
  pose proof (ndigits_pos y) as Hp.
  destruct (ndigits y) as [|[|[|[|[|k]]]]]; cbn in Hb; try lia.
Qed.

Lemma fmt_d_four (y : Z) : 1000 <= y <= 9999 -> fmt_d y = digits 4 y.
Proof.
  intros Hy. unfold fmt_d. destruct (Z.ltb_spec y 0); [lia|].
  now rewrite ndigits_four.
Qed.

(** X8. For one host and years of four digits, the order of the keys as
    strings is the order of time, across days, months and years as well
    as within a day: the key of the earlier instant is strictly less. *)
Theorem keyName_chronological (h : string) (t u : Time) :
  valid_time t -> valid_time u -> four_digit_year t -> four_digit_year u ->
  earlier t u ->
  String.ltb (keyName h t) (keyName h u) = true.
Proof.
  intros Vt Vu Yt Yu [Hd|[Hday Htod]]; unfold String.ltb.
  2:{ now rewrite (keyName_lt h t u Vt Vu Hday Htod). }
  rewrite (keyName_digits h t Vt), (keyName_digits h u Vu).
  destruct Vt as (HM & HD & HH & HMi & HS & HN).
  destruct Vu as (HM' & HD' & HH' & HMi' & HS' & HN').
  unfold four_digit_year in *.
  rewrite !(fmt_d_four (t_Year t)), !(fmt_d_four (t_Year u)) by assumption.
  rewrite str_compare_app.
  destruct Hd as [Hy|[Hy [Hm|[Hm Hdd]]]].
  - rewrite digits_compare_lt; [reflexivity|cbn; lia..].
  - rewrite Hy, !str_compare_app. rewrite digits_compare_lt; [reflexivity|cbn; lia..].
  - rewrite Hy, Hm, !str_compare_app.
    rewrite digits_compare_lt; [reflexivity|cbn; lia..].
Qed.

Lemma keyName_chronological_witness :
  String.ltb (keyName "web1" ex_time_later) (keyName "web1" ex_time_next_day) = true.
Proof.
  apply (keyName_chronological "web1" ex_time_later ex_time_next_day).
  - exact ex_time_later_valid.
  - unfold valid_time. cbn. lia.
  - unfold four_digit_year. cbn. lia.
  - unfold four_digit_year. cbn. lia.
  - left. right. split; [reflexivity|]. right. split; [reflexivity|]. cbn. lia.
Defined.

(** ** The policy reads, and only reads *)

Lemma syscall_run_ro {A} c (g : FS -> errno + A) (s : State) :
  fs (world (snd (syscall_run c (fun f => lift_ro f (g f)) s))) = fs (world s).
Proof.
  unfold syscall_run. destruct (fault _ c); [reflexivity|].
  destruct (g (fs (world s))) as [e|a]; cbn; [reflexivity|].
  destruct s as [m [f e tr]]. reflexivity.
Qed.

Lemma os_Stat_fs p : preserves st_fs' (os_Stat p).
Proof. intros s. apply syscall_run_ro. Qed.

Lemma os_Lstat_fs p : preserves st_fs' (os_Lstat p).
Proof. intros s. apply syscall_run_ro. Qed.

Lemma logp_Info_fs fmt : preserves st_fs' (logp_Info fmt).
Proof. intros s. reflexivity. Qed.

#[global] Hint Resolve os_Stat_fs os_Lstat_fs logp_Info_fs : frame.

Lemma fileExists_fs n : preserves st_fs' (fileExists n).
Proof. unfold fileExists. auto 20 with frame. Qed.

Lemma shouldRotate_fs : preserves st_fs' shouldRotate.
Proof. unfold shouldRotate. auto 40 with frame. Qed.

Lemma shouldRotate_env' : preserves st_env shouldRotate.
Proof. unfold shouldRotate. auto 40 with frame. Qed.

(** X9. The rotation policy and the existence probe only read: whatever
    shouldRotate or fileExists return, and also when shouldRotate panics,
    the manager, the file system and the environment are as before; they
    leave nothing but log lines and the record of their stat calls. *)
Theorem shouldRotate_reads_only (s : State) (n : Z) :
  mgr (snd (shouldRotate s)) = mgr s
  /\ fs (world (snd (shouldRotate s))) = fs (world s)
  /\ env (world (snd (shouldRotate s))) = env (world s)
  /\ mgr (snd (fileExists n s)) = mgr s
  /\ fs (world (snd (fileExists n s))) = fs (world s)
  /\ st_mutations (snd (fileExists n s)) = st_mutations s.
Proof.
  split; [apply shouldRotate_mgr|]. split; [apply shouldRotate_fs|].
  split; [apply shouldRotate_env'|]. split; [apply fileExists_mgr|].
  split; [apply fileExists_fs|].
  rewrite fileExists_run. reflexivity.
Qed.

(** X10. Rotation by time. With a live file open, the size below its
    threshold, a positive time threshold and a file at slot 1 that can be
    examined, a rotation is due exactly when the whole seconds from slot
    1's modification time to now have reached the threshold; a
    modification time in the future never makes it due. *)
Theorem shouldRotate_by_age (s : State) (fd i : nat) (x : File)
    (everyBytes everySeconds : Z) :
  current (mgr s) = Some fd ->
  UploadEveryBytes (mgr s) = Some everyBytes -> current_size (mgr s) < everyBytes ->
  UploadEverySeconds (mgr s) = Some everySeconds -> 0 < everySeconds ->
  fault (env (world s)) (SysLstat (filePath (mgr s) 1)) = None ->
  file_at (fs (world s)) (filePath (mgr s) 1) = Some (i, x) ->
  let age := Z.quot (time_Sub (now (env (world s))) (f_mtime x)) 1000000000 in
  fst (shouldRotate s) = Ok (everySeconds <=? age)
  /\ (unix_nano (now (env (world s))) <= unix_nano (f_mtime x) ->
      fst (shouldRotate s) = Ok false).
Proof.
  intros Hcur Hb Hsz Hs Hpos Hft Hfile age.
  unfold file_at in Hfile.
  destruct (dir (fs (world s)) !! filePath (mgr s) 1) as [j|] eqn:Hd; [|discriminate].
  cbn in Hfile.
  destruct (inodes (fs (world s)) !! j) as [y|] eqn:Hi; [|discriminate].
  cbn in Hfile. injection Hfile as -> ->.
  assert (Hrun : fst (shouldRotate s) = Ok (everySeconds <=? age)).
  { unfold shouldRotate. unfold bind at 1. unfold get_mgr at 1. cbv beta iota.
    rewrite Hcur, Hb. unfold bind at 1. cbn [deref ret].
    destruct (Z.leb_spec everyBytes (current_size (mgr s))); [lia|].
    rewrite Hs. unfold bind at 1. cbn [deref ret].
    destruct (Z.ltb_spec 0 everySeconds); [|lia].
    unfold bind at 1. unfold os_Lstat, syscall_run, stat_fs.
    rewrite Hft, Hd, Hi. cbn [lift_ro fst snd].
    unfold bind at 1. cbn [ret]. unfold bind at 1. cbn [deref ret].
    unfold bind at 1. unfold time_Now at 1.
    cbn [world env record with_fs fi_ModTime]. subst age.
    destruct (everySeconds <=? _); reflexivity. }
  split; [exact Hrun|].
  intros Hfuture. rewrite Hrun. f_equal. apply Z.leb_gt.
  assert (age <= 0); [|lia]. subst age. unfold time_Sub, sat_int64, int64_min, int64_max.
  apply Z.quot_le_upper_bound; lia.
Qed.

Lemma shouldRotate_by_age_witness : fst (shouldRotate ex_state_aged) = Ok true.
Proof.
  refine (proj1 (shouldRotate_by_age ex_state_aged 0 1 ex_file 100 60 _ _ _ _ _ _ _));
    reflexivity.
Defined.

(** ** The upload step *)

(** X11. Whatever its outcome, also when it panics, the upload step
    leaves the manager, the directory entries, every file's content and
    the environment as they were, and makes no call that changes the
    disk. *)
Theorem s3Upload_reads_only (s : State) :
  mgr (snd (s3Upload s)) = mgr s
  /\ dir (fs (world (snd (s3Upload s)))) = dir (fs (world s))
  /\ inodes (fs (world (snd (s3Upload s)))) = inodes (fs (world s))
  /\ env (world (snd (s3Upload s))) = env (world s)
  /\ mutations (trace (world (snd (s3Upload s)))) = mutations (trace (world s)).
Proof.
  split; [apply s3Upload_mgr|]. split; [apply s3Upload_dir|].
  split; [apply s3Upload_inodes|]. split; [apply s3Upload_env|].
  apply s3Upload_mutations.
Qed.

(** X12. When no system call fails, the descriptor the upload step opens
    is closed again by its deferred Close on every path, the panic after
    a rejected upload included: the table of open descriptors is as
    before, and the descriptor of the live file stays open. *)
Theorem s3Upload_closes_what_it_opens (s : State) :
  fault_free (world s) ->
  fds (fs (world (snd (s3Upload s)))) = fds (fs (world s)).
Proof. intros Hff. now rewrite s3Upload_fs_ff. Qed.

Lemma s3Upload_closes_what_it_opens_witness :
  fst (s3Upload ex_state_upload_rejected) = Panic
  /\ fds (fs (world (snd (s3Upload ex_state_upload_rejected)))) = {[0%nat := 0%nat]}.
Proof.
  split; [reflexivity|].
  apply (s3Upload_closes_what_it_opens ex_state_upload_rejected).
  intros c. reflexivity.
Defined.

Lemma syscall_run_uploads {A} c (eff : FS -> errno + (A * FS)) :
  preserves st_uploads (syscall_run c eff).
Proof.
  intros s. unfold syscall_run.
  destruct (fault _ c); [reflexivity|].
  destruct (eff _) as [e|[a f']]; reflexivity.
Qed.

Lemma logp_Info_uploads fmt : preserves st_uploads (logp_Info fmt).
Proof. intros s. reflexivity. Qed.

#[global] Hint Resolve syscall_run_uploads logp_Info_uploads : frame.

Lemma os_Open_uploads p : preserves st_uploads (os_Open p).
Proof. frame_os. Qed.

Lemma file_Close_uploads f : preserves st_uploads (file_Close f).
Proof. frame_os. Qed.

#[global] Hint Resolve os_Open_uploads file_Close_uploads : frame.

(** X13. When no session with the store can be made, the upload step
    returns the session's error and the store is never asked: no upload
    is added to the record. *)
Theorem s3Upload_without_session (s : State) (err : error) :
  session_NewSession (env (world s)) = Some err ->
  fst (s3Upload s) = Err err
  /\ st_uploads (snd (s3Upload s)) = st_uploads s.
Proof.
  intros Hsess. split.
  { rewrite s3Upload_outcome. unfold upload_outcome. now rewrite Hsess. }
  destruct s as [m [[d ino fd] e tr]]. cbn [mgr world env trace] in *.
  unfold s3Upload.
  unfold bind at 1. unfold get_mgr at 1. cbv beta iota.
  unfold bind at 1. unfold logp_Info at 1. cbv beta iota.
  unfold bind at 1.
  destruct (os_Open_run (last m)
              (mkState m (record (EvLog "S3 upload path: %v")
                            (mkWorld (mkFS d ino fd) e tr))))
    as (r & tr1 & fd1 & E1 & _ & _).
  pose proof (os_Open_uploads (last m)
                (mkState m (record (EvLog "S3 upload path: %v")
                              (mkWorld (mkFS d ino fd) e tr)))) as U1.
  cbn [mgr world fs env trace record dir inodes] in E1, U1.
  cbn [mgr world record fs env trace].
  rewrite E1 in *. clear E1. unfold st_uploads in U1. cbn [snd world trace is_upload List.filter] in U1.
  unfold bind at 1.
  assert (Hlog : exists tr2,
             (match snd r with
              | Some _ => logp_Info "S3 err opening file: %s\n"
              | None => ret tt
              end) (mkState m (mkWorld (mkFS d ino fd1) e tr1))
             = (Ok tt, mkState m (mkWorld (mkFS d ino fd1) e tr2))
             /\ List.filter is_upload tr2 = List.filter is_upload tr1).
  { destruct (snd r); eexists; split; reflexivity. }
  destruct Hlog as (tr2 & -> & U2).
  unfold with_defer.
  unfold bind at 1. unfold get_world at 1. cbv beta iota. cbn [world env].
  rewrite Hsess.
  unfold bind at 1. unfold logp_Info at 1. cbv beta iota. cbn [fail snd].
  match goal with |- st_uploads (snd (bind ?c ?k ?s2)) = _ =>
    assert (Hp : preserves st_uploads (bind c k)) by auto 20 with frame;
    rewrite (Hp s2) end.
  unfold st_uploads. cbn [world record trace List.filter is_upload].
  now rewrite U2, U1.
Qed.

Lemma s3Upload_without_session_witness :
  fst (s3Upload ex_state_no_session) = Err (AwsError "NoCredentialProviders")
  /\ st_uploads (snd (s3Upload ex_state_no_session)) = [].
Proof.
  apply (s3Upload_without_session ex_state_no_session). reflexivity.
Defined.

Lemma os_Open_absent (p : string) (s : State) :
  dir (fs (world s)) !! p = None ->
  exists e,
    os_Open p s =
      (Ok (None, Some (OsError e)),
       mkState (mgr s) (record (EvSys (SysOpen p) (Some e)) (world s))).
Proof.
  intros Hd. unfold os_Open, syscall_run, open_fs. rewrite Hd.
  destruct (fault _ _) as [e|]; eexists; reflexivity.
Qed.

Lemma s3Upload_uploads_none (s : State) :
  dir (fs (world s)) !! last (mgr s) = None ->
  session_NewSession (env (world s)) = None ->
  exists l l',
    trace (world (snd (s3Upload s))) =
      (l ++ EvUpload (Bucket (mgr s)) (upload_key (env (world s))) None
              (snd (store_reply (env (world s))))
         :: l' ++ trace (world s))%list.
Proof.
  intros Hd Hsess.
  destruct s as [m [[d ino fd] e tr]]. cbn [mgr world env trace fs dir] in *.
  unfold s3Upload.
  unfold bind at 1. unfold get_mgr at 1. cbv beta iota.
  unfold bind at 1. unfold logp_Info at 1. cbv beta iota.
  unfold bind at 1.
  destruct (os_Open_absent (last m)
              (mkState m (record (EvLog "S3 upload path: %v")
                            (mkWorld (mkFS d ino fd) e tr))) Hd) as [en E1].
  cbn [mgr world fs env trace record dir inodes] in E1.
  cbn [mgr world record fs env trace].
  rewrite E1. clear E1. cbn [fst snd].
  unfold bind at 1. unfold logp_Info at 1. cbv beta iota.
  cbn [mgr world record env fs trace].
  unfold with_defer.
  unfold bind at 1. unfold get_world at 1. cbv beta iota.
  cbn [mgr world record env fs trace].
  rewrite Hsess.
  unfold bind at 1. rewrite s3KeyName_run. cbn [world env].
  unfold bind at 1. unfold uploader_Upload at 1. cbn [world env mgr fs fds].
  fold (upload_key e). fold (store_reply e).
  set (s2 := mkState m (record _ _)).
  match goal with |- context [bind ?c ?k s2] =>
    assert (Hx : extends (bind c k)) by auto 30 with trace;
    destruct (Hx s2) as [l3 Hl3]; destruct (bind c k s2) as [rb sb] end.
  cbn [snd] in *.
  destruct (extends_bind (file_Close None) (fun _ => ret tt)
              (extends_file_Close _) (fun _ => extends_ret _) sb) as [l4 Hl4].
  rewrite Hl4, Hl3. subst s2. cbn [world record trace].
  exists (l4 ++ l3)%list.
  exists [EvLog "S3 err opening file: %s\n"; EvSys (SysOpen (last m)) (Some en);
          EvLog "S3 upload path: %v"].
  rewrite <- !app_assoc. reflexivity.
Qed.


(** X14. A file that cannot be opened does not stop the upload: when the
    path to upload names no file, the failure is only logged, the store
    is still asked for the upload under the same key, with nothing to
    read from, and the outcome is the store's: success when it accepts, a
    panic when it rejects. *)
Theorem s3Upload_missing_file (s : State) :
  dir (fs (world s)) !! last (mgr s) = None ->
  session_NewSession (env (world s)) = None ->
  fst (s3Upload s) = match fst (store_reply (env (world s))) with
                     | Some _ => Ok tt
                     | None => Panic
                     end
  /\ exists l l',
       trace (world (snd (s3Upload s))) =
         (l ++ EvUpload (Bucket (mgr s)) (upload_key (env (world s))) None
                 (snd (store_reply (env (world s))))
            :: l' ++ trace (world s))%list.
Proof.
  intros Hd Hsess. split.
  - rewrite s3Upload_outcome. unfold upload_outcome. now rewrite Hsess.
  - now apply s3Upload_uploads_none.
Qed.

Lemma s3Upload_missing_file_witness :
  fst (s3Upload ex_state_new) = Ok tt
  /\ exists l l',
       trace (world (snd (s3Upload ex_state_new))) =
         (l ++ EvUpload "logs" (upload_key ex_env) None None :: l' ++ [])%list.
Proof.
  apply (s3Upload_missing_file ex_state_new); reflexivity.
Defined.

(** ** What a rotation does to the files *)

Lemma shifted_dir_slot0 (m : fileManager) (keep : Z) (d : gmap string nat) :
  0 < keep < managerMaxFiles -> shifted_dir m keep d !! filePath m 0 = None.
Proof.
  intros Hk. unfold shifted_dir.
  rewrite shift_dir_lookup_slot.
  - repeat case_decide; try reflexivity; lia.
  - replace (keep - 1 + 1) with keep by lia. apply prune_dir_slot_keep. lia.
Qed.

Lemma fresh_inode_absent (ino : gmap nat File) : ino !! fresh (dom ino) = None.
Proof. apply not_elem_of_dom. apply is_fresh. Qed.

Lemma ring_after_inodes (m : fileManager) (keep : Z) (t : Time) (f : FS) :
  0 < keep < managerMaxFiles ->
  inodes (snd (ring_after m keep t f))
  = <[fresh (dom (inodes f)) := mkFile [] t]> (inodes f).
Proof.
  intros Hk. unfold ring_after, create_fs. cbn [snd dir inodes fds].
  now rewrite shifted_dir_slot0.
Qed.

Lemma ring_after_fds (m : fileManager) (keep : Z) (t : Time) (f : FS) :
  0 < keep < managerMaxFiles ->
  fds (snd (ring_after m keep t f))
  = <[fst (ring_after m keep t f) := fresh (dom (inodes f))]>
      (fds (close_current m f)).
Proof.
  intros Hk. unfold ring_after, create_fs. cbn [fst snd dir inodes fds].
  now rewrite shifted_dir_slot0.
Qed.

Lemma ring_after_keeps_inodes (m : fileManager) (keep : Z) (t : Time) (f : FS)
    (i : nat) (x : File) :
  0 < keep < managerMaxFiles ->
  inodes f !! i = Some x -> inodes (snd (ring_after m keep t f)) !! i = Some x.
Proof.
  intros Hk Hi. rewrite ring_after_inodes by assumption.
  rewrite lookup_insert_ne; [assumption|].
  intros <-. rewrite fresh_inode_absent in Hi. discriminate.
Qed.

Lemma file_at_Some (f : FS) (p : string) (i : nat) (x : File) :
  file_at f p = Some (i, x) <-> dir f !! p = Some i /\ inodes f !! i = Some x.
Proof.
  unfold file_at. split.
  - destruct (dir f !! p) as [j|]; [|discriminate]. cbn.
    destruct (inodes f !! j) as [y|] eqn:E; [|discriminate]. cbn.
    intros H. injection H as -> ->. now split.
  - intros [-> Hi]. cbn. rewrite Hi. reflexivity.
Qed.

(** X15. Generations age by one slot. For any retention count from 1 to
    1023, after a rotation in which no system call fails the file of slot
    n-1 is at slot n for every kept slot n, as the same inode with the
    same content and modification time, and a slot whose predecessor was
    free is free; this holds also when the upload that follows panics. *)
Theorem rotate_ages_generations (s : State) (keep n : Z) :
  fault_free (world s) -> live_ok s ->
  KeepFiles (mgr s) = Some keep -> 0 < keep < managerMaxFiles ->
  1 <= n < keep ->
  let p := filePath (mgr s) in
  let s' := snd (rotate s) in
  (forall i x, file_at (fs (world s)) (p (n - 1)) = Some (i, x) ->
               file_at (fs (world s')) (p n) = Some (i, x))
  /\ (dir (fs (world s)) !! p (n - 1) = None -> dir (fs (world s')) !! p n = None).
Proof.
  intros Hff Hlive Hkeep Hk Hn p s'.
  destruct (rotate_ff_result s keep Hff Hlive Hkeep ltac:(lia)) as (_ & _ & Hfs & _).
  fold s' in Hfs.
  assert (Hd : dir (fs (world s')) !! p n = dir (fs (world s)) !! p (n - 1)).
  { rewrite Hfs. unfold p. rewrite ring_after_lookup by assumption.
    repeat case_decide; try reflexivity; lia. }
  split.
  - intros i x Hx. apply file_at_Some in Hx as [Hdi Hi]. apply file_at_Some.
    split; [now rewrite Hd|].
    rewrite Hfs. now apply ring_after_keeps_inodes.
  - intros Hnone. now rewrite Hd.
Qed.

Lemma rotate_ages_generations_witness :
  file_at (fs (world (snd (rotate ex_state5)))) (filePath ex_manager 2)
  = Some (1%nat, ex_file).
Proof.
  refine (proj1 (rotate_ages_generations ex_state5 3 2 ex_state5_fault_free
                   ex_state5_live_ok eq_refl _ _) 1%nat ex_file eq_refl);
    unfold managerMaxFiles; lia.
Defined.

(** X16. After a rotation in which no system call fails, no generation
    file is left at the slots from the retention count up to 1023, and
    slot 0 is a new, empty file with the present time, on an inode that
    did not exist before, open as the manager's live file; the open
    descriptors are those of before without the old live file and with
    the new one. *)
Theorem rotate_new_live_file (s : State) (keep : Z) :
  fault_free (world s) -> live_ok s ->
  KeepFiles (mgr s) = Some keep -> 0 < keep < managerMaxFiles ->
  let p := filePath (mgr s) in
  let s' := snd (rotate s) in
  (forall n, keep <= n < managerMaxFiles -> dir (fs (world s')) !! p n = None)
  /\ exists fd i,
       current (mgr s') = Some fd
       /\ file_at (fs (world s')) (p 0) = Some (i, mkFile [] (now (env (world s))))
       /\ inodes (fs (world s)) !! i = None
       /\ fds (fs (world s')) = <[fd := i]> (fds (close_current (mgr s) (fs (world s)))).
Proof.
  intros Hff Hlive Hkeep Hk p s'.
  destruct (rotate_ff_result s keep Hff Hlive Hkeep ltac:(lia))
    as (_ & Hm & Hfs & _).
  fold s' in Hfs, Hm. split.
  - intros n Hn. rewrite Hfs. unfold p. rewrite ring_after_lookup by assumption.
    repeat case_decide; try reflexivity; lia.
  - exists (fst (ring_after (mgr s) keep (now (env (world s))) (fs (world s)))).
    exists (fresh (dom (inodes (fs (world s))))).
    split; [now rewrite Hm|]. split.
    { apply file_at_Some. rewrite Hfs. split.
      - unfold p. rewrite ring_after_lookup by assumption.
        case_decide; [reflexivity|lia].
      - rewrite ring_after_inodes by assumption. apply lookup_insert_eq. }
    split; [apply fresh_inode_absent|].
    rewrite Hfs. now apply ring_after_fds.
Qed.

Lemma rotate_new_live_file_witness :
  dir (fs (world (snd (rotate ex_state5)))) !! filePath ex_manager 3 = None.
Proof.
  refine (proj1 (rotate_new_live_file ex_state5 3 ex_state5_fault_free
                   ex_state5_live_ok eq_refl _) 3 _);
    unfold managerMaxFiles; lia.
Defined.

(** X17. A rotation in which no system call fails touches the generation
    slots only: a path that is no slot of this manager leads where it led
    before, and every file that existed keeps its content and its
    modification time, the generation dropped from the last kept slot
    included. *)
Theorem rotate_touches_only_generations (s : State) (keep : Z) :
  fault_free (world s) -> live_ok s ->
  KeepFiles (mgr s) = Some keep -> 0 < keep < managerMaxFiles ->
  let s' := snd (rotate s) in
  (forall q, (forall n, q <> filePath (mgr s) n) ->
             dir (fs (world s')) !! q = dir (fs (world s)) !! q)
  /\ (forall i x, inodes (fs (world s)) !! i = Some x ->
                  inodes (fs (world s')) !! i = Some x).
Proof.
  intros Hff Hlive Hkeep Hk s'.
  destruct (rotate_ff_result s keep Hff Hlive Hkeep ltac:(lia)) as (_ & _ & Hfs & _).
  fold s' in Hfs. rewrite Hfs. split.
  - intros q Hq. now apply ring_after_lookup_other.
  - intros i x Hi. now apply ring_after_keeps_inodes.
Qed.

Lemma rotate_touches_only_generations_witness :
  inodes (fs (world (snd (rotate ex_state5)))) !! 4%nat = Some ex_file.
Proof.
  refine (proj2 (rotate_touches_only_generations ex_state5 3 ex_state5_fault_free
                   ex_state5_live_ok eq_refl _) 4%nat ex_file eq_refl);
    unfold managerMaxFiles; lia.
Defined.

Lemma os_Open_present (p : string) (s : State) (i : nat) :
  fault (env (world s)) (SysOpen p) = None ->
  dir (fs (world s)) !! p = Some i ->
  os_Open p s =
    (Ok (Some (fresh (dom (fds (fs (world s))))), None),
     mkState (mgr s)
       (mkWorld (mkFS (dir (fs (world s))) (inodes (fs (world s)))
                   (<[fresh (dom (fds (fs (world s)))) := i]> (fds (fs (world s)))))
          (env (world s))
          (EvSys (SysOpen p) None :: trace (world s)))).
Proof.
  intros Hft Hd. unfold os_Open, syscall_run, open_fs. rewrite Hft, Hd.
  reflexivity.
Qed.

Lemma s3Upload_src (s : State) :
  fault (env (world s)) (SysOpen (last (mgr s))) = None ->
  session_NewSession (env (world s)) = None ->
  exists l l',
    trace (world (snd (s3Upload s))) =
      (l ++ EvUpload (Bucket (mgr s)) (upload_key (env (world s)))
              (dir (fs (world s)) !! last (mgr s))
              (snd (store_reply (env (world s))))
         :: l' ++ trace (world s))%list.
Proof.
  intros Hft Hsess.
  destruct (dir (fs (world s)) !! last (mgr s)) as [i|] eqn:Hd.
  2:{ destruct (s3Upload_uploads_none s Hd Hsess) as (l & l' & H). eauto. }
  destruct s as [m [[d ino fd] e tr]]. cbn [mgr world env trace fs dir] in *.
  unfold s3Upload.
  unfold bind at 1. unfold get_mgr at 1. cbv beta iota.
  unfold bind at 1. unfold logp_Info at 1. cbv beta iota.
  unfold bind at 1.
  rewrite (os_Open_present (last m) _ i) by assumption.
  cbn [mgr world record fs env trace dir inodes fds fst snd].
  unfold bind at 1. cbn [ret].
  unfold with_defer.
  unfold bind at 1. unfold get_world at 1. cbv beta iota.
  cbn [mgr world env].
  rewrite Hsess.
  unfold bind at 1. rewrite s3KeyName_run. cbn [world env].
  unfold bind at 1. unfold uploader_Upload at 1. cbn [world env mgr fs fds].
  fold (upload_key e). fold (store_reply e).
  cbn [mbind option_bind]. rewrite lookup_insert_eq.
  set (s2 := mkState m (record _ _)).
  match goal with |- context [bind ?c ?k s2] =>
    assert (Hx : extends (bind c k)) by auto 30 with trace;
    destruct (Hx s2) as [l3 Hl3]; destruct (bind c k s2) as [rb sb] end.
  cbn [snd] in *.
  destruct (extends_bind (file_Close (Some (fresh (dom fd)))) (fun _ => ret tt)
              (extends_file_Close _) (fun _ => extends_ret _) sb) as [l4 Hl4].
  rewrite Hl4, Hl3. subst s2. cbn [world record trace].
  exists (l4 ++ l3)%list.
  exists [EvSys (SysOpen (last m)) None; EvLog "S3 upload path: %v"].
  rewrite <- !app_assoc. reflexivity.
Qed.

Lemma rotate_upload_src (s : State) (keep : Z) :
  fault_free (world s) -> live_ok s ->
  KeepFiles (mgr s) = Some keep -> 0 < keep < managerMaxFiles ->
  session_NewSession (env (world s)) = None ->
  In (EvUpload (Bucket (mgr s)) (upload_key (env (world s)))
        (if decide (1 < keep) then dir (fs (world s)) !! filePath (mgr s) 0 else None)
        (snd (store_reply (env (world s)))))
     (trace (world (snd (rotate s)))).
Proof.
  intros Hff Hlive Hkeep Hk Hsess.
  destruct (rotate_ff s keep Hff Hlive Hkeep ltac:(lia)) as (tr & E & _).
  rewrite E, upload_call_run. cbn [snd].
  match goal with |- context [s3Upload ?sx] =>
    destruct (s3Upload_src sx) as (l & l' & H) end.
  { cbn [world env]. apply Hff. }
  { exact Hsess. }
  rewrite H. cbn [mgr world env fs rotated_mgr set_last last Bucket].
  apply in_or_app. right. left. f_equal.
  rewrite ring_after_lookup by assumption.
  repeat case_decide; try reflexivity; lia.
Qed.

(** X18. What a rotation uploads is the file that was live before it.
    With a retention count of at least 2, the live file at slot 0 and no
    failing system call, the store is asked during the rotation to upload
    from the inode slot 0 led to, under the key of the host and the
    moment; by then that file is at slot 1. *)
Theorem rotate_uploads_previous_live_file (s : State) (keep : Z) (i : nat) :
  fault_free (world s) -> live_ok s ->
  KeepFiles (mgr s) = Some keep -> 2 <= keep < managerMaxFiles ->
  session_NewSession (env (world s)) = None ->
  dir (fs (world s)) !! filePath (mgr s) 0 = Some i ->
  In (EvUpload (Bucket (mgr s)) (upload_key (env (world s))) (Some i)
        (snd (store_reply (env (world s)))))
     (trace (world (snd (rotate s))))
  /\ dir (fs (world (snd (rotate s)))) !! filePath (mgr s) 1 = Some i.
Proof.
  intros Hff Hlive Hkeep Hk Hsess Hd. split.
  - pose proof (rotate_upload_src s keep Hff Hlive Hkeep ltac:(lia) Hsess) as H.
    rewrite Hd in H. case_decide; [exact H|lia].
  - destruct (rotate_ff_result s keep Hff Hlive Hkeep ltac:(lia)) as (_ & _ & Hfs & _).
    rewrite Hfs, ring_after_lookup by lia. rewrite <- Hd.
    repeat case_decide; try reflexivity; lia.
Qed.

Lemma rotate_uploads_previous_live_file_witness :
  In (EvUpload "logs" (upload_key ex_env) (Some 0%nat) None)
     (trace (world (snd (rotate ex_state5))))
  /\ dir (fs (world (snd (rotate ex_state5)))) !! filePath ex_manager 1 = Some 0%nat.
Proof.
  refine (rotate_uploads_previous_live_file ex_state5 3 0 ex_state5_fault_free
            ex_state5_live_ok eq_refl _ eq_refl eq_refl).
  unfold managerMaxFiles; lia.
Defined.

(** X19. With a retention count of 1 the rotated file does not reach the
    store: the rotation moves the live file to slot 1, removes slot 1
    again as the extra file and only then runs the upload, so the store is
    asked to upload with nothing to read from, and slot 1 is free
    afterwards. *)
Theorem rotate_keep1_uploads_nothing (s : State) :
  fault_free (world s) -> live_ok s ->
  KeepFiles (mgr s) = Some 1 ->
  session_NewSession (env (world s)) = None ->
  In (EvUpload (Bucket (mgr s)) (upload_key (env (world s))) None
        (snd (store_reply (env (world s)))))
     (trace (world (snd (rotate s))))
  /\ dir (fs (world (snd (rotate s)))) !! filePath (mgr s) 1 = None.
Proof.
  intros Hff Hlive Hkeep Hsess.
  assert (Hk : 0 < 1 < managerMaxFiles) by (unfold managerMaxFiles; lia).
  split.
  - pose proof (rotate_upload_src s 1 Hff Hlive Hkeep Hk Hsess) as H.
    case_decide; [lia|exact H].
  - destruct (rotate_ff_result s 1 Hff Hlive Hkeep ltac:(lia)) as (_ & _ & Hfs & _).
    rewrite Hfs, ring_after_lookup by exact Hk.
    unfold managerMaxFiles. repeat case_decide; try reflexivity; lia.
Qed.

Lemma rotate_keep1_uploads_nothing_witness :
  In (EvUpload "logs" (upload_key ex_env) None None)
     (trace (world (snd (rotate ex_state_keep1))))
  /\ dir (fs (world (snd (rotate ex_state_keep1)))) !! filePath ex_manager 1 = None.
Proof.
  refine (rotate_keep1_uploads_nothing ex_state_keep1 _ _ eq_refl eq_refl).
  - intros c. reflexivity.
  - exists 0%nat. reflexivity.
Defined.

(** ** Rotations that fail *)

Lemma bind_Err_inv {A B} (c : M A) (k : A -> M B) s e s' :
  bind c k s = (Err e, s') ->
  c s = (Err e, s') \/ exists a s1, c s = (Ok a, s1) /\ k a s1 = (Err e, s').
Proof.
  unfold bind. destruct (c s) as [[a|e0|] s1]; intros H.
  - right. eauto.
  - left. injection H as -> ->. reflexivity.
  - discriminate.
Qed.

Lemma file_Close_fails (fd : nat) (s : State) :
  fault (env (world s)) (SysClose fd) <> None \/ fds (fs (world s)) !! fd = None ->
  exists e,
    file_Close (Some fd) s =
      (Ok (Some (OsError e)),
       mkState (mgr s) (record (EvSys (SysClose fd) (Some e)) (world s))).
Proof.
  intros H. unfold file_Close, bind, syscall_run, close_fs.
  destruct (fault _ _) as [e|]; [eexists; reflexivity|].
  destruct H as [H|H]; [contradiction|]. rewrite H. eexists. reflexivity.
Qed.

Lemma file_Close_succeeds (fd i : nat) (s : State) :
  fault (env (world s)) (SysClose fd) = None -> fds (fs (world s)) !! fd = Some i ->
  file_Close (Some fd) s =
    (Ok None,
     mkState (mgr s)
       (mkWorld (mkFS (dir (fs (world s))) (inodes (fs (world s)))
                   (delete fd (fds (fs (world s)))))
          (env (world s)) (EvSys (SysClose fd) None :: trace (world s)))).
Proof.
  intros Hft Hfd. unfold file_Close, bind, syscall_run, close_fs.
  rewrite Hft, Hfd. reflexivity.
Qed.

Lemma rotate_close_fails (s : State) (fd : nat) :
  current (mgr s) = Some fd ->
  fault (env (world s)) (SysClose fd) <> None \/ fds (fs (world s)) !! fd = None ->
  exists e,
    rotate s =
      (Err (OsError e),
       mkState (mgr s) (record (EvSys (SysClose fd) (Some e)) (world s))).
Proof.
  intros Hcur H. destruct (file_Close_fails fd s H) as [e E].
  exists e. unfold rotate. unfold bind at 1. unfold get_mgr at 1. cbv beta iota.
  rewrite Hcur. unfold bind at 1. unfold bind at 1. rewrite E. reflexivity.
Qed.



Lemma preserves_fs_fds {A} (c : M A) : preserves st_fs' c -> preserves st_fds c.
Proof. intros H s. unfold st_fds. specialize (H s). unfold st_fs' in H. now rewrite H. Qed.

Lemma os_Remove_fds p : preserves st_fds (os_Remove p).
Proof.
  intros s. unfold os_Remove, bind, syscall_run, remove_fs.
  destruct (fault _ _); [reflexivity|].
  destruct (dir _ !! p); reflexivity.
Qed.

Lemma os_Rename_fds a b : preserves st_fds (os_Rename a b).
Proof.
  intros s. unfold os_Rename, bind, syscall_run, rename_fs.
  destruct (fault _ _); [reflexivity|].
  destruct (dir _ !! a); reflexivity.
Qed.

Lemma fileExists_fds n : preserves st_fds (fileExists n).
Proof. apply preserves_fs_fds, fileExists_fs. Qed.

#[global] Hint Resolve os_Remove_fds os_Rename_fds fileExists_fds : frame.

Lemma prune_loop_fds n k : preserves st_fds (prune_loop n k).
Proof.
  revert k. induction n as [|n IH]; intros k; simpl; auto 20 with frame.
Qed.

Lemma shift_loop_fds n k : preserves st_fds (shift_loop n k).
Proof.
  revert k. induction n as [|n IH]; intros k; simpl; auto 20 with frame.
Qed.

Lemma os_Create_cases (p : string) (s : State) :
  exists r s4,
    os_Create p s = (Ok r, s4)
    /\ mgr s4 = mgr s
    /\ (snd r <> None ->
        fs (world s4) = fs (world s) /\ st_written s4 = st_written s)
    /\ (snd r = None -> st_written s4 = 0).
Proof.
  unfold os_Create, bind, get_world, syscall_run.
  destruct (fault _ _) as [e|].
  - do 2 eexists. split; [reflexivity|]. split; [reflexivity|].
    split; [intros _; split; reflexivity|discriminate].
  - destruct (create_fs _ _ _) as [fd f'].
    do 2 eexists. split; [reflexivity|]. split; [reflexivity|].
    split; [intros H; now contradiction H|reflexivity].
Qed.

Lemma syscall_run_no_Err {A} c (eff : FS -> errno + (A * FS)) s e s' :
  syscall_run c eff s <> (Err e, s').
Proof.
  unfold syscall_run. destruct (fault _ _); [discriminate|].
  destruct (eff _) as [x|[a f']]; discriminate.
Qed.

Lemma os_Remove_no_Err p s e s' : os_Remove p s <> (Err e, s').
Proof.
  unfold os_Remove. intros H. apply bind_Err_inv in H as [H|(r & s1 & _ & H)].
  - now apply syscall_run_no_Err in H.
  - discriminate.
Qed.

Lemma ignore_error_no_Err {A} (c : M A) s e s' : ignore_error c s <> (Err e, s').
Proof. unfold ignore_error. destruct (c s) as [[a|x|] s1]; discriminate. Qed.

(** X21. A rotation that fails after it has closed the live file leaves
    the manager holding the closed descriptor. When the Close succeeds
    and rotate then returns an error (a file that cannot be removed or
    renamed, a conflict, a live file that cannot be created), "current"
    still names the old descriptor, which is no longer open. *)
Theorem rotate_failure_leaves_closed_file (s : State) (fd i : nat) (e : error) :
  current (mgr s) = Some fd ->
  fault (env (world s)) (SysClose fd) = None -> fds (fs (world s)) !! fd = Some i ->
  fst (rotate s) = Err e ->
  current (mgr (snd (rotate s))) = Some fd
  /\ fds (fs (world (snd (rotate s)))) !! fd = None.
Proof.
  intros Hcur Hft Hfd Hr.
  destruct (rotate s) as [r s'] eqn:H. cbn [fst snd] in *. subst r.
  unfold rotate in H.
  apply bind_Err_inv in H as [H|(m & s0 & E0 & H)]; [discriminate|].
  injection E0 as <- <-. rewrite Hcur in H.
  apply bind_Err_inv in H as [H|([] & s1 & E1 & H)].
  { unfold bind in H. rewrite (file_Close_succeeds fd i s Hft Hfd) in H. discriminate. }
  unfold bind in E1. rewrite (file_Close_succeeds fd i s Hft Hfd) in E1.
  injection E1 as <-.
  set (s1 := mkState _ _) in H.
  assert (Hm1 : st_mgr s1 = mgr s) by reflexivity.
  assert (Hf1 : st_fds s1 !! fd = None) by apply lookup_delete_eq.
  clearbody s1.
  apply bind_Err_inv in H as [H|(keep & s1' & E & H)].
  { destruct (KeepFiles (mgr s)); discriminate. }
  apply deref_Ok_inv in E as [_ ->].
  apply bind_Err_inv in H as [H|([] & s2 & E2 & H)].
  { pose proof (prune_loop_mgr (Z.to_nat (managerMaxFiles - keep)) keep s1) as M. pose proof (prune_loop_fds (Z.to_nat (managerMaxFiles - keep)) keep s1) as F.
    rewrite H in M, F. cbn [snd] in M, F. unfold st_mgr, st_fds in *.
    rewrite M, Hm1, F. auto. }
  pose proof (prune_loop_mgr (Z.to_nat (managerMaxFiles - keep)) keep s1) as M2. pose proof (prune_loop_fds (Z.to_nat (managerMaxFiles - keep)) keep s1) as F2.
  rewrite E2 in M2, F2. cbn [snd] in M2, F2.
  apply bind_Err_inv in H as [H|([] & s3 & E3 & H)].
  { pose proof (shift_loop_mgr (Z.to_nat keep) (keep - 1) s2) as M. pose proof (shift_loop_fds (Z.to_nat keep) (keep - 1) s2) as F.
    rewrite H in M, F. cbn [snd] in M, F. unfold st_mgr, st_fds in *.
    rewrite M, M2, Hm1, F, F2. auto. }
  pose proof (shift_loop_mgr (Z.to_nat keep) (keep - 1) s2) as M3. pose proof (shift_loop_fds (Z.to_nat keep) (keep - 1) s2) as F3.
  rewrite E3 in M3, F3. cbn [snd] in M3, F3.
  destruct (os_Create_cases (filePath (mgr s) 0) s3) as (r & s4 & E4 & M4 & Hfail & _).
  apply bind_Err_inv in H as [H|(r' & s4' & E4' & H)].
  { rewrite E4 in H. discriminate. }
  rewrite E4 in E4'. injection E4' as <- <-.
  apply bind_Err_inv in H as [H|([] & s5 & E5 & H)].
  { destruct (snd r) as [err|] eqn:Er; [|discriminate].
    cbn in H. injection H as _ <-.
    destruct Hfail as [Hfs _]; [discriminate|].
    unfold st_mgr, st_fds in *. rewrite M4, M3, M2, Hm1, Hfs, F3, F2. auto. }
  exfalso.
  apply bind_Err_inv in H as [H|([] & s6 & _ & H)]; [discriminate|].
  apply bind_Err_inv in H as [H|([] & s7 & _ & H)]; [discriminate|].
  apply bind_Err_inv in H as [H|(ro & s8 & _ & H)].
  { now apply os_Remove_no_Err in H. }
  apply bind_Err_inv in H as [H|([] & s9 & _ & H)]; [discriminate|].
  apply bind_Err_inv in H as [H|([] & s10 & _ & H)].
  { now apply ignore_error_no_Err in H. }
  discriminate.
Qed.

Lemma rotate_failure_leaves_closed_file_witness :
  current (mgr (snd (rotate ex_state5_remove_denied))) = Some 0%nat
  /\ fds (fs (world (snd (rotate ex_state5_remove_denied)))) !! 0%nat = None.
Proof.
  apply (rotate_failure_leaves_closed_file ex_state5_remove_denied 0 0
           (OsError EACCES)); reflexivity.
Defined.

Lemma file_Write_stale (fd : nat) (data : list byte) (s : State) :
  fds (fs (world s)) !! fd = None ->
  exists e,
    file_Write (Some fd) data s =
      (Ok (Some (OsError e)),
       mkState (mgr s) (record (EvSys (SysWrite fd data) (Some e)) (world s))).
Proof.
  intros H. unfold file_Write, bind, get_world, syscall_run, write_fs.
  cbn [world]. destruct (fault _ _) as [e|]; [eexists; reflexivity|].
  rewrite H. eexists. reflexivity.
Qed.

(** X22. A manager left with a closed live file never appends again:
    whatever the thresholds, the environment and the line, writeLine does
    not return nil (its shouldRotate panics, its rotate fails at the
    Close, or its Write fails) and it leaves the manager as it found it,
    with the closed descriptor, so that the next append fails as well. *)
Theorem writeLine_after_failed_rotation (s : State) (line : list byte) :
  stale s ->
  fst (writeLine line s) <> Ok tt /\ stale (snd (writeLine line s)).
Proof.
  intros (fd & Hcur & Hfd).
  destruct (writeLine line s) as [r s'] eqn:W. cbn [fst snd].
  unfold writeLine in W. unfold bind at 1 in W.
  pose proof (shouldRotate_mgr s) as M1. pose proof (shouldRotate_fs s) as F1.
  unfold st_mgr, st_fs' in M1, F1.
  destruct (shouldRotate s) as [[rot|e|] s1]; cbn [snd fst] in *.
  2,3: injection W as <- <-; split; [discriminate|]; exists fd; rewrite M1, F1; auto.
  assert (Hcur1 : current (mgr s1) = Some fd) by now rewrite M1.
  assert (Hfd1 : fds (fs (world s1)) !! fd = None) by now rewrite F1.
  clear M1 F1. destruct rot.
  - destruct (rotate_close_fails s1 fd Hcur1 (or_intror Hfd1)) as [e E].
    unfold bind at 1 in W. rewrite E in W. injection W as <- <-.
    split; [discriminate|]. exists fd. auto.
  - unfold bind, ret, get_mgr in W. rewrite Hcur1 in W.
    destruct (file_Write_stale fd (line ++ [newline]) s1 Hfd1) as [e E].
    rewrite E in W. cbn [check fail] in W. injection W as <- <-.
    split; [discriminate|]. exists fd. auto.
Qed.

Lemma writeLine_after_failed_rotation_witness :
  fst (writeLine [x68; x69] ex_state_stale) <> Ok tt
  /\ stale (snd (writeLine [x68; x69] ex_state_stale)).
Proof.
  apply (writeLine_after_failed_rotation ex_state_stale).
  exists 0%nat. split; reflexivity.
Defined.

(** ** The byte counter, whatever the outcome *)

Lemma keeps_bind {A B} (P : State -> Prop) (c : M A) (k : A -> M B) :
  keeps P c -> (forall a, keeps P (k a)) -> keeps P (bind c k).
Proof.
  intros Hc Hk s HP. unfold bind. specialize (Hc s HP).
  destruct (c s) as [[a|e|] s1]; cbn [snd] in *; try assumption.
  now apply Hk.
Qed.

Lemma keeps_preserved {A} (c : M A) :
  preserves st_counter c -> preserves st_written c -> keeps counter_ok c.
Proof.
  intros Hc Hw s HP. unfold counter_ok in *.
  change (st_counter (snd (c s)) = uint64_wrap (st_written (snd (c s)))).
  rewrite Hc, Hw. exact HP.
Qed.

Lemma preserves_mgr_counter {A} (c : M A) : preserves st_mgr c -> preserves st_counter c.
Proof. intros H s. unfold st_counter. specialize (H s). unfold st_mgr in H. now rewrite H. Qed.

Lemma fileExists_written' n : preserves st_written (fileExists n).
Proof. unfold fileExists. auto 20 with frame. Qed.

#[global] Hint Resolve fileExists_written' : frame.

Lemma prune_loop_written' n k : preserves st_written (prune_loop n k).
Proof.
  revert k. induction n as [|n IH]; intros k; simpl; auto 20 with frame.
Qed.

Lemma shift_loop_written' n k : preserves st_written (shift_loop n k).
Proof.
  revert k. induction n as [|n IH]; intros k; simpl; auto 20 with frame.
Qed.

Lemma close_block_written (m : fileManager) :
  preserves st_written
    (match current m with
     | Some _ => bind (file_Close (current m)) (fun err => check err)
     | None => ret tt
     end).
Proof. destruct (current m); auto 20 with frame. Qed.

Lemma create_part_keeps (p : string) (rest : M unit) :
  preserves st_counter rest -> preserves st_written rest ->
  keeps counter_ok
    (bind (os_Create p) (fun r =>
       bind (check (snd r)) (fun _ =>
         bind (modify_mgr (set_current (fst r))) (fun _ =>
           bind (modify_mgr (set_current_size 0)) (fun _ => rest))))).
Proof.
  intros Hc Hw s HP. unfold bind at 1.
  destruct (os_Create_cases p s) as (r & s4 & E & M4 & Hfail & Hok).
  rewrite E. destruct (snd r) as [err|] eqn:Er.
  - unfold bind at 1. cbn [check fail snd].
    destruct Hfail as [_ W4]; [discriminate|].
    unfold counter_ok in *. now rewrite M4, W4.
  - unfold bind, check, ret, modify_mgr. cbn [mgr world].
    unfold counter_ok.
    match goal with |- context [rest ?s6] =>
      change (st_counter (snd (rest s6)) = uint64_wrap (st_written (snd (rest s6))));
      rewrite (Hc s6), (Hw s6) end.
    unfold st_counter, st_written. cbn [mgr world set_current_size current_size].
    specialize (Hok eq_refl). unfold st_written in Hok. now rewrite Hok.
Qed.

Lemma rotate_keeps_counter : keeps counter_ok rotate.
Proof.
  unfold rotate. apply keeps_bind.
  { apply keeps_preserved; auto with frame. }
  intros m. apply keeps_bind.
  { apply keeps_preserved;
      [apply preserves_mgr_counter, close_block_mgr|apply close_block_written]. }
  intros _. apply keeps_bind.
  { apply keeps_preserved; auto with frame. }
  intros keep. apply keeps_bind.
  { apply keeps_preserved;
      [apply preserves_mgr_counter, prune_loop_mgr|apply prune_loop_written']. }
  intros _. apply keeps_bind.
  { apply keeps_preserved;
      [apply preserves_mgr_counter, shift_loop_mgr|apply shift_loop_written']. }
  intros _. cbv zeta. apply create_part_keeps.
  - apply preserves_bind; [apply preserves_mgr_counter, os_Remove_mgr|]. intros _.
    apply preserves_bind; [intros s; reflexivity|]. intros _.
    apply preserves_bind; [|auto with frame]. intros s.
    apply preserves_ignore_error, preserves_mgr_counter, s3Upload_mgr.
  - apply preserves_bind; [apply os_Remove_written|]. intros _.
    apply preserves_bind; [auto with frame|]. intros _.
    apply preserves_bind; [|auto with frame].
    apply preserves_ignore_error, s3Upload_written.
Qed.

Lemma file_Write_cases (f : option nat) (data : list byte) (s : State) :
  exists r s3,
    file_Write f data s = (Ok r, s3)
    /\ mgr s3 = mgr s
    /\ (r = None -> st_written s3 = Z.of_nat (length data) + st_written s)
    /\ (r <> None -> st_written s3 = st_written s).
Proof.
  destruct f as [fd|].
  2:{ do 2 eexists. split; [reflexivity|]. split; [reflexivity|].
      split; [discriminate|reflexivity]. }
  unfold file_Write, bind, get_world, syscall_run, ret. cbn [world].
  destruct (fault _ _) as [e|].
  { do 2 eexists. split; [reflexivity|]. split; [reflexivity|].
    split; [discriminate|reflexivity]. }
  destruct (lift_fs _) as [e|[u f']].
  - do 2 eexists. split; [reflexivity|]. split; [reflexivity|].
    split; [discriminate|reflexivity].
  - do 2 eexists. split; [reflexivity|]. split; [reflexivity|].
    split; [reflexivity|intros H; now contradiction H].
Qed.

Lemma write_part_keeps (data : list byte) :
  keeps counter_ok
    (bind get_mgr (fun m =>
       bind (file_Write (current m) data) (fun err =>
         bind (check err) (fun _ =>
           modify_mgr (fun m => set_current_size
                                  (uint64_wrap (current_size m + Z.of_nat (length data)))
                                  m))))).
Proof.
  intros s HP. unfold bind at 1. unfold get_mgr at 1. cbv beta iota.
  destruct (file_Write_cases (current (mgr s)) data s) as (r & s3 & E & M3 & Hok & Hfail).
  unfold bind at 1. rewrite E. unfold counter_ok in *.
  destruct r as [err|].
  - unfold bind. cbn [check fail snd]. rewrite M3, Hfail by discriminate. exact HP.
  - unfold bind, check, ret, modify_mgr. cbn [snd mgr set_current_size current_size].
    unfold st_written in *. cbn [world]. rewrite (Hok eq_refl), M3, HP.
    rewrite uint64_wrap_add_l. f_equal. lia.
Qed.



(** ** Where the bytes of a line go *)

Lemma shouldRotate_state (s : State) :
  exists tr1,
    snd (shouldRotate s)
    = mkState (mgr s) (mkWorld (fs (world s)) (env (world s)) tr1).
Proof.
  pose proof (shouldRotate_mgr s) as M. pose proof (shouldRotate_fs s) as F.
  pose proof (shouldRotate_env' s) as N. unfold st_mgr, st_fs', st_env in *.
  destruct (snd (shouldRotate s)) as [m1 [f1 e1 tr1]]. cbn in M, F, N. subst.
  eexists. reflexivity.
Qed.

Lemma writeLine_no_rotation_run (s : State) (line : list byte)
    (fd i : nat) (x : File) :
  fault_free (world s) ->
  current (mgr s) = Some fd -> fds (fs (world s)) !! fd = Some i ->
  inodes (fs (world s)) !! i = Some x ->
  fst (shouldRotate s) = Ok false ->
  exists tr1,
    writeLine line s =
      (Ok tt,
       mkState (set_current_size
                  (uint64_wrap (current_size (mgr s)
                                + Z.of_nat (length (line ++ [newline]))))
                  (mgr s))
         (mkWorld (mkFS (dir (fs (world s)))
                     (<[i := mkFile (f_data x ++ line ++ [newline])
                               (now (env (world s)))]> (inodes (fs (world s))))
                     (fds (fs (world s))))
            (env (world s)) tr1)).
Proof.
  intros Hff Hcur Hfd Hi Hsr.
  destruct (shouldRotate_state s) as [tr1 Hs1].
  unfold writeLine. unfold bind at 1.
  destruct (shouldRotate s) as [r s1]. cbn [fst snd] in Hsr, Hs1. subst r s1.
  unfold bind at 1. cbn [ret].
  unfold bind at 1. unfold get_mgr at 1. cbv beta iota. cbn [mgr].
  rewrite Hcur. unfold bind at 1.
  rewrite (file_Write_ff _ fd i x (line ++ [newline]))
    by (try assumption; intros c; apply Hff).
  eexists. reflexivity.
Qed.

(** X24. An append with no rotation due puts the whole line at the end
    of the live file. In a run without failing calls, when shouldRotate
    answers false, writeLine returns nil, the live file's content is what
    it was followed by the line and one newline, its modification time is
    now, and no other file, no directory entry and no descriptor
    changes. *)
Theorem writeLine_appends_whole_line (s : State) (line : list byte)
    (fd i : nat) (x : File) :
  fault_free (world s) ->
  current (mgr s) = Some fd -> fds (fs (world s)) !! fd = Some i ->
  inodes (fs (world s)) !! i = Some x ->
  fst (shouldRotate s) = Ok false ->
  let s' := snd (writeLine line s) in
  fst (writeLine line s) = Ok tt
  /\ inodes (fs (world s'))
     = <[i := mkFile (f_data x ++ line ++ [newline]) (now (env (world s)))]>
         (inodes (fs (world s)))
  /\ dir (fs (world s')) = dir (fs (world s))
  /\ fds (fs (world s')) = fds (fs (world s))
  /\ current (mgr s') = Some fd.
Proof.
  intros Hff Hcur Hfd Hi Hsr s'. subst s'.
  destruct (writeLine_no_rotation_run s line fd i x Hff Hcur Hfd Hi Hsr) as [tr1 E].
  rewrite E. cbn [fst snd mgr world fs dir inodes fds set_current_size current].
  repeat split; try reflexivity; assumption.
Qed.

Lemma writeLine_appends_whole_line_witness :
  fst (writeLine [x68; x69] ex_state5) = Ok tt
  /\ inodes (fs (world (snd (writeLine [x68; x69] ex_state5))))
     = <[0%nat := mkFile [x68; x69; newline] ex_time]> ex_inodes5.
Proof.
  destruct (writeLine_appends_whole_line ex_state5 [x68; x69] 0 0 ex_file
              ex_state5_fault_free eq_refl eq_refl eq_refl eq_refl)
    as (H1 & H2 & _).
  split; [exact H1|exact H2].
Defined.

(** X25. A line is never split between two files. When a rotation is
    due (shouldRotate answers true), with a retention count of at least
    2, the live file at slot 0, no failing call and a store that accepts,
    writeLine returns nil; the file that was live is at slot 1 with the
    content and modification time it had, without the new line, and slot
    0 is a new file that holds exactly the line and its newline and is
    the manager's live file. *)
Theorem writeLine_rotation_starts_new_file (s : State) (line : list byte)
    (keep : Z) (fd i : nat) (x : File) :
  fault_free (world s) -> upload_outcome (env (world s)) <> Panic ->
  KeepFiles (mgr s) = Some keep -> 2 <= keep < managerMaxFiles ->
  current (mgr s) = Some fd -> fds (fs (world s)) !! fd = Some i ->
  file_at (fs (world s)) (filePath (mgr s) 0) = Some (i, x) ->
  fst (shouldRotate s) = Ok true ->
  let s' := snd (writeLine line s) in
  fst (writeLine line s) = Ok tt
  /\ file_at (fs (world s')) (filePath (mgr s) 1) = Some (i, x)
  /\ exists j,
       file_at (fs (world s')) (filePath (mgr s) 0)
       = Some (j, mkFile (line ++ [newline])%list (now (env (world s))))
       /\ j <> i
       /\ live_data s' = Some (line ++ [newline])%list.
Proof.
  intros Hff Hup Hkeep Hk Hcur Hfd Hfile Hsr s'.
  apply file_at_Some in Hfile as [Hd Hi].
  assert (E : exists s2 fd2 tr2,
             rotate (snd (shouldRotate s)) = (Ok tt, s2)
             /\ s2 = mkState (rotated_mgr (mgr s) fd2)
                       (mkWorld (snd (ring_after (mgr s) keep (now (env (world s)))
                                        (fs (world s))))
                          (env (world s)) tr2)
             /\ fd2 = fst (ring_after (mgr s) keep (now (env (world s))) (fs (world s)))).
  { destruct (shouldRotate_state s) as [tr1 Hs1]. rewrite Hs1.
    set (s1 := mkState _ _).
    assert (Hff1 : fault_free (world s1)) by (intros c; apply Hff).
    assert (Hlive1 : live_ok s1).
    { unfold live_ok. subst s1. cbn [mgr world fs]. rewrite Hcur. now exists i. }
    destruct (rotate_ff_result s1 keep Hff1 Hlive1 Hkeep ltac:(lia))
      as (Hr & Hm & Hfs & Hen & _).
    clear Hff1 Hlive1.
    subst s1. cbn [mgr world fs env] in *.
    destruct (rotate _) as [r [m2 [f2 e2 tr2]]]. cbn [fst snd mgr world fs env] in *.
    subst. do 3 eexists. split; [|split; reflexivity].
    f_equal. destruct (upload_outcome (env (world s))); try reflexivity.
    now contradiction Hup. }
  destruct E as (s2 & fd2 & tr2 & Er & Hs2 & Hfd2).
  set (data := (line ++ [newline])%list).
  set (t := now (env (world s))) in *.
  set (i0 := fresh (dom (inodes (fs (world s))))).
  assert (Hne : i0 <> i).
  { intros E. subst i0. rewrite <- E in Hi. rewrite fresh_inode_absent in Hi. discriminate. }
  assert (Hk' : 0 < keep < managerMaxFiles) by lia.
  assert (W : exists tr3,
             writeLine line s =
               (Ok tt,
                mkState (set_current_size
                           (uint64_wrap (current_size (mgr s2) + Z.of_nat (length data)))
                           (mgr s2))
                  (mkWorld (mkFS (dir (fs (world s2)))
                              (<[i0 := mkFile ([] ++ data) t]> (inodes (fs (world s2))))
                              (fds (fs (world s2))))
                     (env (world s)) tr3))).
  { unfold writeLine. unfold bind at 1.
    destruct (shouldRotate s) as [r s1]. cbn [fst snd] in Hsr, Er. subst r.
    unfold bind at 1. rewrite Er.
    unfold bind at 1. unfold get_mgr at 1. cbv beta iota.
    unfold bind at 1.
    assert (Hc2 : current (mgr s2) = Some fd2) by (rewrite Hs2; reflexivity).
    rewrite Hc2.
    rewrite (file_Write_ff s2 fd2 i0 (mkFile [] t) (line ++ [newline])%list).
    - rewrite Hs2. cbn [mgr world env fs]. eexists. reflexivity.
    - rewrite Hs2. intros c. apply Hff.
    - rewrite Hs2, Hfd2. cbn [world fs]. rewrite ring_after_fds by assumption.
      apply lookup_insert_eq.
    - rewrite Hs2. cbn [world fs]. rewrite ring_after_inodes by assumption.
      apply lookup_insert_eq. }
  destruct W as [tr3 W]. subst s'. rewrite W.
  cbn [fst snd mgr world fs dir inodes fds app].
  rewrite Hs2. cbn [mgr world fs].
  split; [reflexivity|]. split.
  { apply file_at_Some. cbn [dir inodes]. split.
    - rewrite ring_after_lookup by assumption. rewrite <- Hd.
      repeat case_decide; try reflexivity; lia.
    - rewrite lookup_insert_ne by exact Hne.
      now apply ring_after_keeps_inodes. }
  exists i0. split.
  { apply file_at_Some. cbn [dir inodes]. split.
    - rewrite ring_after_lookup by assumption. case_decide; [reflexivity|lia].
    - apply lookup_insert_eq. }
  split; [exact Hne|].
  unfold live_data. cbn [mgr world fs fds inodes rotated_mgr set_current_size
                         set_last set_current current].
  rewrite Hfd2, ring_after_fds by assumption.
  cbn [mbind option_bind]. rewrite lookup_insert_eq.
  cbn [mbind option_bind]. fold i0. rewrite lookup_insert_eq. reflexivity.
Qed.

Lemma writeLine_rotation_starts_new_file_witness :
  fst (writeLine [x68; x69] ex_state5_full) = Ok tt
  /\ file_at (fs (world (snd (writeLine [x68; x69] ex_state5_full))))
       (filePath ex_manager 1) = Some (0%nat, ex_file)
  /\ live_data (snd (writeLine [x68; x69] ex_state5_full)) = Some [x68; x69; newline].
Proof.
  destruct (writeLine_rotation_starts_new_file ex_state5_full [x68; x69] 3 0 0 ex_file
              (fun c => eq_refl)) as (H1 & H2 & j & _ & _ & H3).
  - vm_compute. discriminate.
  - reflexivity.
  - unfold managerMaxFiles. lia.
  - reflexivity.
  - reflexivity.
  - reflexivity.
  - reflexivity.
  - split; [exact H1|]. split; [exact H2|exact H3].
Defined.

(** ** Preparing the directory *)

(** X26. createDirectory returns an error in exactly two cases: Stat
    succeeded and the path is not a directory (the error names the path),
    or Stat reported that the path does not exist and MkdirAll failed
    (the error is MkdirAll's). It never panics. *)
Theorem createDirectory_error_iff (m : fileManager) (w : Tree) (e : error) :
  (fst (createDirectory m w) = Err e <->
     (tree_fault w (CallStat (Path m)) = None
      /\ nodes w !! Path m = Some Regular /\ e = not_a_directory m)
     \/ (stat_not_exist (Path m) w /\ fst (mkdir_result (Path m) w) = Some e))
  /\ fst (createDirectory m w) <> Panic.
Proof.
  unfold createDirectory, tbind, tree_Stat, os_MkdirAll, stat_not_exist.
  destruct (tree_fault w (CallStat (Path m))) as [en|] eqn:Hf.
  - cbn [fst snd tret]. destruct en; cbn [os_IsNotExist tret fst].
    2-7: split; [|discriminate]; split;
      [discriminate
      |intros [(H & _)|([H|(H & _)] & _)]; discriminate].
    destruct (mkdir_result (Path m) w) as [[err|] w'] eqn:Hm; cbn [tcheck tfail tret fst].
    + split; [|discriminate]. split.
      * intros H. injection H as ->. right. split; [now left|reflexivity].
      * intros [(H & _)|(_ & H)]; [discriminate|]. now injection H as ->.
    + split; [|discriminate]. split; [discriminate|].
      intros [(H & _)|(_ & H)]; discriminate.
  - destruct (nodes w !! Path m) as [[|]|] eqn:Hn; cbn [fst snd tret tderef IsDir negb
                                                       tfail os_IsNotExist].
    + split; [|discriminate]. split; [discriminate|].
      intros [(_ & H & _)|([H|(_ & H)] & _)]; discriminate.
    + split; [|discriminate]. split.
      * intros H. injection H as <-. left. auto.
      * intros [(_ & _ & ->)|([H|(_ & H)] & _)]; [reflexivity|discriminate..].
    + destruct (mkdir_result (Path m) w) as [[err|] w'] eqn:Hm; cbn [tcheck tfail tret fst].
      * split; [|discriminate]. split.
        -- intros H. injection H as ->. right. split; [right; auto|reflexivity].
        -- intros [(_ & H & _)|(_ & H)]; [discriminate|]. now injection H as ->.
      * split; [|discriminate]. split; [discriminate|].
        intros [(_ & H & _)|(_ & H)]; discriminate.
Qed.

Lemma createDirectory_error_iff_witness :
  fst (createDirectory ex_manager ex_tree_file) = Err (not_a_directory ex_manager).
Proof.
  apply (proj1 (createDirectory_error_iff ex_manager ex_tree_file
                  (not_a_directory ex_manager))).
  left. repeat split; reflexivity.
Defined.

(** X27. A Stat failure other than "does not exist" is swallowed: when
    os.Stat fails with any other error (no permission, an I/O error),
    createDirectory returns nil without calling MkdirAll and without
    changing anything; a nil return therefore does not tell that the
    directory exists. *)
Theorem createDirectory_swallows_stat_error (m : fileManager) (w : Tree) (e : errno) :
  tree_fault w (CallStat (Path m)) = Some e -> e <> ENOENT ->
  createDirectory m w = (Ok tt, w).
Proof.
  intros Hf Hne. unfold createDirectory, tbind, tree_Stat. rewrite Hf.
  cbn [fst snd tret]. destruct e; try reflexivity. now contradiction Hne.
Qed.

Lemma createDirectory_swallows_stat_error_witness :
  createDirectory ex_manager ex_tree_denied = (Ok tt, ex_tree_denied)
  /\ nodes ex_tree_denied !! Path ex_manager = None.
Proof.
  split; [|reflexivity].
  apply (createDirectory_swallows_stat_error ex_manager ex_tree_denied EACCES);
    [reflexivity|discriminate].
Defined.

Lemma createDirectory_on_directory (m : fileManager) (w : Tree) :
  tree_fault w (CallStat (Path m)) = None ->
  nodes w !! Path m = Some Directory ->
  createDirectory m w = (Ok tt, w).
Proof.
  intros Hf Hn. unfold createDirectory, tbind, tree_Stat. rewrite Hf, Hn.
  reflexivity.
Qed.

Lemma createDirectory_on_nothing (m : fileManager) (w : Tree) :
  (forall c, tree_fault w c = None) ->
  nodes w !! Path m = None ->
  createDirectory m w
  = (Ok tt, mkTree (<[Path m := Directory]> (nodes w)) (tree_fault w)).
Proof.
  intros Hff Hn. unfold createDirectory, tbind, tree_Stat. rewrite Hff, Hn.
  cbn [fst snd tret os_IsNotExist]. unfold os_MkdirAll, mkdir_result.
  rewrite Hff, Hn. reflexivity.
Qed.



(** ** When the policy panics *)

Lemma os_Lstat_result (p : string) (s : State) :
  exists err tr,
    os_Lstat p s
    = (Ok (lstat_result s p, err),
       mkState (mgr s) (mkWorld (fs (world s)) (env (world s)) tr))
    /\ (lstat_result s p = None -> err <> None).
Proof.
  unfold os_Lstat, syscall_run, lstat_result.
  destruct (fault _ _) as [e|].
  { do 2 eexists. split; [reflexivity|discriminate]. }
  destruct (stat_fs p (fs (world s))) as [e|fi]; cbn [lift_ro].
  - do 2 eexists. split; [reflexivity|discriminate].
  - do 2 eexists. split; [reflexivity|discriminate].
Qed.

(** X29. shouldRotate panics in these cases and no others: a live file
    is open and the size threshold is unset; or the counter is below the
    size threshold and the time threshold is unset; or it is positive and
    slot 1 cannot be examined. Once checkIfConfigSane has set the
    thresholds, the unexamined slot 1 is the only way to a panic. *)
Theorem shouldRotate_panics_iff (s : State) :
  fst (shouldRotate s) = Panic <->
  current (mgr s) <> None
  /\ match UploadEveryBytes (mgr s) with
     | None => True
     | Some everyBytes =>
       current_size (mgr s) < everyBytes
       /\ match UploadEverySeconds (mgr s) with
          | None => True
          | Some everySeconds =>
            0 < everySeconds /\ lstat_result s (filePath (mgr s) 1) = None
          end
     end.
Proof.
  unfold shouldRotate. unfold bind at 1. unfold get_mgr at 1. cbv beta iota.
  destruct (current (mgr s)) as [fd|].
  2:{ cbn. split; [discriminate|]. intros [H _]. now contradiction H. }
  destruct (UploadEveryBytes (mgr s)) as [everyBytes|].
  2:{ cbn. split; [intros _; split; [discriminate|exact I]|reflexivity]. }
  unfold bind at 1. cbn [deref ret].
  destruct (Z.leb_spec everyBytes (current_size (mgr s))) as [Hge|Hlt].
  { cbn. split; [discriminate|]. intros (_ & H & _). lia. }
  destruct (UploadEverySeconds (mgr s)) as [everySeconds|].
  2:{ cbn. split; [intros _; split; [discriminate|split; [assumption|exact I]]
                  |reflexivity]. }
  unfold bind at 1. cbn [deref ret].
  destruct (Z.ltb_spec 0 everySeconds) as [Hpos|Hnp].
  2:{ cbn. split; [discriminate|]. intros (_ & _ & H & _). lia. }
  unfold bind at 1.
  destruct (os_Lstat_result (filePath (mgr s) 1) s) as (err & tr & E & Herr).
  rewrite E. cbn [fst snd].
  destruct (lstat_result s (filePath (mgr s) 1)) as [fi|].
  - split; [|intros (_ & _ & _ & H); discriminate].
    unfold bind at 1. destruct err; cbn [logp_Info ret];
      unfold bind at 1; cbn [deref ret]; unfold bind at 1; unfold time_Now at 1;
      cbv beta iota;
      match goal with |- context [if ?b then _ else _] => destruct b end;
      cbn; discriminate.
  - split; [intros _; repeat split; try assumption; discriminate|].
    intros _. specialize (Herr eq_refl).
    destruct err as [e|]; [|now contradiction Herr]. reflexivity.
Qed.

Lemma shouldRotate_panics_iff_witness : fst (shouldRotate ex_state_timed) = Panic.
Proof.
  apply (proj2 (shouldRotate_panics_iff ex_state_timed)).
  split; [discriminate|]. cbn. split; [lia|]. split; [lia|reflexivity].
Defined.
